(** * PyBench: the request scheduler of [src/pybench/pybench.py]

    A shallow embedding of the classes [Result] and [Bench] and of the
    entry point [run_test], together with the part of Twisted that the
    class drives: the deferreds returned by [Agent.request], the
    [DeferredList]s built by [Bench.stop], the delayed call armed by
    [Bench.run] and the deferred returned by it.

    Conventions.
    - Python objects that are shared by reference are kept in a store and
      named by their position in it: a [Result] by its index in
      [Results] (every [Result] is appended to that list in the statement
      after its creation and the list is never shortened), a request
      deferred by its index in [Deferreds], an [Agent] by its index in
      [Agents].
    - [time.time()] is an input: every operation that reads the clock
      takes the reading [now] as an argument.
    - The reactor is single threaded: a request deferred fires in a later
      reactor turn than the one that created it.  One turn is one [event].
      [agent.request] does not return a deferred that has already fired.
    - What [print] writes is not modelled; what its argument can raise is:
      [run] calls [parseURL] in its first statement, and [urlparse] raises
      [ValueError] on some urls.  [urlparse] is the one of Python 2.7, on a
      byte string.
    - [summary], the callback that [run_test] adds to the deferred of
      [run], is modelled by the numbers it prints, without its graph. *)

From stdpp Require Import base gmap list strings.
From Stdlib Require Import ZArith Lia Ascii.
From Stdlib Require Import QArith.

Local Open Scope Z_scope.

(** ** Data *)

(** A Python value that is [None] or a [str] (the [auth] argument). *)
Inductive pystr : Type :=
| PyNone
| PyStr (s : string).

(** [Result.Code]: the integer [0] at creation, the response code on the
    success path, the failure object on the failure path. *)
Inductive pycode : Type :=
| CodeInt (code : Z)
| CodeFailure (reason : string).

(** Exceptions raised by the library calls the class makes: by Twisted
    ([AssertionError], [AlreadyCalledError]), by an attribute of [None]
    ([AttributeError]) and by [urlparse] ([UrlValueError] is its
    [ValueError], "Invalid IPv6 URL"). *)
Inductive exn : Type :=
| AssertionError
| AlreadyCalledError
| AttributeError
| UrlValueError.

Module Result.

Record t : Type := mk {
  Started : Z;
  Finished : Z;
  Elapsed : Z;
  Code : pycode;
  Timeout : bool
}.

(** [Result.__init__] *)
Definition init : t :=
  {| Started := 0; Finished := 0; Elapsed := 0; Code := CodeInt 0; Timeout := false |}.

(** [Result.start] *)
Definition start (now : Z) (r : t) : t :=
  {| Started := now; Finished := Finished r; Elapsed := Elapsed r;
     Code := Code r; Timeout := Timeout r |}.

(** [Result.done], with its optional third argument *)
Definition done (code : pycode) (timed_out : bool) (now : Z) (r : t) : t :=
  {| Started := Started r; Finished := now; Elapsed := now - Started r;
     Code := code; Timeout := timed_out |}.

(** The default of [timed_out] in the signature of [done]. *)
Definition timed_out_default : bool := false.

End Result.

(** [twisted.web.http_headers.Headers]: header name to list of raw values. *)
Definition headers : Type := list (string * list pystr).

(** One call [agent.request(method, url, headers, body)] as the transport
    sees it. *)
Record Request : Type := mkRequest {
  rqAgent : nat;
  rqMethod : string;
  rqUrl : string;
  rqHeaders : headers;
  rqBody : option string
}.

(** The deferred returned by [agent.request], with the extra arguments
    [(result, agent)] that [_makeRequests] binds to its callback and
    errback. *)
Record Deferred : Type := mkDeferred {
  dfResult : nat;
  dfAgent : nat;
  dfCalled : bool
}.

(** [defer.DeferredList]: the deferreds of its list that have not fired
    yet.  It fires when none is left. *)
Record DeferredList : Type := mkDeferredList {
  dlPending : list nat
}.

(** The [IDelayedCall] returned by [reactor.callLater]. *)
Record DelayedCall : Type := mkDelayedCall {
  dcDelay : Z;
  dcCalled : bool;
  dcCancelled : bool
}.

Definition active (dc : DelayedCall) : bool :=
  negb (dcCalled dc || dcCancelled dc).

Definition cancel (dc : DelayedCall) : DelayedCall :=
  {| dcDelay := dcDelay dc; dcCalled := dcCalled dc; dcCancelled := true |}.

Definition called (dc : DelayedCall) : DelayedCall :=
  {| dcDelay := dcDelay dc; dcCalled := true; dcCancelled := dcCancelled dc |}.

(** The deferred created by [run]: whether [callback] has been invoked on
    it.  Its value is the list object [self.Results] itself. *)
Record RunDeferredState : Type := mkRunDeferred {
  rdCalled : bool
}.

(** The attributes of [Bench], followed by the Twisted objects it holds
    references to. *)
Record Bench : Type := mkBench {
  Requests : Z;
  Concurrency : Z;
  Timelimit : option Z;
  Headers : headers;
  Url : string;
  Agents : list nat;
  Results : list Result.t;
  ActiveQueries : gmap nat nat;
  QueriesMade : Z;
  StopCall : option DelayedCall;
  RunDeferred : option RunDeferredState;
  Stopped : bool;
  (* transport and reactor *)
  Sent : list Request;
  Deferreds : list Deferred;
  DrainLists : list DeferredList;
  Unhandled : list exn
}.

(** Attribute assignment. *)
Definition set_Requests (v : Z) (b : Bench) : Bench :=
  mkBench v (Concurrency b) (Timelimit b) (Headers b) (Url b) (Agents b)
    (Results b) (ActiveQueries b) (QueriesMade b) (StopCall b) (RunDeferred b)
    (Stopped b) (Sent b) (Deferreds b) (DrainLists b) (Unhandled b).

Definition set_Results (v : list Result.t) (b : Bench) : Bench :=
  mkBench (Requests b) (Concurrency b) (Timelimit b) (Headers b) (Url b) (Agents b)
    v (ActiveQueries b) (QueriesMade b) (StopCall b) (RunDeferred b)
    (Stopped b) (Sent b) (Deferreds b) (DrainLists b) (Unhandled b).

Definition set_ActiveQueries (v : gmap nat nat) (b : Bench) : Bench :=
  mkBench (Requests b) (Concurrency b) (Timelimit b) (Headers b) (Url b) (Agents b)
    (Results b) v (QueriesMade b) (StopCall b) (RunDeferred b)
    (Stopped b) (Sent b) (Deferreds b) (DrainLists b) (Unhandled b).

Definition set_QueriesMade (v : Z) (b : Bench) : Bench :=
  mkBench (Requests b) (Concurrency b) (Timelimit b) (Headers b) (Url b) (Agents b)
    (Results b) (ActiveQueries b) v (StopCall b) (RunDeferred b)
    (Stopped b) (Sent b) (Deferreds b) (DrainLists b) (Unhandled b).

Definition set_StopCall (v : option DelayedCall) (b : Bench) : Bench :=
  mkBench (Requests b) (Concurrency b) (Timelimit b) (Headers b) (Url b) (Agents b)
    (Results b) (ActiveQueries b) (QueriesMade b) v (RunDeferred b)
    (Stopped b) (Sent b) (Deferreds b) (DrainLists b) (Unhandled b).

Definition set_RunDeferred (v : option RunDeferredState) (b : Bench) : Bench :=
  mkBench (Requests b) (Concurrency b) (Timelimit b) (Headers b) (Url b) (Agents b)
    (Results b) (ActiveQueries b) (QueriesMade b) (StopCall b) v
    (Stopped b) (Sent b) (Deferreds b) (DrainLists b) (Unhandled b).

Definition set_Stopped (v : bool) (b : Bench) : Bench :=
  mkBench (Requests b) (Concurrency b) (Timelimit b) (Headers b) (Url b) (Agents b)
    (Results b) (ActiveQueries b) (QueriesMade b) (StopCall b) (RunDeferred b)
    v (Sent b) (Deferreds b) (DrainLists b) (Unhandled b).

Definition set_Sent (v : list Request) (b : Bench) : Bench :=
  mkBench (Requests b) (Concurrency b) (Timelimit b) (Headers b) (Url b) (Agents b)
    (Results b) (ActiveQueries b) (QueriesMade b) (StopCall b) (RunDeferred b)
    (Stopped b) v (Deferreds b) (DrainLists b) (Unhandled b).

Definition set_Deferreds (v : list Deferred) (b : Bench) : Bench :=
  mkBench (Requests b) (Concurrency b) (Timelimit b) (Headers b) (Url b) (Agents b)
    (Results b) (ActiveQueries b) (QueriesMade b) (StopCall b) (RunDeferred b)
    (Stopped b) (Sent b) v (DrainLists b) (Unhandled b).

Definition set_DrainLists (v : list DeferredList) (b : Bench) : Bench :=
  mkBench (Requests b) (Concurrency b) (Timelimit b) (Headers b) (Url b) (Agents b)
    (Results b) (ActiveQueries b) (QueriesMade b) (StopCall b) (RunDeferred b)
    (Stopped b) (Sent b) (Deferreds b) v (Unhandled b).

Definition set_Unhandled (v : list exn) (b : Bench) : Bench :=
  mkBench (Requests b) (Concurrency b) (Timelimit b) (Headers b) (Url b) (Agents b)
    (Results b) (ActiveQueries b) (QueriesMade b) (StopCall b) (RunDeferred b)
    (Stopped b) (Sent b) (Deferreds b) (DrainLists b) v.

(** ** Operations of [Bench] *)

(** [range(concurrency)]: empty when [concurrency <= 0]. *)
Definition range (n : Z) : list nat := seq 0 (Z.to_nat n).

(** [Bench.__init__] *)
Definition Bench_init (requests concurrency : Z) (url : string)
    (timelimit : option Z) (auth : pystr) : Bench :=
  {| Requests := requests;
     Concurrency := concurrency;
     Timelimit := timelimit;
     Headers := [("Authorization"%string, [auth])];
     Url := url;
     Agents := range concurrency;
     Results := [];
     ActiveQueries := ∅;
     QueriesMade := 0;
     StopCall := None;
     RunDeferred := None;
     Stopped := false;
     Sent := [];
     Deferreds := [];
     DrainLists := [];
     Unhandled := [] |}.

(** The default of [auth] in the signature of [Bench.__init__]. *)
Definition Bench_auth_default : pystr := PyStr "".

(** Has the request deferred [d] not fired yet? *)
Definition in_flight (b : Bench) (d : nat) : bool :=
  match Deferreds b !! d with
  | Some df => negb (dfCalled df)
  | None => false
  end.

(** [Bench._done]: [self.RunDeferred.callback(self.Results)].  It runs as a
    callback of a [DeferredList], so what it raises is caught there and left
    as an unhandled failure of that list. *)
Definition _done (b : Bench) : Bench :=
  match RunDeferred b with
  | None => set_Unhandled (Unhandled b ++ [AttributeError]) b
  | Some rd =>
      if rdCalled rd
      then set_Unhandled (Unhandled b ++ [AlreadyCalledError]) b
      else set_RunDeferred (Some (mkRunDeferred true)) b
  end.

(** [self.ActiveQueries.values()], less the deferreds that have fired: what
    a [DeferredList] built from it still waits for. *)
Definition waiting (b : Bench) : list nat :=
  filter (λ d, in_flight b d = true) (map_to_list (ActiveQueries b)).*2.

(** [Bench.stop] *)
Definition stop (b : Bench) : Bench :=
  let b := set_Stopped true b in
  (* dfr = defer.DeferredList(self.ActiveQueries.values()) *)
  let pending := waiting b in
  let b := set_DrainLists (DrainLists b ++ [mkDeferredList pending]) b in
  (* dfr.addBoth(self._done): runs at once when the list has already fired *)
  let b := match pending with [] => _done b | _ :: _ => b end in
  (* disable the stop timer *)
  match StopCall b with
  | Some dc => if active dc then set_StopCall (Some (cancel dc)) b else b
  | None => b
  end.

(** The body of the [for] loop of [Bench._makeRequests], up to and including
    [self.QueriesMade += 1]. *)
Definition issue (now : Z) (agent : nat) (b : Bench) : Bench :=
  (* result = Result(); self.Results.append(result); result.start() *)
  let result := length (Results b) in
  let b := set_Results (Results b ++ [Result.init]) b in
  let b := set_Results (alter (Result.start now) result (Results b)) b in
  (* dfr = agent.request('GET', self.Url, self.Headers, None) *)
  let dfr := length (Deferreds b) in
  let b := set_Sent (Sent b ++ [mkRequest agent "GET" (Url b) (Headers b) None]) b in
  (* dfr.addCallback(self._callback, result, agent); dfr.addErrback(...) *)
  let b := set_Deferreds (Deferreds b ++ [mkDeferred result agent false]) b in
  let b := set_ActiveQueries (<[agent := dfr]> (ActiveQueries b)) b in
  set_QueriesMade (QueriesMade b + 1) b.

(** The whole body: the budget test follows every dispatch, and the loop
    goes on to the next agent whatever its result. *)
Definition dispatch (now : Z) (agent : nat) (b : Bench) : Bench :=
  let b := issue now agent b in
  if Requests b <=? QueriesMade b then stop b else b.

Fixpoint for_agents (now : Z) (agents : list nat) (b : Bench) : Bench :=
  match agents with
  | [] => b
  | agent :: agents => for_agents now agents (dispatch now agent b)
  end.

(** [Bench._makeRequests] *)
Definition _makeRequests (now : Z) (agents : list nat) (b : Bench) : Bench :=
  if Stopped b then b else for_agents now agents b.

(** [result.done(code)] on the [Result] object at index [result]; neither
    caller passes [timed_out]. *)
Definition result_done (code : pycode) (now : Z) (result : nat) (b : Bench) : Bench :=
  set_Results (alter (Result.done code Result.timed_out_default now) result (Results b)) b.

(** [Bench._callback] *)
Definition _callback (now : Z) (response_code : Z) (result agent : nat) (b : Bench) : Bench :=
  let b := result_done (CodeInt response_code) now result b in
  _makeRequests now [agent] b.

(** [Bench._errback] *)
Definition _errback (now : Z) (error : string) (result agent : nat) (b : Bench) : Bench :=
  let b := result_done (CodeFailure error) now result b in
  _makeRequests now [agent] b.

(** What a method call returns: normally, or by raising. *)
Inductive outcome : Type :=
| Ok (b : Bench)
| Raised (e : exn) (b : Bench).

(** Truth value of [self.Timelimit]: [None] and [0] are false. *)
Definition truthy (timelimit : option Z) : bool :=
  match timelimit with
  | Some t => negb (t =? 0)
  | None => false
  end.

(** [reactor.callLater(delay, self.stop)]: the reactor asserts that the
    delay is not negative, and returns the pending call. *)
Definition callLater (delay : Z) : exn + DelayedCall :=
  if delay <? 0 then inl AssertionError else inr (mkDelayedCall delay false false).

(** [urlparse.scheme_chars]: letters, digits, [+], [-] and [.]. *)
Definition scheme_chars (c : Ascii.ascii) : bool :=
  let n := Ascii.nat_of_ascii c in
  (Nat.leb 97 n && Nat.leb n 122) || (Nat.leb 65 n && Nat.leb n 90)
  || (Nat.leb 48 n && Nat.leb n 57)
  || Nat.eqb n 43 || Nat.eqb n 45 || Nat.eqb n 46.

(** [c in s] and [all(p(c) for c in s)] on a string. *)
Fixpoint contains (c : Ascii.ascii) (s : string) : bool :=
  match s with
  | EmptyString => false
  | String c' s => Ascii.eqb c c' || contains c s
  end.

Fixpoint all_chars (p : Ascii.ascii -> bool) (s : string) : bool :=
  match s with
  | EmptyString => true
  | String c s => p c && all_chars p s
  end.

(** [i = url.find(':')]: the text [url[:i]] before the first colon and the
    text [url[i+1:]] after it, when there is a colon. *)
Fixpoint find_colon (url : string) : option (string * string) :=
  match url with
  | EmptyString => None
  | String c url =>
      if Ascii.eqb c ":"%char then Some (EmptyString, url)
      else match find_colon url with
           | Some (before, rest) => Some (String c before, rest)
           | None => None
           end
  end.

(** The text in which [urlsplit] looks for the network location: what
    follows the first colon when the text before it is not empty and made
    of [scheme_chars], the whole url otherwise.  ([urlsplit] also keeps the
    url whole when what follows the colon is a port number; the text then
    does not start with [//], with its scheme or without it, and the
    network location is empty in both readings.) *)
Definition after_scheme (url : string) : string :=
  match find_colon url with
  | Some (String c before, rest) =>
      if all_chars scheme_chars (String c before) then rest else url
  | _ => url
  end.

(** [_splitnetloc(url, 2)]: the text from position 2 up to the first of
    [/], [?] and [#]. *)
Fixpoint up_to_delim (s : string) : string :=
  match s with
  | EmptyString => EmptyString
  | String c s =>
      if Ascii.eqb c "/"%char || Ascii.eqb c "?"%char || Ascii.eqb c "#"%char
      then EmptyString
      else String c (up_to_delim s)
  end.

(** The network location that [urlsplit] finds, before it checks it: empty
    unless the text starts with [//]. *)
Definition netloc (url : string) : string :=
  match after_scheme url with
  | String "/"%char (String "/"%char s) => up_to_delim s
  | _ => EmptyString
  end.

(** [parseURL(url)], for what it raises: [urlparse] raises [ValueError]
    ("Invalid IPv6 URL") on a network location that has one of the two
    square brackets without the other, and nothing else.  (The program is
    Python 2; [urllib.parse] of Python 3 also wants a letter at the head of
    a scheme and an IP literal between the brackets.)  The domain that
    [parseURL] returns otherwise is only printed. *)
Definition parseURL (url : string) : option exn :=
  let n := netloc url in
  if (contains "["%char n && negb (contains "]"%char n))
     || (contains "]"%char n && negb (contains "["%char n))
  then Some UrlValueError
  else None.

(** [Bench.run]: nothing is assigned before [parseURL] has returned. *)
Definition run (now : Z) (b : Bench) : outcome :=
  (* print "Benchmarking %s"%(parseURL(self.Url)) *)
  match parseURL (Url b) with
  | Some e => Raised e b
  | None =>
      let b := set_RunDeferred (Some (mkRunDeferred false)) b in
      if truthy (Timelimit b) then
        let b := set_Requests 5000 b in
        match callLater (default 0 (Timelimit b)) with
        | inl e => Raised e b
        | inr dc => Ok (_makeRequests now (Agents b) (set_StopCall (Some dc) b))
        end
      else Ok (_makeRequests now (Agents b) b)
  end.

(** [run_test], up to the call of [bench.run()]: it passes its own [auth]
    to [Bench] by keyword. *)
Definition run_test (now : Z) (requests concurrency : Z) (url : string)
    (timelimit : option Z) (auth : pystr) : outcome :=
  run now (Bench_init requests concurrency url timelimit auth).

(** The default of [auth] in the signature of [run_test]. *)
Definition run_test_auth_default : pystr := PyNone.

(** [main]: [args.A] is [None] unless [-A] is given ([add_argument] without
    a default); the url gets its scheme; the options go to [run_test]. *)
Definition args_A (A : option string) : pystr :=
  match A with
  | Some s => PyStr s
  | None => PyNone
  end.

Definition args_url (url : string) : string :=
  if String.prefix "http://" url then url else ("http://" ++ url)%string.

Definition main (now : Z) (n c : Z) (url : string) (t : option Z) (A : option string)
    : outcome :=
  run_test now n c (args_url url) t (args_A A).

(** ** The reactor *)

(** One reactor turn: a request deferred fires with a response or with a
    failure, or the delayed call comes due. *)
Inductive event : Type :=
| Response (d : nat) (code : Z)
| Failed (d : nat) (reason : string)
| Timer.

Definition mark_called (d : nat) (b : Bench) : Bench :=
  set_Deferreds (alter (λ df, mkDeferred (dfResult df) (dfAgent df) true) d (Deferreds b)) b.

(** The callbacks that the drain lists added to deferred [d], in the order
    the lists were created: each list waiting for [d] records it, and fires
    [_done] if it was the last one it waited for. *)
Fixpoint fire_lists (d : nat) (dls : list DeferredList) (b : Bench)
    : list DeferredList * Bench :=
  match dls with
  | [] => ([], b)
  | dl :: dls =>
      let rest := filter (λ x, x ≠ d) (dlPending dl) in
      let b := if bool_decide (d ∈ dlPending dl) && bool_decide (rest = [])
               then _done b else b in
      let '(dls', b') := fire_lists d dls b in
      (mkDeferredList rest :: dls', b')
  end.

Definition notify (d : nat) (b : Bench) : Bench :=
  let '(dls, b') := fire_lists d (DrainLists b) b in
  set_DrainLists dls b'.

(** A turn of the reactor; [None] when the event cannot happen in [b]. *)
Definition fire (now : Z) (e : event) (b : Bench) : option Bench :=
  match e with
  | Response d code =>
      match Deferreds b !! d with
      | Some df =>
          if dfCalled df then None
          else Some (notify d (_callback now code (dfResult df) (dfAgent df) (mark_called d b)))
      | None => None
      end
  | Failed d reason =>
      match Deferreds b !! d with
      | Some df =>
          if dfCalled df then None
          else Some (notify d (_errback now reason (dfResult df) (dfAgent df) (mark_called d b)))
      | None => None
      end
  | Timer =>
      (* the delayed call runs the callable it was given, [self.stop] *)
      match StopCall b with
      | Some dc =>
          if active dc then Some (stop (set_StopCall (Some (called dc)) b)) else None
      | None => None
      end
  end.

(** A sequence of turns, each with its clock reading. *)
Fixpoint fire_all (es : list (Z * event)) (b : Bench) : option Bench :=
  match es with
  | [] => Some b
  | (now, e) :: es =>
      match fire now e b with
      | Some b' => fire_all es b'
      | None => None
      end
  end.

(** Observations. *)
Definition resolved (b : Bench) : bool :=
  match RunDeferred b with
  | Some rd => rdCalled rd
  | None => false
  end.

(** The requests that have been issued and have not completed. *)
Definition occupied (b : Bench) : list nat :=
  filter (λ d, in_flight b d = true) (seq 0 (length (Deferreds b))).


(** The state a method call leaves behind, however it returns. *)
Definition state_of (o : outcome) : Bench :=
  match o with
  | Ok b => b
  | Raised _ b => b
  end.

(** What a [Bench] object in state [b0] can become: its public methods
    [run] and [stop] are called, and the reactor takes turns. *)
Inductive after (b0 : Bench) : Bench -> Prop :=
| after_refl :
    after b0 b0
| after_run now b :
    after b0 b -> after b0 (state_of (run now b))
| after_stop b :
    after b0 b -> after b0 (stop b)
| after_fire now e b b' :
    after b0 b -> fire now e b = Some b' -> after b0 b'.

(** The states of a [Bench] object built by its constructor. *)
Definition reachable (b : Bench) : Prop :=
  exists requests concurrency url timelimit auth,
    after (Bench_init requests concurrency url timelimit auth) b.

(** ** Predicates used in the statements *)

(** [Results] has one entry for each request counted. *)
Definition counted (b : Bench) : Prop :=
  Z.of_nat (length (Results b)) = QueriesMade b.

(** Example runs, used to instantiate the theorems below. *)
Definition scenario (requests concurrency : Z) (timelimit : option Z) : Bench :=
  state_of (run 0 (Bench_init requests concurrency "http://localhost/" timelimit (PyStr ""))).

(** No [Result] is marked as timed out. *)
Definition never_timed_out (b : Bench) : Prop :=
  Forall (fun r => Result.Timeout r = false) (Results b).



(** One [Result] and one deferred per request sent, and the deferred of the
    [k]-th request is bound to the [k]-th [Result]. *)
Definition in_step (b : Bench) : Prop :=
  length (Results b) = length (Sent b)
  /\ length (Deferreds b) = length (Sent b)
  /\ forall k df, Deferreds b !! k = Some df -> dfResult df = k.

(** The bench holds the headers [h] and has sent them with every request. *)
Definition sends_headers (h : headers) (b : Bench) : Prop :=
  Headers b = h /\ Forall (fun rq => rqHeaders rq = h) (Sent b).

(** Every request in flight is the active query of its agent. *)
Definition tracked (b : Bench) : Prop :=
  forall d df, Deferreds b !! d = Some df -> dfCalled df = false ->
               ActiveQueries b !! dfAgent df = Some d.

(** Agent [a] has no request in flight. *)
Definition idle (a : nat) (b : Bench) : Prop :=
  forall d df, Deferreds b !! d = Some df -> dfCalled df = false -> dfAgent df <> a.

(** The two completion handlers differ in the code they record. *)
Definition handler (code : pycode) (now : Z) (result agent : nat) (b : Bench) : Bench :=
  _makeRequests now [agent] (result_done code now result b).

(** Before [stop]: nothing waits for the drain and the budget is not
    reached. *)
Definition steady (b : Bench) : Prop :=
  tracked b /\ Stopped b = false /\ DrainLists b = []
  /\ RunDeferred b = Some (mkRunDeferred false)
  /\ QueriesMade b < Requests b.

(** After [stop]: one drain list waits for exactly the requests in flight,
    the run deferred has its value exactly when that list is empty, and
    the timer is out of the way. *)
Definition draining (b : Bench) : Prop :=
  Stopped b = true
  /\ (exists w, DrainLists b = [mkDeferredList w]
        /\ (forall d, d ∈ w <-> in_flight b d = true)
        /\ RunDeferred b = Some (mkRunDeferred (bool_decide (w = []))))
  /\ (forall dc, StopCall b = Some dc -> active dc = false)
  /\ QueriesMade b <= Requests b
  /\ (StopCall b = None -> QueriesMade b = Requests b).

(** A run in which [stop] is called at most once. *)
Definition orderly (b : Bench) : Prop := steady b \/ draining b.

(** The budget that [run] enforces. *)
Definition budget (requests : Z) (timelimit : option Z) : Z :=
  if truthy timelimit then 5000 else requests.


(** ** The summary of a run *)

(** Exceptions raised by the built-ins that [summary] calls. *)
Inductive summary_exn : Type :=
| ValueError
| ZeroDivisionError.

(** [min(l)] and [max(l)]: [ValueError] on the empty list. *)
Definition py_min (l : list Z) : summary_exn + Z :=
  match l with
  | [] => inl ValueError
  | x :: l => inr (foldl Z.min x l)
  end.

Definition py_max (l : list Z) : summary_exn + Z :=
  match l with
  | [] => inl ValueError
  | x :: l => inr (foldl Z.max x l)
  end.

(** [sum(l)] *)
Definition py_sum (l : list Z) : Z := foldl Z.add 0 l.

(** [x / y] on numbers of which one is a clock reading: true division,
    [ZeroDivisionError] when [y] is zero. *)
Definition py_div (x y : Z) : summary_exn + Q :=
  if y =? 0 then inl ZeroDivisionError else inr (inject_Z x / inject_Z y)%Q.

(** [result.Code != 200] *)
Definition not_200 (c : pycode) : bool :=
  match c with
  | CodeInt code => negb (code =? 200)
  | CodeFailure _ => true
  end.

(** Codes can be told apart. *)
#[global] Instance pycode_eq_dec : EqDecision pycode.
Proof. solve_decision. Defined.

(** The loop [for result in results: if result.Code != 200: errors += 1] *)
Fixpoint count_errors (results : list Result.t) (errors : Z) : Z :=
  match results with
  | [] => errors
  | result :: results =>
      count_errors results (if not_200 (Result.Code result) then errors + 1 else errors)
  end.

(** The numbers that [summary] prints. *)
Record Summary : Type := mkSummary {
  start_time : Z;
  longest : Z;
  avg_time : Q;
  stop_time : Z;
  elapsed_time : Z;
  per_sec : Q;
  errors : Z
}.

(** [summary(results, graph_file, domain, concurrency)] with no graph file,
    up to its last statement, [reactor.stop()]: the numbers it prints when
    it gets there, or the exception that ends it before. *)
Definition summary (results : list Result.t) : summary_exn + Summary :=
  match py_min (Result.Started <$> results) with
  | inl e => inl e
  | inr start_time =>
  match py_max (Result.Elapsed <$> results) with
  | inl e => inl e
  | inr longest =>
  match py_div (py_sum (Result.Elapsed <$> results)) (Z.of_nat (length results)) with
  | inl e => inl e
  | inr avg_time =>
  match py_max (Result.Finished <$> results) with
  | inl e => inl e
  | inr stop_time =>
  let elapsed_time := stop_time - start_time in
  match py_div (Z.of_nat (length results)) elapsed_time with
  | inl e => inl e
  | inr per_sec =>
  let errors := count_errors results 0 in
  inr (mkSummary start_time longest avg_time stop_time elapsed_time per_sec errors)
  end end end end end.

(** ** Clock readings *)

(** The readings of the clock over a sequence of turns never go back from
    the reading [t]. *)
Fixpoint monotone (t : Z) (es : list (Z * event)) : Prop :=
  match es with
  | [] => True
  | (now, _) :: es => t <= now /\ monotone now es
  end.

(** The last reading of the clock. *)
Fixpoint last_reading (t : Z) (es : list (Z * event)) : Z :=
  match es with
  | [] => t
  | (now, _) :: es => last_reading now es
  end.

(** No [Result] was started after [t], and none has a negative [Elapsed]. *)
Definition timed (t : Z) (b : Bench) : Prop :=
  Forall (fun r => Result.Started r <= t /\ 0 <= Result.Elapsed r) (Results b).

(** What a completion event records in the [Result] of its request. *)
Definition completion (e : event) : option (nat * pycode) :=
  match e with
  | Response d code => Some (d, CodeInt code)
  | Failed d reason => Some (d, CodeFailure reason)
  | Timer => None
  end.

(** ** Requests and agents *)

(** Every request sent is a [GET] of [u] without body, with headers [h]. *)
Definition sends (u : string) (h : headers) (b : Bench) : Prop :=
  Url b = u /\ Headers b = h
  /\ Forall (fun rq => rqMethod rq = "GET"%string /\ rqUrl rq = u
                       /\ rqHeaders rq = h /\ rqBody rq = None) (Sent b).

(** The agent of a request deferred. *)
Definition agent_of (b : Bench) (d : nat) : option nat :=
  dfAgent <$> Deferreds b !! d.

(** Every request was sent on one of the [c] agents of the pool. *)
Definition pooled (c : nat) (b : Bench) : Prop :=
  forall d df, Deferreds b !! d = Some df -> (dfAgent df < c)%nat.

(** Every agent of the pool has a request in flight. *)
Definition busy (c : nat) (b : Bench) : Prop :=
  forall a, (a < c)%nat ->
    exists d df, Deferreds b !! d = Some df /\ dfCalled df = false /\ dfAgent df = a.

(** One request in flight per agent at most, all of them on the pool, and
    the whole pool at work until the bench stops. *)
Definition pinned (c : nat) (b : Bench) : Prop :=
  tracked b /\ pooled c b /\ (Stopped b = false -> busy c b).

(** ** Drain lists *)

(** The drain lists wait for requests in flight only, except for [skip];
    there is one as soon as the bench has stopped, none before; the run
    deferred exists, has no value before the bench stops, and has one as
    soon as a drain list waits for nothing. *)
Definition waits (skip : option nat) (b : Bench) : Prop :=
  RunDeferred b <> None
  /\ (Stopped b = false -> DrainLists b = [] /\ resolved b = false)
  /\ (Stopped b = true -> DrainLists b <> [])
  /\ (forall dl d, dl ∈ DrainLists b -> d ∈ dlPending dl ->
        in_flight b d = true \/ skip = Some d)
  /\ (forall dl, dl ∈ DrainLists b -> dlPending dl = [] -> resolved b = true).

(** ** Outcomes and scheduling *)

(** A [Result] without its outcome. *)
Definition blank_code (r : Result.t) : Result.t :=
  Result.mk (Result.Started r) (Result.Finished r) (Result.Elapsed r) (CodeInt 0)
            (Result.Timeout r).

(** A bench without the outcomes of its requests. *)
Definition blank (b : Bench) : Bench :=
  set_Results (blank_code <$> Results b) b.

(** Two benches that differ in the outcomes of their requests at most. *)
Definition same_schedule (b1 b2 : Bench) : Prop := blank b1 = blank b2.

(** Two turns at the same clock reading that complete the same request,
    with any outcome each, or that are both the timer's. *)
Definition same_turn (e1 e2 : Z * event) : Prop :=
  e1.1 = e2.1 /\ fst <$> completion e1.2 = fst <$> completion e2.2.

(** The request [k] has completed, with [r] as its [Result]. *)
Definition completed_with (k : nat) (r : Result.t) (b : Bench) : Prop :=
  in_flight b k = false /\ Results b !! k = Some r.

(** Operations that neither read nor write [Results]. *)
Definition blind (g : Bench -> Bench) : Prop :=
  forall rs b, g (set_Results rs b) = set_Results rs (g b).

(** A run in which [_done] has raised nothing. *)
Definition calm (b : Bench) : Prop := orderly b /\ Unhandled b = [].

(** * Properties *)

(** One turn of the dispatch loop.  The right-hand side is given to the
    proof with [for_agents] unfolded, which spares the type checker from
    comparing two copies of the state after the dispatch. *)
Lemma for_agents_cons now a agents b :
  for_agents now (a :: agents) b = for_agents now agents (dispatch now a b).
Proof.
  exact (@eq_refl Bench
           ltac:(let t := eval cbv delta [for_agents] in
                            (for_agents now agents (dispatch now a b)) in exact t)).
Qed.

(** ** What [run] raises *)

(** [urlparse] raises nothing but [ValueError]. *)
Lemma parseURL_raises url e : parseURL url = Some e -> e = UrlValueError.
Proof. unfold parseURL. case_match; congruence. Qed.

(** The call of [parseURL] comes first: when it raises, [run] has changed
    nothing. *)
Lemma run_rejects_url now b e :
  parseURL (Url b) = Some e -> run now b = Raised e b.
Proof. intros H. unfold run. rewrite H. reflexivity. Qed.

(** [run] on a url that [urlparse] accepts. *)
Lemma run_parsed now b :
  parseURL (Url b) = None ->
  run now b =
  let b := set_RunDeferred (Some (mkRunDeferred false)) b in
  if truthy (Timelimit b) then
    let b := set_Requests 5000 b in
    match callLater (default 0 (Timelimit b)) with
    | inl e => Raised e b
    | inr dc => Ok (_makeRequests now (Agents b) (set_StopCall (Some dc) b))
    end
  else Ok (_makeRequests now (Agents b) b).
Proof. intros H. unfold run. rewrite H. reflexivity. Qed.

Lemma run_Ok_parsed now b b' : run now b = Ok b' -> parseURL (Url b) = None.
Proof. unfold run. destruct (parseURL (Url b)); [discriminate | reflexivity]. Qed.

(** A call of [run] that has returned got past [parseURL]. *)
Ltac run_returned H :=
  let Hp := fresh "Hp" in
  pose proof (run_Ok_parsed _ _ _ H) as Hp;
  rewrite (run_parsed _ _ Hp) in H; cbv zeta in H.

(** ** Invariants of the reachable states

    A property of the state that ignores the control attributes and is kept
    by the three elementary updates (issuing a request, completing a
    [Result], marking a deferred as fired) is kept by every method and every
    reactor turn. *)
Section Preservation.

Variable P : Bench -> Prop.

Hypothesis P_Stopped : forall v b, P b -> P (set_Stopped v b).
Hypothesis P_DrainLists : forall v b, P b -> P (set_DrainLists v b).
Hypothesis P_Unhandled : forall v b, P b -> P (set_Unhandled v b).
Hypothesis P_RunDeferred : forall v b, P b -> P (set_RunDeferred v b).
Hypothesis P_StopCall : forall v b, P b -> P (set_StopCall v b).
Hypothesis P_budget : forall b, P b -> P (set_Requests 5000 b).
Hypothesis P_issue : forall now agent b, P b -> P (issue now agent b).
Hypothesis P_result_done : forall code now result b, P b -> P (result_done code now result b).
Hypothesis P_mark_called : forall d b, P b -> P (mark_called d b).

Lemma preserved_done b : P b -> P (_done b).
Proof using P_Unhandled P_RunDeferred.
  intros H. unfold _done. repeat case_match; auto.
Qed.

Lemma preserved_stop b : P b -> P (stop b).
Proof using P_Stopped P_DrainLists P_Unhandled P_RunDeferred P_StopCall.
  intros H. unfold stop.
  repeat case_match; auto using preserved_done.
Qed.

Lemma preserved_dispatch now agent b : P b -> P (dispatch now agent b).
Proof using P_Stopped P_DrainLists P_Unhandled P_RunDeferred P_StopCall P_issue.
  intros H. unfold dispatch. case_match; auto using preserved_stop.
Qed.

Lemma preserved_for_agents now agents b : P b -> P (for_agents now agents b).
Proof using P_Stopped P_DrainLists P_Unhandled P_RunDeferred P_StopCall P_issue.
  revert b. induction agents as [|a agents IH]; intros b H; [done|].
  rewrite for_agents_cons. apply IH, preserved_dispatch, H.
Qed.

Lemma preserved_makeRequests now agents b : P b -> P (_makeRequests now agents b).
Proof using P_Stopped P_DrainLists P_Unhandled P_RunDeferred P_StopCall P_issue.
  intros H. unfold _makeRequests. case_match; auto using preserved_for_agents.
Qed.

Lemma preserved_callback now code result agent b :
  P b -> P (_callback now code result agent b).
Proof using P_Stopped P_DrainLists P_Unhandled P_RunDeferred P_StopCall P_issue
            P_result_done.
  intros H. apply preserved_makeRequests, P_result_done, H.
Qed.

Lemma preserved_errback now error result agent b :
  P b -> P (_errback now error result agent b).
Proof using P_Stopped P_DrainLists P_Unhandled P_RunDeferred P_StopCall P_issue
            P_result_done.
  intros H. apply preserved_makeRequests, P_result_done, H.
Qed.

Lemma preserved_fire_lists d dls b : P b -> P (fire_lists d dls b).2.
Proof using P_Unhandled P_RunDeferred.
  revert b. induction dls as [|dl dls IH]; intros b H; simpl; [done|].
  match goal with |- context [fire_lists d dls ?x] => set (b1 := x) end.
  assert (H1 : P b1) by (subst b1; case_match; auto using preserved_done).
  specialize (IH b1 H1). destruct (fire_lists d dls b1); exact IH.
Qed.

Lemma preserved_notify d b : P b -> P (notify d b).
Proof using P_DrainLists P_Unhandled P_RunDeferred.
  intros H. unfold notify.
  pose proof (preserved_fire_lists d (DrainLists b) b H) as H'.
  destruct (fire_lists d (DrainLists b) b); auto.
Qed.

Lemma preserved_fire now e b b' : P b -> fire now e b = Some b' -> P b'.
Proof using All.
  intros H Hf. destruct e; simpl in Hf; repeat case_match; simplify_eq.
  - apply preserved_notify, preserved_callback, P_mark_called, H.
  - apply preserved_notify, preserved_errback, P_mark_called, H.
  - apply preserved_stop, P_StopCall, H.
Qed.

Lemma preserved_run now b : P b -> P (state_of (run now b)).
Proof using All.
  intros H. unfold run.
  repeat case_match; simpl; auto using preserved_makeRequests.
Qed.

Lemma preserved_after b0 b : P b0 -> after b0 b -> P b.
Proof using All.
  intros H0. induction 1; eauto using preserved_run, preserved_stop, preserved_fire.
Qed.

Hypothesis P_init : forall requests concurrency url timelimit auth,
  P (Bench_init requests concurrency url timelimit auth).

Lemma invariant_reachable b : reachable b -> P b.
Proof using All.
  intros (requests & concurrency & url & timelimit & auth & H).
  eapply preserved_after; [apply P_init | exact H].
Qed.

End Preservation.

(** ** Results and the dispatch counter *)

Lemma issue_Results_length now agent b :
  length (Results (issue now agent b)) = S (length (Results b)).
Proof. simpl. rewrite length_alter, length_app. simpl. lia. Qed.

Lemma issue_QueriesMade now agent b :
  QueriesMade (issue now agent b) = QueriesMade b + 1.
Proof. reflexivity. Qed.

Lemma result_done_Results_length code now result b :
  length (Results (result_done code now result b)) = length (Results b).
Proof. simpl. apply length_alter. Qed.

Lemma done_Results b : Results (_done b) = Results b.
Proof. unfold _done. repeat case_match; reflexivity. Qed.

Lemma done_QueriesMade b : QueriesMade (_done b) = QueriesMade b.
Proof. unfold _done. repeat case_match; reflexivity. Qed.

Lemma stop_Results b : Results (stop b) = Results b.
Proof. unfold stop. repeat case_match; simpl; rewrite ?done_Results; reflexivity. Qed.

Lemma stop_QueriesMade b : QueriesMade (stop b) = QueriesMade b.
Proof. unfold stop. repeat case_match; simpl; rewrite ?done_QueriesMade; reflexivity. Qed.

Lemma dispatch_Results_length now agent b :
  length (Results (dispatch now agent b)) = S (length (Results b)).
Proof.
  unfold dispatch. case_match; rewrite ?stop_Results; apply issue_Results_length.
Qed.

Lemma dispatch_QueriesMade now agent b :
  QueriesMade (dispatch now agent b) = QueriesMade b + 1.
Proof.
  unfold dispatch. case_match; rewrite ?stop_QueriesMade; apply issue_QueriesMade.
Qed.

Lemma counted_reachable b : reachable b -> counted b.
Proof.
  apply invariant_reachable; unfold counted; try done.
  - intros now agent b0 H. rewrite issue_Results_length, issue_QueriesMade. lia.
  - intros code now result b0 H. rewrite result_done_Results_length. exact H.
Qed.

Lemma makeRequests_one now agent b :
  _makeRequests now [agent] b = if Stopped b then b else dispatch now agent b.
Proof. reflexivity. Qed.

Lemma callback_counts now code result agent b :
  let k := if Stopped b then 0%nat else 1%nat in
  length (Results (_callback now code result agent b)) = (length (Results b) + k)%nat
  /\ QueriesMade (_callback now code result agent b) = QueriesMade b + Z.of_nat k.
Proof.
  unfold _callback. rewrite makeRequests_one.
  change (Stopped (result_done (CodeInt code) now result b)) with (Stopped b).
  destruct (Stopped b); simpl length; simpl QueriesMade.
  - rewrite length_alter. split; lia.
  - rewrite dispatch_Results_length, dispatch_QueriesMade, result_done_Results_length.
    simpl. split; lia.
Qed.

Lemma errback_counts now error result agent b :
  let k := if Stopped b then 0%nat else 1%nat in
  length (Results (_errback now error result agent b)) = (length (Results b) + k)%nat
  /\ QueriesMade (_errback now error result agent b) = QueriesMade b + Z.of_nat k.
Proof.
  unfold _errback. rewrite makeRequests_one.
  change (Stopped (result_done (CodeFailure error) now result b)) with (Stopped b).
  destruct (Stopped b); simpl length; simpl QueriesMade.
  - rewrite length_alter. split; lia.
  - rewrite dispatch_Results_length, dispatch_QueriesMade, result_done_Results_length.
    simpl. split; lia.
Qed.

Lemma after_reachable b0 b : reachable b0 -> after b0 b -> reachable b.
Proof.
  intros (requests & concurrency & url & timelimit & auth & H0) H.
  exists requests, concurrency, url, timelimit, auth.
  induction H; eauto using after.
Defined.

Lemma init_reachable requests concurrency url timelimit auth :
  reachable (Bench_init requests concurrency url timelimit auth).
Proof. exists requests, concurrency, url, timelimit, auth. apply after_refl. Defined.

Lemma scenario_reachable requests concurrency timelimit :
  reachable (scenario requests concurrency timelimit).
Proof.
  eapply after_reachable; [apply init_reachable|]. apply after_run, after_refl.
Defined.

Lemma after_fire_all es b0 b b' :
  after b0 b -> fire_all es b = Some b' -> after b0 b'.
Proof.
  revert b. induction es as [|[now e] es IH]; intros b Hb Hf; simpl in Hf.
  - injection Hf as <-. exact Hb.
  - destruct (fire now e b) as [b1|] eqn:E; [|discriminate].
    eapply IH; [|exact Hf]. eapply after_fire; eauto.
Defined.

(** C9. In every state a [Bench] can reach, the length of [Results] equals
    [QueriesMade].  One pass through the body of the dispatch loop appends
    exactly one [Result] and adds exactly one to [QueriesMade]; completing a
    [Result], [stop] and [_done] change neither; a completion handler
    changes both by the one dispatch it performs, or neither when the bench
    is stopped. *)
Theorem results_length_is_QueriesMade (b : Bench) :
  reachable b ->
  Z.of_nat (length (Results b)) = QueriesMade b
  /\ (forall now agent,
        length (Results (dispatch now agent b)) = S (length (Results b))
        /\ QueriesMade (dispatch now agent b) = QueriesMade b + 1)
  /\ (forall code now result,
        length (Results (result_done code now result b)) = length (Results b)
        /\ QueriesMade (result_done code now result b) = QueriesMade b)
  /\ (Results (stop b) = Results b /\ QueriesMade (stop b) = QueriesMade b)
  /\ (Results (_done b) = Results b /\ QueriesMade (_done b) = QueriesMade b)
  /\ (forall now code result agent,
        let k := if Stopped b then 0%nat else 1%nat in
        length (Results (_callback now code result agent b)) = (length (Results b) + k)%nat
        /\ QueriesMade (_callback now code result agent b) = QueriesMade b + Z.of_nat k)
  /\ (forall now error result agent,
        let k := if Stopped b then 0%nat else 1%nat in
        length (Results (_errback now error result agent b)) = (length (Results b) + k)%nat
        /\ QueriesMade (_errback now error result agent b) = QueriesMade b + Z.of_nat k).
Proof.
  intros Hb. split; [exact (counted_reachable b Hb)|].
  split; [intros; split; [apply dispatch_Results_length | apply dispatch_QueriesMade]|].
  split; [intros; split; [apply result_done_Results_length | reflexivity]|].
  split; [split; [apply stop_Results | apply stop_QueriesMade]|].
  split; [split; [apply done_Results | apply done_QueriesMade]|].
  split; [intros; apply callback_counts | intros; apply errback_counts].
Qed.

Lemma results_length_is_QueriesMade_witness :
  reachable (scenario 10 3 None)
  /\ Z.of_nat (length (Results (scenario 10 3 None))) = QueriesMade (scenario 10 3 None).
Proof.
  split; [apply scenario_reachable|].
  exact (proj1 (results_length_is_QueriesMade (scenario 10 3 None)
                  (scenario_reachable 10 3 None))).
Defined.

(** ** The [Timeout] flag *)

Lemma never_timed_out_issue now agent b :
  never_timed_out b -> never_timed_out (issue now agent b).
Proof.
  unfold never_timed_out. intros H. simpl.
  apply Forall_alter; [|intros x _ Hx; exact Hx].
  apply Forall_app. split; [exact H|]. repeat constructor.
Qed.

Lemma never_timed_out_result_done code now result b :
  never_timed_out b -> never_timed_out (result_done code now result b).
Proof.
  unfold never_timed_out. intros H. simpl.
  apply Forall_alter; [exact H|]. intros x _ _. reflexivity.
Qed.

Lemma never_timed_out_reachable b : reachable b -> never_timed_out b.
Proof.
  apply invariant_reachable;
    auto using never_timed_out_issue, never_timed_out_result_done.
  intros. constructor.
Qed.

(** C10. The [Timeout] flag of every [Result] is [False] in every state a
    [Bench] can reach, and stays so through the success handler and through
    the failure handler: both call [Result.done] without its [timed_out]
    argument, whose default is [False]. *)
Theorem Timeout_stays_False (b : Bench) :
  reachable b ->
  Forall (fun r => Result.Timeout r = false) (Results b)
  /\ (forall now code result agent,
        Forall (fun r => Result.Timeout r = false)
               (Results (_callback now code result agent b)))
  /\ (forall now error result agent,
        Forall (fun r => Result.Timeout r = false)
               (Results (_errback now error result agent b)))
  /\ Result.timed_out_default = false.
Proof.
  intros Hb.
  pose proof (never_timed_out_reachable b Hb) as H0.
  split; [exact H0|].
  split; [|split; [|reflexivity]]; intros.
  - revert H0. apply (preserved_callback never_timed_out);
      auto using never_timed_out_issue, never_timed_out_result_done.
  - revert H0. apply (preserved_errback never_timed_out);
      auto using never_timed_out_issue, never_timed_out_result_done.
Qed.

Lemma Timeout_stays_False_witness :
  reachable (scenario 5 1 None)
  /\ Forall (fun r => Result.Timeout r = false) (Results (scenario 5 1 None)).
Proof.
  split; [apply scenario_reachable|].
  exact (proj1 (Timeout_stays_False (scenario 5 1 None) (scenario_reachable 5 1 None))).
Defined.

(** ** The deadline timer *)

Lemma done_StopCall b : StopCall (_done b) = StopCall b.
Proof. unfold _done. repeat case_match; reflexivity. Qed.

Lemma done_Stopped b : Stopped (_done b) = Stopped b.
Proof. unfold _done. repeat case_match; reflexivity. Qed.

Lemma done_Requests b : Requests (_done b) = Requests b.
Proof. unfold _done. repeat case_match; reflexivity. Qed.

Lemma stop_Stopped b : Stopped (stop b) = true.
Proof. unfold stop. repeat case_match; simpl; rewrite ?done_Stopped; reflexivity. Qed.

Lemma stop_Requests b : Requests (stop b) = Requests b.
Proof. unfold stop. repeat case_match; simpl; rewrite ?done_Requests; reflexivity. Qed.

Lemma stop_StopCall b :
  StopCall (stop b) =
  match StopCall b with
  | Some dc => if active dc then Some (cancel dc) else Some dc
  | None => None
  end.
Proof.
  unfold stop.
  set (b1 := match waiting _ with [] => _ | _ :: _ => _ end).
  assert (E : StopCall b1 = StopCall b).
  { subst b1. case_match; simpl; rewrite ?done_StopCall; reflexivity. }
  rewrite E. destruct (StopCall b) as [dc|]; [|exact E].
  destruct (active dc); [reflexivity | exact E].
Qed.




(** ** Calling [stop] again *)

Lemma done_DrainLists b : DrainLists (_done b) = DrainLists b.
Proof. unfold _done. repeat case_match; reflexivity. Qed.

Lemma done_ActiveQueries b : ActiveQueries (_done b) = ActiveQueries b.
Proof. unfold _done. repeat case_match; reflexivity. Qed.

Lemma done_Deferreds b : Deferreds (_done b) = Deferreds b.
Proof. unfold _done. repeat case_match; reflexivity. Qed.

Lemma done_Sent b : Sent (_done b) = Sent b.
Proof. unfold _done. repeat case_match; reflexivity. Qed.

Lemma stop_DrainLists b :
  DrainLists (stop b) = DrainLists b ++ [mkDeferredList (waiting b)].
Proof.
  unfold stop. change (waiting (set_Stopped true b)) with (waiting b).
  generalize (waiting b). intros w.
  repeat case_match; simpl; rewrite ?done_DrainLists; reflexivity.
Qed.

Lemma stop_ActiveQueries b : ActiveQueries (stop b) = ActiveQueries b.
Proof.
  unfold stop. repeat case_match; simpl; rewrite ?done_ActiveQueries; reflexivity.
Qed.

Lemma stop_Deferreds b : Deferreds (stop b) = Deferreds b.
Proof.
  unfold stop. repeat case_match; simpl; rewrite ?done_Deferreds; reflexivity.
Qed.

Lemma stop_Sent b : Sent (stop b) = Sent b.
Proof.
  unfold stop. repeat case_match; simpl; rewrite ?done_Sent; reflexivity.
Qed.



Lemma done_RunDeferred_fresh b :
  RunDeferred b = Some (mkRunDeferred false) ->
  RunDeferred (_done b) = Some (mkRunDeferred true).
Proof. intros H. unfold _done. rewrite H. reflexivity. Qed.

Lemma stop_RunDeferred b :
  RunDeferred (stop b) =
  match waiting b with [] => RunDeferred (_done b) | _ :: _ => RunDeferred b end.
Proof.
  unfold stop. change (waiting (set_Stopped true b)) with (waiting b).
  destruct (waiting b) as [|x w].
  - match goal with |- RunDeferred (match StopCall ?x with _ => _ end) = _ =>
      set (b1 := x) end.
    assert (E : RunDeferred b1 = RunDeferred (_done b)).
    { subst b1. unfold _done. simpl. repeat case_match; reflexivity. }
    repeat case_match; exact E.
  - repeat case_match; reflexivity.
Qed.

Lemma waiting_empty b : ActiveQueries b = ∅ -> waiting b = [].
Proof. intros H. unfold waiting. rewrite H, map_to_list_empty. reflexivity. Qed.




(** ** The requests sent *)

Lemma done_Headers b : Headers (_done b) = Headers b.
Proof. unfold _done. repeat case_match; reflexivity. Qed.

Lemma stop_Headers b : Headers (stop b) = Headers b.
Proof. unfold stop. repeat case_match; simpl; rewrite ?done_Headers; reflexivity. Qed.

Lemma dispatch_Sent now agent b :
  Sent (dispatch now agent b) = Sent b ++ [mkRequest agent "GET" (Url b) (Headers b) None].
Proof. unfold dispatch. case_match; rewrite ?stop_Sent; reflexivity. Qed.

(** The loop sends one request for each agent of its list. *)
Lemma for_agents_Sent_length now agents b :
  length (Sent (for_agents now agents b)) = (length (Sent b) + length agents)%nat.
Proof.
  revert b. induction agents as [|a agents IH]; intros b; [cbn [for_agents length]; lia|].
  rewrite for_agents_cons, IH, dispatch_Sent, length_app. cbn [length]. lia.
Qed.

Lemma range_length n : length (range n) = Z.to_nat n.
Proof. apply length_seq. Qed.

(** The first call of [_makeRequests], from [run], on a new bench. *)
Lemma fan_out_Sent_length now b :
  Stopped b = false -> Sent b = [] ->
  length (Sent (_makeRequests now (Agents b) b)) = length (Agents b).
Proof.
  intros HS HE. unfold _makeRequests. rewrite HS, for_agents_Sent_length, HE.
  reflexivity.
Qed.

Lemma run_init_Ok now requests concurrency url timelimit auth :
  parseURL url = None ->
  (forall t, timelimit = Some t -> 0 <= t) ->
  exists b0,
    run now (Bench_init requests concurrency url timelimit auth)
    = Ok (_makeRequests now (range concurrency) b0)
    /\ Stopped b0 = false /\ Sent b0 = [] /\ Deferreds b0 = []
    /\ RunDeferred b0 = Some (mkRunDeferred false)
    /\ Agents b0 = range concurrency
    /\ (truthy timelimit = false -> StopCall b0 = None)
    /\ ActiveQueries b0 = ∅ /\ Results b0 = [].
Proof.
  intros Hp Ht. rewrite run_parsed by exact Hp. cbv zeta. simpl Timelimit.
  destruct (truthy timelimit) eqn:E.
  - destruct timelimit as [t|]; [|discriminate E].
    specialize (Ht t eq_refl). unfold callLater. simpl default.
    destruct (Z.ltb_spec t 0) as [?|_]; [lia|].
    eexists. split; [reflexivity|]. repeat split; try reflexivity. discriminate.
  - eexists. split; [reflexivity|]. repeat split; reflexivity.
Qed.

(** What [run] raises on a new bench: [ValueError] from [urlparse], or the
    reactor's [AssertionError] on a negative time limit.  Nothing has been
    sent then. *)
Lemma run_init_Raised now requests concurrency url timelimit auth e b :
  run now (Bench_init requests concurrency url timelimit auth) = Raised e b ->
  Sent b = []
  /\ ((e = UrlValueError /\ parseURL url = Some UrlValueError)
      \/ (e = AssertionError /\ parseURL url = None
          /\ exists t, timelimit = Some t /\ t < 0)).
Proof.
  unfold run. simpl Url. destruct (parseURL url) as [e'|] eqn:Hp.
  - intros [= <- <-]. rewrite (parseURL_raises url e' Hp). auto.
  - simpl Timelimit. destruct (truthy timelimit) eqn:E; [|discriminate].
    destruct timelimit as [t|]; [|discriminate E].
    unfold callLater. simpl default. destruct (Z.ltb_spec t 0) as [Hlt|_]; [|discriminate].
    intros [= <- <-]. split; [reflexivity|]. right. eauto.
Qed.

(** No event can happen in a state without request deferreds and without
    timer. *)
Lemma fire_all_idle es b b' :
  Deferreds b = [] -> StopCall b = None -> fire_all es b = Some b' -> b' = b.
Proof.
  intros HD HS. destruct es as [|[now e] es]; simpl; [congruence|].
  destruct e; simpl; rewrite ?HD, ?HS; simpl; discriminate.
Qed.

(** C5, as the code has it.  [run] checks neither [concurrency] nor
    [requests].  What it raises depends on the url and on the time limit
    only: [ValueError] when [urlparse] rejects the url, before anything is
    assigned, and the reactor's [AssertionError] on a negative time limit;
    no request has been sent in either case.  On any other input it returns
    normally, whatever [concurrency] and [requests] are.  With
    [concurrency < 1] the pool of agents is empty: the run starts, sends
    nothing and does not stop; without a time limit no turn of the reactor
    can happen any more, so its deferred has no value until [stop] is
    called from outside, which gives it the empty list at once.  With
    [concurrency >= 1] at least one request is sent, whatever [requests]
    is. *)
Theorem run_without_configuration_check
    (now requests concurrency : Z) (url : string) (timelimit : option Z) (auth : pystr) :
  (parseURL url = Some UrlValueError ->
     run now (Bench_init requests concurrency url timelimit auth)
     = Raised UrlValueError (Bench_init requests concurrency url timelimit auth))
  /\ (parseURL url = None -> forall t, timelimit = Some t -> t < 0 ->
        exists b,
          run now (Bench_init requests concurrency url timelimit auth)
          = Raised AssertionError b
          /\ Sent b = [])
  /\ (parseURL url = None -> (forall t, timelimit = Some t -> 0 <= t) ->
        exists b,
          run now (Bench_init requests concurrency url timelimit auth) = Ok b
          /\ (concurrency < 1 ->
                Sent b = [] /\ Stopped b = false /\ resolved b = false
                /\ (truthy timelimit = false ->
                      (forall es b', fire_all es b = Some b' -> b' = b)
                      /\ resolved (stop b) = true /\ Results (stop b) = []))
          /\ (1 <= concurrency -> (1 <= length (Sent b))%nat)).
Proof.
  split; [|split].
  - intros Hp. apply run_rejects_url. exact Hp.
  - intros Hp t -> Ht. rewrite run_parsed by exact Hp. cbv zeta. simpl Timelimit.
    unfold truthy, callLater. simpl default.
    destruct (Z.eqb_spec t 0) as [?|_]; [lia|]. simpl negb. cbv iota.
    destruct (Z.ltb_spec t 0) as [_|?]; [|lia].
    eexists. split; reflexivity.
  - intros Hp Ht.
    destruct (run_init_Ok now requests concurrency url timelimit auth Hp Ht)
      as (b0 & Hrun & HS & HE & HD & HR & HA & HT & HQ & HRs).
    eexists. split; [exact Hrun|]. split.
    + intros Hc.
      assert (En : range concurrency = []).
      { unfold range. replace (Z.to_nat concurrency) with 0%nat by lia. reflexivity. }
      rewrite En. unfold _makeRequests. rewrite HS. simpl.
      split; [exact HE|]. split; [exact HS|].
      split; [unfold resolved; rewrite HR; reflexivity|].
      intros Hf. split; [intros es b' Hes; eapply fire_all_idle; eauto|].
      split.
      * unfold resolved. rewrite stop_RunDeferred, (waiting_empty b0 HQ).
        rewrite (done_RunDeferred_fresh b0 HR). reflexivity.
      * rewrite stop_Results. exact HRs.
    + intros Hc. rewrite <- HA, fan_out_Sent_length, HA, range_length by assumption. lia.
Qed.

Lemma run_without_configuration_check_witness :
  parseURL "http://localhost/" = None
  /\ (forall t, @None Z = Some t -> 0 <= t)
  /\ exists b,
      run 0 (Bench_init 0 0 "http://localhost/" None (PyStr "")) = Ok b
      /\ Sent b = [] /\ Stopped b = false /\ resolved b = false
      /\ resolved (stop b) = true /\ Results (stop b) = [].
Proof.
  assert (Hp : parseURL "http://localhost/" = None) by reflexivity.
  assert (H : forall t, @None Z = Some t -> 0 <= t) by (intros t E; discriminate E).
  assert (Hc : 0 < 1) by lia.
  split; [exact Hp|]. split; [exact H|].
  destruct (proj2 (proj2 (run_without_configuration_check
                            0 0 0 "http://localhost/" None (PyStr ""))) Hp H)
    as (b & Hrun & H0 & _).
  destruct (H0 Hc) as (H1 & H2 & H3 & H4).
  destruct (H4 eq_refl) as (_ & H5 & H6).
  exists b. auto 10.
Defined.

(** C5, as stated, fails.  With [requests = 0] and with [concurrency = 0]
    the run starts and returns its deferred; with [requests = 0] a request
    is sent. *)
Lemma run_without_configuration_check_counterexample :
  (exists b,
      run 0 (Bench_init 0 1 "http://localhost/" None (PyStr "")) = Ok b
      /\ length (Sent b) = 1%nat /\ QueriesMade b = 1)
  /\ (exists b,
      run 0 (Bench_init 10 0 "http://localhost/" None (PyStr "")) = Ok b
      /\ RunDeferred b = Some (mkRunDeferred false)).
Proof.
  split; eexists; (split; [vm_compute; reflexivity|]); vm_compute; auto.
Qed.

(** [main] on the argument [[]: the url becomes [http://[], which [urlparse]
    rejects, and [run] raises before it has created its deferred. *)
Example main_on_a_malformed_url :
  main 0 100 10 "[" None None
  = Raised UrlValueError (Bench_init 100 10 "http://[" None PyNone).
Proof. reflexivity. Qed.

(** ** The order of [Results] *)

Lemma alter_last {A} (f : A -> A) (l : list A) (x : A) :
  alter f (length l) (l ++ [x]) = l ++ [f x].
Proof. induction l as [|y l IH]; simpl; [reflexivity|]. f_equal. exact IH. Qed.

Lemma issue_Results now agent b :
  Results (issue now agent b) = Results b ++ [Result.start now Result.init].
Proof. simpl. apply alter_last. Qed.

Lemma in_step_issue now agent b : in_step b -> in_step (issue now agent b).
Proof.
  intros (HR & HD & Hk). unfold in_step.
  rewrite issue_Results. simpl. rewrite !length_app. simpl.
  split; [lia|]. split; [lia|].
  intros k df Hl. apply lookup_app_Some in Hl as [Hl|[Hge Hl]]; [eauto|].
  destruct (k - length (Deferreds b))%nat as [|n] eqn:E; simpl in Hl; [|done].
  injection Hl as <-. simpl. lia.
Qed.

Lemma in_step_mark_called d b : in_step b -> in_step (mark_called d b).
Proof.
  intros (HR & HD & Hk). unfold in_step. simpl. rewrite length_alter.
  split; [exact HR|]. split; [exact HD|].
  intros k df Hl. destruct (decide (k = d)) as [->|Hne].
  - rewrite list_lookup_alter_eq in Hl.
    destruct (Deferreds b !! d) as [df0|] eqn:E; [|done].
    injection Hl as <-. simpl. eauto.
  - rewrite list_lookup_alter_ne in Hl by done. eauto.
Qed.

Lemma in_step_result_done code now result b :
  in_step b -> in_step (result_done code now result b).
Proof.
  intros (HR & HD & Hk). unfold in_step. simpl. rewrite length_alter. auto.
Qed.

Lemma in_step_reachable b : reachable b -> in_step b.
Proof.
  apply invariant_reachable;
    auto using in_step_issue, in_step_mark_called, in_step_result_done.
  intros. repeat split. intros k df Hl. done.
Qed.

Lemma makeRequests_one_Results now agent b :
  Results (_makeRequests now [agent] b) =
  Results b ++ (if Stopped b then [] else [Result.start now Result.init]).
Proof.
  rewrite makeRequests_one. destruct (Stopped b); [symmetry; apply app_nil_r|].
  unfold dispatch. case_match; rewrite ?stop_Results; apply issue_Results.
Qed.

Lemma callback_Results now code result agent b :
  Results (_callback now code result agent b) =
  alter (Result.done (CodeInt code) false now) result (Results b)
  ++ (if Stopped b then [] else [Result.start now Result.init]).
Proof. unfold _callback. rewrite makeRequests_one_Results. reflexivity. Qed.

Lemma errback_Results now error result agent b :
  Results (_errback now error result agent b) =
  alter (Result.done (CodeFailure error) false now) result (Results b)
  ++ (if Stopped b then [] else [Result.start now Result.init]).
Proof. unfold _errback. rewrite makeRequests_one_Results. reflexivity. Qed.

(** C6, as the code has it.  [Results] grows only in the dispatch step,
    which appends the new [Result] when its request is issued; one [Result]
    is stored per request sent, and the deferred of the [k]-th request is
    bound to the [k]-th entry, so that the order of [Results] is the order
    of dispatch.  A completion handler appends nothing for the request that
    completed: it overwrites the fields of the entry of that request where
    it stands, and the only entry it may add is the one of the request it
    dispatches next. [stop] leaves the list alone. *)
Theorem Results_in_dispatch_order (b : Bench) :
  reachable b ->
  length (Results b) = length (Sent b)
  /\ (forall k df, Deferreds b !! k = Some df -> dfResult df = k)
  /\ (forall now agent,
        Results (issue now agent b) = Results b ++ [Result.start now Result.init])
  /\ (forall now code result agent,
        Results (_callback now code result agent b) =
        alter (Result.done (CodeInt code) false now) result (Results b)
        ++ (if Stopped b then [] else [Result.start now Result.init]))
  /\ (forall now error result agent,
        Results (_errback now error result agent b) =
        alter (Result.done (CodeFailure error) false now) result (Results b)
        ++ (if Stopped b then [] else [Result.start now Result.init]))
  /\ Results (stop b) = Results b.
Proof.
  intros Hb. destruct (in_step_reachable b Hb) as (HR & HD & Hk).
  split; [exact HR|]. split; [exact Hk|].
  split; [intros; apply issue_Results|].
  split; [intros; apply callback_Results|].
  split; [intros; apply errback_Results|apply stop_Results].
Qed.

Lemma Results_in_dispatch_order_witness :
  reachable (scenario 2 2 None)
  /\ length (Results (scenario 2 2 None)) = length (Sent (scenario 2 2 None)).
Proof.
  split; [apply scenario_reachable|].
  exact (proj1 (Results_in_dispatch_order (scenario 2 2 None)
                  (scenario_reachable 2 2 None))).
Defined.

(** C6, as stated, fails.  Two requests are dispatched at clock readings
    that the fan-out shares; [Results] has its two entries before any
    request completes.  The second request then completes first, with 404,
    and the first one last, with 200: no entry is added, and the entries
    stand in the order of dispatch, not of completion. *)
Lemma Results_in_dispatch_order_counterexample :
  length (Results (scenario 2 2 None)) = 2%nat
  /\ exists b,
      fire_all [(1, Response 1 404); (2, Response 0 200)] (scenario 2 2 None) = Some b
      /\ Results b =
           [Result.mk 0 2 2 (CodeInt 200) false; Result.mk 0 1 1 (CodeInt 404) false].
Proof.
  split; [vm_compute; reflexivity|].
  eexists. split; [vm_compute; reflexivity|]. vm_compute. reflexivity.
Qed.

(** ** After [stop]: no further dispatch *)

Lemma fire_lists_frame d dls b :
  let b' := (fire_lists d dls b).2 in
  Stopped b' = Stopped b /\ Sent b' = Sent b /\ Results b' = Results b
  /\ QueriesMade b' = QueriesMade b /\ Deferreds b' = Deferreds b
  /\ ActiveQueries b' = ActiveQueries b /\ Requests b' = Requests b
  /\ StopCall b' = StopCall b /\ Headers b' = Headers b.
Proof.
  revert b. induction dls as [|dl dls IH]; intros b; simpl; [repeat split|].
  match goal with |- context [fire_lists d dls ?x] => set (b1 := x) end.
  assert (H1 : Stopped b1 = Stopped b /\ Sent b1 = Sent b /\ Results b1 = Results b
               /\ QueriesMade b1 = QueriesMade b /\ Deferreds b1 = Deferreds b
               /\ ActiveQueries b1 = ActiveQueries b /\ Requests b1 = Requests b
               /\ StopCall b1 = StopCall b /\ Headers b1 = Headers b).
  { subst b1. case_match; [|repeat split].
    rewrite done_Stopped, done_Sent, done_Results, done_QueriesMade, done_Deferreds,
      done_ActiveQueries, done_Requests, done_StopCall, done_Headers. repeat split. }
  specialize (IH b1). destruct (fire_lists d dls b1) as [dls' b2]. simpl in *.
  destruct IH as (-> & -> & -> & -> & -> & -> & -> & -> & ->). exact H1.
Qed.

Lemma notify_frame d b :
  Stopped (notify d b) = Stopped b /\ Sent (notify d b) = Sent b
  /\ Results (notify d b) = Results b /\ QueriesMade (notify d b) = QueriesMade b
  /\ Deferreds (notify d b) = Deferreds b
  /\ ActiveQueries (notify d b) = ActiveQueries b /\ Requests (notify d b) = Requests b
  /\ StopCall (notify d b) = StopCall b /\ Headers (notify d b) = Headers b.
Proof.
  unfold notify. pose proof (fire_lists_frame d (DrainLists b) b) as H.
  destruct (fire_lists d (DrainLists b) b) as [dls b']. exact H.
Qed.

(** A reactor turn in a stopped bench sends nothing and leaves the bench
    stopped. *)
Lemma fire_stopped now e b b' :
  Stopped b = true -> fire now e b = Some b' ->
  Stopped b' = true /\ Sent b' = Sent b /\ length (Results b') = length (Results b)
  /\ QueriesMade b' = QueriesMade b.
Proof.
  intros HS Hf. destruct e; simpl in Hf; repeat case_match; simplify_eq.
  - destruct (notify_frame d
               (_callback now code (dfResult d0) (dfAgent d0) (mark_called d b)))
      as (-> & -> & -> & -> & _).
    unfold _callback, _makeRequests. simpl Stopped. rewrite HS. simpl.
    rewrite length_alter. auto.
  - destruct (notify_frame d
               (_errback now reason (dfResult d0) (dfAgent d0) (mark_called d b)))
      as (-> & -> & -> & -> & _).
    unfold _errback, _makeRequests. simpl Stopped. rewrite HS. simpl.
    rewrite length_alter. auto.
  - rewrite stop_Stopped, stop_Sent, stop_Results, stop_QueriesMade. auto.
Qed.

Lemma fire_all_stopped es b b' :
  Stopped b = true -> fire_all es b = Some b' ->
  Stopped b' = true /\ Sent b' = Sent b /\ length (Results b') = length (Results b)
  /\ QueriesMade b' = QueriesMade b.
Proof.
  revert b. induction es as [|[now e] es IH]; intros b HS Hf; simpl in Hf.
  - injection Hf as <-. auto.
  - destruct (fire now e b) as [b1|] eqn:E; [|discriminate].
    destruct (fire_stopped now e b b1 HS E) as (HS1 & <- & <- & <-).
    apply IH; assumption.
Qed.

(** The dispatch loop stops the bench as soon as the budget is reached, and
    goes on. *)
Lemma dispatch_Stopped now agent b :
  Stopped (dispatch now agent b) = Stopped b || (Requests b <=? QueriesMade b + 1).
Proof.
  unfold dispatch. simpl Requests. simpl QueriesMade.
  destruct (Requests b <=? QueriesMade b + 1); [rewrite stop_Stopped|simpl];
    rewrite ?orb_true_r, ?orb_false_r; reflexivity.
Qed.

(** ** The initial fan-out and the budget *)

Lemma Sent_grows n now e b b' :
  (n <= length (Sent b))%nat -> fire now e b = Some b' -> (n <= length (Sent b'))%nat.
Proof.
  apply (preserved_fire (fun b => (n <= length (Sent b))%nat)); try done.
  intros now0 agent b0 H. simpl. rewrite length_app. simpl. lia.
Qed.

Lemma run_reachable now requests concurrency url timelimit auth :
  reachable (state_of (run now (Bench_init requests concurrency url timelimit auth))).
Proof.
  eapply after_reachable; [apply init_reachable|]. apply after_run, after_refl.
Qed.

Lemma fire_all_reachable es b b' :
  reachable b -> fire_all es b = Some b' -> reachable b'.
Proof.
  intros Hb Hf. eapply after_reachable; [exact Hb|].
  eapply after_fire_all; [apply after_refl | exact Hf].
Qed.

(** Without a time limit [run] sends one request on every agent of the
    pool, whatever the budget is, and the bench counts them all. *)
Lemma fan_out_sends_on_every_agent (now requests concurrency : Z) (url : string)
    (auth : pystr) :
  parseURL url = None ->
  let b := state_of (run now (Bench_init requests concurrency url None auth)) in
  run now (Bench_init requests concurrency url None auth) = Ok b
  /\ length (Sent b) = Z.to_nat concurrency
  /\ length (Results b) = Z.to_nat concurrency
  /\ QueriesMade b = Z.max 0 concurrency.
Proof.
  intros Hp b.
  pose proof (run_reachable now requests concurrency url None auth) as Hb.
  fold b in Hb.
  destruct (in_step_reachable b Hb) as (HR & _ & _).
  pose proof (counted_reachable b Hb) as HC. unfold counted in HC.
  assert (Hrun : run now (Bench_init requests concurrency url None auth) = Ok b).
  { subst b. rewrite run_parsed by exact Hp. reflexivity. }
  assert (HS : length (Sent b) = Z.to_nat concurrency).
  { subst b. rewrite run_parsed by exact Hp. simpl.
    rewrite <- range_length. apply (fan_out_Sent_length now); reflexivity. }
  split; [exact Hrun|]. split; [exact HS|]. split; [lia|]. lia.
Qed.

(** C1, on the code.  With [requests = 3] and [concurrency = 5], on a url
    that [urlparse] accepts, [run] sends five requests, one on each of the
    five agents: the budget test calls [stop] after the third, the fourth
    and the fifth, and the loop goes on each time.  [Results] has five
    entries from then on, whatever happens next. *)
Theorem scenario_C_sends_five_requests (now : Z) (url : string) (auth : pystr) :
  parseURL url = None ->
  exists b,
    run now (Bench_init 3 5 url None auth) = Ok b
    /\ rqAgent <$> Sent b = [0; 1; 2; 3; 4]%nat
    /\ QueriesMade b = 5
    /\ length (Results b) = 5%nat
    /\ occupied b = [0; 1; 2; 3; 4]%nat
    /\ length (DrainLists b) = 3%nat
    /\ forall es,
         match fire_all es b with
         | Some b' => length (Sent b') = 5%nat /\ length (Results b') = 5%nat
         | None => True
         end.
Proof.
  intros Hp. eexists. split; [rewrite run_parsed by exact Hp; reflexivity|].
  split; [vm_compute; reflexivity|].
  split; [vm_compute; reflexivity|].
  split; [vm_compute; reflexivity|].
  split; [vm_compute; reflexivity|].
  split; [vm_compute; reflexivity|].
  intros es.
  match goal with |- match fire_all es ?x with _ => _ end => set (b := x) end.
  destruct (fire_all es b) as [b'|] eqn:E; [|exact I].
  assert (HS : Stopped b = true) by (vm_compute; reflexivity).
  destruct (fire_all_stopped es b b' HS E) as (_ & -> & -> & _).
  split; vm_compute; reflexivity.
Qed.

Lemma scenario_C_sends_five_requests_witness :
  parseURL "http://localhost/" = None
  /\ exists b,
       run 0 (Bench_init 3 5 "http://localhost/" None (PyStr "")) = Ok b
       /\ QueriesMade b = 5
       /\ length (Results b) = 5%nat.
Proof.
  assert (Hp : parseURL "http://localhost/" = None) by reflexivity.
  split; [exact Hp|].
  destruct (scenario_C_sends_five_requests 0 "http://localhost/" (PyStr "") Hp)
    as (b & Hrun & _ & HQ & HR & _).
  exists b. auto.
Defined.

(** C4, on the code.  With [requests = 2], [concurrency = 4] and no time
    limit, on a url that [urlparse] accepts, four requests are sent and
    counted, and when the four have completed the run deferred has its
    value and [Results] holds four entries. *)
Theorem budget_of_two_on_four_agents (now : Z) (url : string) (auth : pystr) :
  parseURL url = None ->
  exists b,
    run now (Bench_init 2 4 url None auth) = Ok b
    /\ length (Sent b) = 4%nat
    /\ QueriesMade b = 4
    /\ (forall es,
          match fire_all es b with
          | Some b' => length (Sent b') = 4%nat /\ length (Results b') = 4%nat
          | None => True
          end)
    /\ exists b',
         fire_all [(now, Response 0 200); (now, Response 1 200);
                   (now, Response 2 200); (now, Response 3 200)] b = Some b'
         /\ resolved b' = true /\ occupied b' = [] /\ length (Results b') = 4%nat.
Proof.
  intros Hp.
  destruct (fan_out_sends_on_every_agent now 2 4 url auth Hp) as (Hrun & HS & HR & HQ).
  eexists. split; [exact Hrun|].
  split; [exact HS|]. split; [exact HQ|].
  rewrite run_parsed by exact Hp. split.
  - intros es.
    match goal with |- match fire_all es ?x with _ => _ end => set (b := x) end.
    destruct (fire_all es b) as [b'|] eqn:E; [|exact I].
    assert (HSt : Stopped b = true) by (vm_compute; reflexivity).
    destruct (fire_all_stopped es b b' HSt E) as (_ & -> & -> & _).
    split; vm_compute; reflexivity.
  - eexists. split; [vm_compute; reflexivity|].
    split; [vm_compute; reflexivity|]. split; vm_compute; reflexivity.
Qed.

Lemma budget_of_two_on_four_agents_witness :
  parseURL "http://localhost/" = None
  /\ exists b,
       run 0 (Bench_init 2 4 "http://localhost/" None (PyStr "")) = Ok b
       /\ length (Sent b) = 4%nat
       /\ QueriesMade b = 4.
Proof.
  assert (Hp : parseURL "http://localhost/" = None) by reflexivity.
  split; [exact Hp|].
  destruct (budget_of_two_on_four_agents 0 "http://localhost/" (PyStr "") Hp)
    as (b & Hrun & HS & HQ & _).
  exists b. auto.
Defined.

(** C3, on the code.  With [requests = 1] and [concurrency = 2], on a url
    that [urlparse] accepts, [stop] is called after the first dispatch,
    when only that request is in flight, and again after the second.  When
    the first request completes, the first drain list fires and the run
    deferred gets its value while the second request is still in flight;
    when that one completes, the second drain list fires [_done] on a
    deferred that already has its value. *)
Theorem run_deferred_fires_with_a_request_in_flight (now : Z) (url : string)
    (auth : pystr) :
  parseURL url = None ->
  exists b b1 b2,
    run now (Bench_init 1 2 url None auth) = Ok b
    /\ occupied b = [0; 1]%nat
    /\ DrainLists b = [mkDeferredList [0%nat]; mkDeferredList [1; 0]%nat]
    /\ resolved b = false
    /\ fire now (Response 0 200) b = Some b1
    /\ resolved b1 = true
    /\ occupied b1 = [1%nat]
    /\ fire now (Response 1 200) b1 = Some b2
    /\ occupied b2 = []
    /\ Unhandled b2 = [AlreadyCalledError].
Proof.
  intros Hp. do 3 eexists.
  split; [rewrite run_parsed by exact Hp; reflexivity|].
  split; [vm_compute; reflexivity|].
  split; [vm_compute; reflexivity|].
  split; [vm_compute; reflexivity|].
  split; [vm_compute; reflexivity|].
  split; [vm_compute; reflexivity|].
  split; [vm_compute; reflexivity|].
  split; [vm_compute; reflexivity|].
  split; vm_compute; reflexivity.
Qed.

Lemma run_deferred_fires_with_a_request_in_flight_witness :
  parseURL "http://localhost/" = None
  /\ exists b b1,
       run 0 (Bench_init 1 2 "http://localhost/" None (PyStr "")) = Ok b
       /\ fire 0 (Response 0 200) b = Some b1
       /\ resolved b1 = true
       /\ occupied b1 = [1%nat].
Proof.
  assert (Hp : parseURL "http://localhost/" = None) by reflexivity.
  split; [exact Hp|].
  destruct (run_deferred_fires_with_a_request_in_flight 0 "http://localhost/" (PyStr "") Hp)
    as (b & b1 & b2 & Hrun & _ & _ & _ & Hf & HR & HO & _).
  exists b, b1. auto.
Defined.

(** ** The [Authorization] header *)

Lemma sends_headers_after h b0 b :
  sends_headers h b0 -> after b0 b -> sends_headers h b.
Proof.
  apply (preserved_after (sends_headers h)); unfold sends_headers; try done.
  intros now agent b1 [HH HF]. simpl. split; [exact HH|].
  apply Forall_app. split; [exact HF|]. repeat constructor. exact HH.
Qed.

(** Every request of a bench built with [auth] carries the headers built by
    the constructor: [Authorization] with the single value [auth]. *)
Lemma Authorization_header_sent requests concurrency url timelimit auth b :
  after (Bench_init requests concurrency url timelimit auth) b ->
  Forall (fun rq => rqHeaders rq = [("Authorization"%string, [auth])]) (Sent b).
Proof.
  intros H. eapply sends_headers_after; [|exact H]. split; [reflexivity|constructor].
Qed.

(** C8, on the code.  When [main] is run without [-A], [args.A] is [None];
    [run_test] hands it to [Bench] by keyword, so the default [""] of the
    constructor is not used: the headers of the bench, and of every request
    it sends in the run, have [Authorization: None]. *)
Theorem main_without_A_sends_None (now n c : Z) (url : string) (t : option Z)
    (es : list (Z * event)) :
  let b := state_of (main now n c url t None) in
  Headers b = [("Authorization"%string, [PyNone])]
  /\ Forall (fun rq => rqHeaders rq = [("Authorization"%string, [PyNone])]) (Sent b)
  /\ match fire_all es b with
     | Some b' =>
         Forall (fun rq => rqHeaders rq = [("Authorization"%string, [PyNone])]) (Sent b')
     | None => True
     end
  /\ PyNone <> Bench_auth_default
  /\ run_test_auth_default = PyNone.
Proof.
  intros b.
  assert (Hb : after (Bench_init n c (args_url url) t PyNone) b)
    by (apply after_run, after_refl).
  assert (H0 : sends_headers [("Authorization"%string, [PyNone])]
                 (Bench_init n c (args_url url) t PyNone))
    by (split; [reflexivity | constructor]).
  destruct (sends_headers_after _ _ b H0 Hb) as [HH HF].
  split; [exact HH|]. split; [exact HF|]. split; [|split; [discriminate|reflexivity]].
  destruct (fire_all es b) as [b'|] eqn:E; [|exact I].
  eapply Authorization_header_sent, after_fire_all; [exact Hb | exact E].
Qed.

(** ** Runs whose pool is no larger than the budget

    When [concurrency] does not exceed the budget, the fan-out reaches the
    budget at its last dispatch at the earliest, so [stop] is called once in
    the whole run.  Such a run is first [steady], then [draining]. *)

Lemma in_flight_spec b d :
  in_flight b d = true <-> exists df, Deferreds b !! d = Some df /\ dfCalled df = false.
Proof.
  unfold in_flight. destruct (Deferreds b !! d) as [df|]; split.
  - intros H. exists df. split; [reflexivity|]. destruct (dfCalled df); [discriminate H|done].
  - intros (df' & E & H). injection E as <-. rewrite H. reflexivity.
  - discriminate.
  - intros (df' & E & _). discriminate E.
Qed.

Lemma in_flight_ext b b' d : Deferreds b' = Deferreds b -> in_flight b' d = in_flight b d.
Proof. unfold in_flight. intros ->. reflexivity. Qed.

Lemma waiting_spec b d : tracked b -> d ∈ waiting b <-> in_flight b d = true.
Proof.
  intros Ht. unfold waiting. rewrite list_elem_of_filter. split; [tauto|].
  intros H. split; [exact H|].
  apply in_flight_spec in H as (df & E & Hc).
  apply list_elem_of_fmap. exists (dfAgent df, d). split; [reflexivity|].
  apply elem_of_map_to_list. exact (Ht d df E Hc).
Qed.

Lemma tracked_issue now a b : tracked b -> idle a b -> tracked (issue now a b).
Proof.
  intros Ht Hi d df Hl Hc. simpl in *.
  apply lookup_app_Some in Hl as [Hl|[Hge Hl]].
  - rewrite lookup_insert_ne by (apply not_eq_sym; eauto). eauto.
  - destruct (d - length (Deferreds b))%nat as [|n] eqn:E; simpl in Hl; [|done].
    injection Hl as <-. simpl. rewrite lookup_insert_eq. f_equal. lia.
Qed.

Lemma mark_called_lookup d b k df :
  Deferreds (mark_called d b) !! k = Some df ->
  (k = d /\ dfCalled df = true)
  \/ (k <> d /\ Deferreds b !! k = Some df).
Proof.
  simpl. destruct (decide (k = d)) as [->|Hne].
  - rewrite list_lookup_alter_eq. destruct (Deferreds b !! d); [|done].
    intros [= <-]. left. done.
  - rewrite list_lookup_alter_ne by done. right. done.
Qed.

Lemma tracked_mark_called d b : tracked b -> tracked (mark_called d b).
Proof.
  intros Ht k df Hl Hc.
  apply mark_called_lookup in Hl as [[_ Hc']|[_ Hl]]; [congruence|].
  exact (Ht k df Hl Hc).
Qed.

(** Once its request has fired, the agent of that request is idle. *)
Lemma idle_mark_called d df b :
  tracked b -> Deferreds b !! d = Some df -> dfCalled df = false ->
  idle (dfAgent df) (mark_called d b).
Proof.
  intros Ht Hd Hc k df' Hl Hc' Ha.
  apply mark_called_lookup in Hl as [[_ Hc'']|[Hne Hl]]; [congruence|].
  pose proof (Ht k df' Hl Hc') as E1. pose proof (Ht d df Hd Hc) as E2.
  rewrite Ha, E2 in E1. congruence.
Qed.

Lemma in_flight_mark_called d b k :
  in_flight (mark_called d b) k = in_flight b k && negb (bool_decide (k = d)).
Proof.
  unfold in_flight. simpl. destruct (decide (k = d)) as [->|Hne].
  - rewrite list_lookup_alter_eq, bool_decide_eq_true_2 by done.
    destruct (Deferreds b !! d); simpl; [symmetry; apply andb_false_r | reflexivity].
  - rewrite list_lookup_alter_ne, bool_decide_eq_false_2 by done.
    rewrite andb_true_r. reflexivity.
Qed.

Lemma in_flight_issue_old now a b k :
  (k < length (Deferreds b))%nat -> in_flight (issue now a b) k = in_flight b k.
Proof. intros H. unfold in_flight. simpl. rewrite lookup_app_l by done. reflexivity. Qed.

Lemma callback_handler now code result agent b :
  _callback now code result agent b = handler (CodeInt code) now result agent b.
Proof. reflexivity. Qed.

Lemma errback_handler now error result agent b :
  _errback now error result agent b = handler (CodeFailure error) now result agent b.
Proof. reflexivity. Qed.

(** A turn seen as the handler it runs. *)
Lemma fire_handler now e b b' :
  fire now e b = Some b' ->
  match completion e with
  | Some (d, code) =>
      exists df, Deferreds b !! d = Some df /\ dfCalled df = false
                 /\ b' = notify d (handler code now (dfResult df) (dfAgent df)
                                     (mark_called d b))
  | None =>
      exists dc, StopCall b = Some dc /\ active dc = true
                 /\ b' = stop (set_StopCall (Some (called dc)) b)
  end.
Proof.
  intros Hf. destruct e as [d code|d reason|]; simpl in Hf; simpl completion.
  - destruct (Deferreds b !! d) as [df|] eqn:Hd; [|discriminate].
    destruct (dfCalled df) eqn:Hc; [discriminate|]. injection Hf as <-. eauto.
  - destruct (Deferreds b !! d) as [df|] eqn:Hd; [|discriminate].
    destruct (dfCalled df) eqn:Hc; [discriminate|]. injection Hf as <-. eauto.
  - destruct (StopCall b) as [dc|] eqn:Hs; [|discriminate].
    destruct (active dc) eqn:Ha; [|discriminate]. injection Hf as <-. eauto.
Qed.

Lemma stop_draining b :
  tracked b -> DrainLists b = [] -> RunDeferred b = Some (mkRunDeferred false) ->
  QueriesMade b <= Requests b -> (StopCall b = None -> QueriesMade b = Requests b) ->
  draining (stop b).
Proof.
  intros Ht HD HR HQ HN. unfold draining.
  split; [apply stop_Stopped|]. split; [|split; [|split]].
  - exists (waiting b). split; [rewrite stop_DrainLists, HD; reflexivity|].
    split.
    + intros d. rewrite (in_flight_ext b (stop b)) by apply stop_Deferreds.
      apply waiting_spec, Ht.
    + rewrite stop_RunDeferred. destruct (waiting b); [|exact HR].
      apply done_RunDeferred_fresh, HR.
  - intros dc. rewrite stop_StopCall.
    destruct (StopCall b) as [[dl c x]|]; [|discriminate].
    unfold active, cancel. simpl. destruct c, x; simpl; intros [= <-]; reflexivity.
  - rewrite stop_QueriesMade, stop_Requests. exact HQ.
  - rewrite stop_StopCall, stop_QueriesMade, stop_Requests.
    destruct (StopCall b) as [dc|]; [|exact HN]. destruct (active dc); discriminate.
Qed.

Lemma dispatch_Deferreds now a b :
  Deferreds (dispatch now a b) = Deferreds b ++ [mkDeferred (length (Results b)) a false].
Proof. unfold dispatch. case_match; rewrite ?stop_Deferreds; reflexivity. Qed.

Lemma dispatch_Requests now a b : Requests (dispatch now a b) = Requests b.
Proof. unfold dispatch. case_match; rewrite ?stop_Requests; reflexivity. Qed.

(** A dispatch on an idle agent keeps the run steady, or starts the drain
    when it reaches the budget. *)
Lemma dispatch_orderly now a b :
  steady b -> idle a b ->
  (QueriesMade b + 1 < Requests b /\ steady (dispatch now a b))
  \/ (Requests b <= QueriesMade b + 1 /\ draining (dispatch now a b)).
Proof.
  intros (Ht & HS & HD & HR & HQ) Hi.
  pose proof (tracked_issue now a b Ht Hi) as Ht'.
  unfold dispatch. simpl Requests. simpl QueriesMade.
  destruct (Z.leb_spec (Requests b) (QueriesMade b + 1)) as [Hle|Hlt].
  - right. split; [exact Hle|].
    apply stop_draining; [exact Ht' | exact HD | exact HR | |];
      simpl QueriesMade; simpl Requests; lia.
  - left. split; [exact Hlt|]. repeat split; auto.
Qed.

(** The fan-out over agents that have not been used yet. *)
Lemma fan_out_orderly now m :
  forall k b,
    steady b -> QueriesMade b + Z.of_nat m <= Requests b ->
    (forall d df, Deferreds b !! d = Some df -> (dfAgent df < k)%nat) ->
    orderly (for_agents now (seq k m) b).
Proof.
  induction m as [|m IH]; intros k b Hs Hq Hk; [left; exact Hs|].
  cbn [seq]. rewrite for_agents_cons.
  assert (Hi : idle k b) by (intros d df Hl _ E; specialize (Hk d df Hl); lia).
  destruct (dispatch_orderly now k b Hs Hi) as [[Hlt Hs']|[Hle Hd]].
  - apply IH; [exact Hs'| rewrite dispatch_QueriesMade, dispatch_Requests; lia |].
    intros d df. rewrite dispatch_Deferreds. intros Hl.
    apply lookup_app_Some in Hl as [Hl|[_ Hl]]; [specialize (Hk d df Hl); lia|].
    destruct (d - length (Deferreds b))%nat; simpl in Hl; [|done].
    injection Hl as <-. simpl. lia.
  - assert (m = 0%nat) as -> by lia. right. exact Hd.
Qed.

Lemma filter_other (d : nat) (w : list nat) :
  d ∉ w -> filter (λ x, x ≠ d) w = w.
Proof.
  induction w as [|x w IH]; intros Hw; [reflexivity|].
  apply not_elem_of_cons in Hw as [Hne Hw].
  rewrite filter_cons. destruct (decide (x ≠ d)) as [_|Hx].
  - f_equal. apply IH, Hw.
  - exfalso. apply Hx. congruence.
Qed.

(** The callbacks of the drain lists, when none of them waits for [d]. *)
Lemma fire_lists_none d dls b :
  (forall dl, dl ∈ dls -> d ∉ dlPending dl) -> fire_lists d dls b = (dls, b).
Proof.
  revert b. induction dls as [|[w] dls IH]; intros b H; simpl; [reflexivity|].
  assert (Hw : d ∉ w) by (apply (H (mkDeferredList w)); left).
  rewrite bool_decide_eq_false_2 by exact Hw. simpl.
  rewrite IH by (intros dl Hdl; apply H; right; exact Hdl).
  rewrite (filter_other d w Hw). reflexivity.
Qed.

Lemma set_DrainLists_same b : set_DrainLists (DrainLists b) b = b.
Proof. destruct b; reflexivity. Qed.

Lemma notify_none d b :
  (forall dl, dl ∈ DrainLists b -> d ∉ dlPending dl) -> notify d b = b.
Proof.
  intros H. unfold notify. rewrite fire_lists_none by exact H.
  apply set_DrainLists_same.
Qed.

Lemma notify_single d w b :
  DrainLists b = [mkDeferredList w] -> d ∈ w ->
  notify d b =
  set_DrainLists [mkDeferredList (filter (λ x, x ≠ d) w)]
    (if bool_decide (filter (λ x, x ≠ d) w = []) then _done b else b).
Proof.
  intros HD Hw. unfold notify. rewrite HD. simpl.
  rewrite (bool_decide_eq_true_2 _ Hw). simpl. reflexivity.
Qed.

Lemma steady_mark_called d b : steady b -> steady (mark_called d b).
Proof.
  intros (Ht & HS & HD & HR & HQ). repeat split; auto using tracked_mark_called.
Qed.

(** A completion in a steady run: the agent dispatches its next request. *)
Lemma handler_steady code now d df b :
  steady b -> Deferreds b !! d = Some df -> dfCalled df = false ->
  orderly (notify d (handler code now (dfResult df) (dfAgent df) (mark_called d b))).
Proof.
  intros Hs Hd Hc.
  pose proof (steady_mark_called d b Hs) as Hs1.
  assert (Hi : idle (dfAgent df) (mark_called d b))
    by (destruct Hs as (Ht & _); eapply idle_mark_called; eauto).
  set (b2 := result_done code now (dfResult df) (mark_called d b)).
  assert (Hs2 : steady b2) by exact Hs1.
  assert (Hi2 : idle (dfAgent df) b2) by exact Hi.
  assert (Hlen : (d < length (Deferreds b2))%nat).
  { subst b2. simpl. rewrite length_alter. apply lookup_lt_is_Some. eauto. }
  assert (Hfl : in_flight (dispatch now (dfAgent df) b2) d = false).
  { unfold in_flight. rewrite dispatch_Deferreds, lookup_app_l by exact Hlen.
    subst b2. simpl. rewrite list_lookup_alter_eq, Hd. reflexivity. }
  unfold handler. fold b2. rewrite makeRequests_one.
  destruct Hs2 as (Ht2 & HS2 & HD2 & HR2 & HQ2). rewrite HS2.
  destruct (dispatch_orderly now (dfAgent df) b2 (conj Ht2 (conj HS2 (conj HD2 (conj HR2 HQ2)))) Hi2)
    as [[_ Hs3]|[_ Hd3]].
  - rewrite notify_none; [left; exact Hs3|].
    destruct Hs3 as (_ & _ & HD3 & _). rewrite HD3. intros dl Hdl.
    apply elem_of_nil in Hdl. done.
  - rewrite notify_none; [right; exact Hd3|].
    destruct Hd3 as (_ & (w & HD3 & Hw & _) & _). rewrite HD3.
    intros dl Hdl. apply list_elem_of_singleton in Hdl as ->. simpl.
    rewrite Hw, Hfl. discriminate.
Qed.

(** A completion during the drain: the drain list forgets the request, and
    resolves the run deferred if it was the last. *)
Lemma handler_draining code now d df b :
  draining b -> Deferreds b !! d = Some df -> dfCalled df = false ->
  draining (notify d (handler code now (dfResult df) (dfAgent df) (mark_called d b))).
Proof.
  intros (HS & (w & HD & Hw & HR) & HT & HQ & HN) Hd Hc.
  assert (Hdw : d ∈ w) by (apply Hw, in_flight_spec; eauto).
  assert (Hwne : bool_decide (w = []) = false).
  { apply bool_decide_eq_false_2. intros ->. apply elem_of_nil in Hdw. done. }
  rewrite Hwne in HR.
  set (b2 := handler code now (dfResult df) (dfAgent df) (mark_called d b)).
  assert (E2 : b2 = result_done code now (dfResult df) (mark_called d b)).
  { subst b2. unfold handler, _makeRequests. simpl Stopped. rewrite HS. reflexivity. }
  assert (HD2 : DrainLists b2 = [mkDeferredList w]) by (rewrite E2; exact HD).
  rewrite (notify_single d w b2 HD2 Hdw).
  set (rest := filter (λ x, x ≠ d) w).
  assert (Hrest : forall x, x ∈ rest <-> in_flight b2 x = true).
  { intros x. subst rest. rewrite list_elem_of_filter, Hw, E2.
    change (in_flight (result_done code now (dfResult df) (mark_called d b)) x)
      with (in_flight (mark_called d b) x).
    rewrite in_flight_mark_called, andb_true_iff, negb_true_iff, bool_decide_eq_false.
    tauto. }
  assert (HR2 : RunDeferred b2 = Some (mkRunDeferred false)) by (rewrite E2; exact HR).
  assert (F2 : Stopped b2 = true /\ StopCall b2 = StopCall b
               /\ QueriesMade b2 = QueriesMade b /\ Requests b2 = Requests b)
    by (rewrite E2; repeat split; exact HS).
  destruct F2 as (HS2 & HT2 & HQ2 & HRq2).
  destruct (decide (rest = [])) as [Hnil|Hcons].
  - rewrite (bool_decide_eq_true_2 _ Hnil). unfold draining. simpl.
    rewrite done_Stopped, done_StopCall, done_QueriesMade, done_Requests,
      HT2, HQ2, HRq2.
    split; [exact HS2|]. split; [|auto].
    exists rest. split; [reflexivity|]. split.
    + intros x. rewrite (in_flight_ext b2) by (simpl; apply done_Deferreds).
      apply Hrest.
    + rewrite (done_RunDeferred_fresh b2 HR2), (bool_decide_eq_true_2 _ Hnil).
      reflexivity.
  - rewrite (bool_decide_eq_false_2 _ Hcons). unfold draining. simpl.
    rewrite HT2, HQ2, HRq2.
    split; [exact HS2|]. split; [|auto].
    exists rest. split; [reflexivity|]. split; [exact Hrest|].
    rewrite HR2, (bool_decide_eq_false_2 _ Hcons). reflexivity.
Qed.

(** The timer can only come due in a steady run, and starts the drain. *)
Lemma timer_steady dc b :
  steady b -> draining (stop (set_StopCall (Some (called dc)) b)).
Proof.
  intros (Ht & HS & HD & HR & HQ).
  apply stop_draining; simpl; [exact Ht | exact HD | exact HR | lia | discriminate].
Qed.

Lemma fire_orderly now e b b' : orderly b -> fire now e b = Some b' -> orderly b'.
Proof.
  intros Ho Hf. destruct e as [d code|d reason|]; simpl in Hf.
  - destruct (Deferreds b !! d) as [df|] eqn:Hd; [|discriminate].
    destruct (dfCalled df) eqn:Hc; [discriminate|]. injection Hf as <-.
    rewrite callback_handler. destruct Ho as [Hs|Hdr].
    + eapply handler_steady; eauto.
    + right. eapply handler_draining; eauto.
  - destruct (Deferreds b !! d) as [df|] eqn:Hd; [|discriminate].
    destruct (dfCalled df) eqn:Hc; [discriminate|]. injection Hf as <-.
    rewrite errback_handler. destruct Ho as [Hs|Hdr].
    + eapply handler_steady; eauto.
    + right. eapply handler_draining; eauto.
  - destruct (StopCall b) as [dc|] eqn:HT; [|discriminate].
    destruct (active dc) eqn:Ha; [|discriminate]. injection Hf as <-.
    destruct Ho as [Hs|(_ & _ & Hin & _)].
    + right. apply timer_steady, Hs.
    + rewrite (Hin dc HT) in Ha. discriminate.
Qed.

Lemma fire_all_orderly es b b' : orderly b -> fire_all es b = Some b' -> orderly b'.
Proof.
  revert b. induction es as [|[now e] es IH]; intros b Ho Hf; simpl in Hf.
  - injection Hf as <-. exact Ho.
  - destruct (fire now e b) as [b1|] eqn:E; [|discriminate].
    eapply IH; [|exact Hf]. eapply fire_orderly; eauto.
Qed.

Lemma occupied_nil b : occupied b = [] <-> forall d, in_flight b d = false.
Proof.
  unfold occupied. split.
  - intros H d. destruct (in_flight b d) eqn:E; [|reflexivity].
    exfalso. eapply (filter_nil_not_elem_of _ _ d H E).
    apply elem_of_seq. apply in_flight_spec in E as (df & Hl & _).
    apply lookup_lt_Some in Hl. lia.
  - intros H. induction (seq 0 (length (Deferreds b))) as [|x l IH]; [reflexivity|].
    rewrite filter_cons. destruct (decide (in_flight b x = true)) as [E|_]; [|exact IH].
    rewrite H in E. discriminate.
Qed.

(** In an orderly run the run deferred has its value exactly when the bench
    has stopped and no request is in flight. *)
Lemma orderly_resolved b :
  orderly b -> resolved b = true <-> Stopped b = true /\ occupied b = [].
Proof.
  intros [(Ht & HS & HD & HR & HQ)|(HS & (w & HD & Hw & HR) & _)]; unfold resolved.
  - rewrite HR, HS. simpl. split; [discriminate|intros [? _]; discriminate].
  - rewrite HR. simpl. rewrite bool_decide_eq_true, occupied_nil. split.
    + intros ->. split; [exact HS|]. intros d.
      destruct (in_flight b d) eqn:E; [|reflexivity].
      apply Hw in E. apply elem_of_nil in E. done.
    + intros [_ H]. destruct w as [|x w]; [reflexivity|].
      assert (E : in_flight b x = true) by (apply Hw; left).
      rewrite H in E. discriminate.
Qed.

Lemma handler_Requests code now result agent b :
  Requests (handler code now result agent b) = Requests b.
Proof.
  unfold handler. rewrite makeRequests_one. case_match; [reflexivity|].
  rewrite dispatch_Requests. reflexivity.
Qed.

Lemma handler_StopCall_None code now result agent b :
  StopCall b = None -> StopCall (handler code now result agent b) = None.
Proof.
  intros H. unfold handler. rewrite makeRequests_one. case_match; [exact H|].
  unfold dispatch. case_match; [|exact H]. rewrite stop_StopCall. simpl StopCall.
  rewrite H. reflexivity.
Qed.

Lemma fire_Requests now e b b' : fire now e b = Some b' -> Requests b' = Requests b.
Proof.
  intros Hf. destruct e; simpl in Hf; repeat case_match; simplify_eq.
  - destruct (notify_frame d (_callback now code (dfResult d0) (dfAgent d0) (mark_called d b)))
      as (_ & _ & _ & _ & _ & _ & -> & _).
    rewrite callback_handler, handler_Requests. reflexivity.
  - destruct (notify_frame d (_errback now reason (dfResult d0) (dfAgent d0) (mark_called d b)))
      as (_ & _ & _ & _ & _ & _ & -> & _).
    rewrite errback_handler, handler_Requests. reflexivity.
  - rewrite stop_Requests. reflexivity.
Qed.

Lemma fire_StopCall_None now e b b' :
  StopCall b = None -> fire now e b = Some b' -> StopCall b' = None.
Proof.
  intros H Hf. destruct e; simpl in Hf; repeat case_match; simplify_eq.
  - destruct (notify_frame d (_callback now code (dfResult d0) (dfAgent d0) (mark_called d b)))
      as (_ & _ & _ & _ & _ & _ & _ & -> & _).
    rewrite callback_handler. apply handler_StopCall_None. exact H.
  - destruct (notify_frame d (_errback now reason (dfResult d0) (dfAgent d0) (mark_called d b)))
      as (_ & _ & _ & _ & _ & _ & _ & -> & _).
    rewrite errback_handler. apply handler_StopCall_None. exact H.
Qed.

Lemma fire_all_budget es b b' :
  fire_all es b = Some b' ->
  Requests b' = Requests b /\ (StopCall b = None -> StopCall b' = None).
Proof.
  revert b. induction es as [|[now e] es IH]; intros b Hf; simpl in Hf.
  - injection Hf as <-. auto.
  - destruct (fire now e b) as [b1|] eqn:E; [|discriminate].
    destruct (IH b1 Hf) as [-> HN]. split; [eapply fire_Requests; eauto|].
    intros H. eapply HN, fire_StopCall_None; eauto.
Qed.

Lemma for_agents_Requests now agents b :
  Requests (for_agents now agents b) = Requests b.
Proof.
  revert b. induction agents as [|a agents IH]; intros b; [reflexivity|].
  rewrite for_agents_cons, IH. apply dispatch_Requests.
Qed.

Lemma for_agents_StopCall_None now agents b :
  StopCall b = None -> StopCall (for_agents now agents b) = None.
Proof.
  revert b. induction agents as [|a agents IH]; intros b H; [exact H|].
  rewrite for_agents_cons. apply IH. unfold dispatch. case_match; [|exact H]. rewrite stop_StopCall. simpl StopCall.
  rewrite H. reflexivity.
Qed.

Lemma steady_fresh b :
  Deferreds b = [] -> Stopped b = false -> DrainLists b = [] ->
  RunDeferred b = Some (mkRunDeferred false) -> QueriesMade b < Requests b ->
  steady b.
Proof.
  intros HD HS HL HR HQ. unfold steady. split; [|auto].
  intros d df Hl. rewrite HD in Hl. done.
Qed.

(** [run] on a new bench whose pool is no larger than its budget. *)
Lemma run_orderly now requests concurrency url timelimit auth :
  parseURL url = None ->
  (forall t, timelimit = Some t -> 0 <= t) ->
  0 < budget requests timelimit ->
  concurrency <= budget requests timelimit ->
  exists b,
    run now (Bench_init requests concurrency url timelimit auth) = Ok b
    /\ orderly b
    /\ Requests b = budget requests timelimit
    /\ (truthy timelimit = false -> StopCall b = None).
Proof.
  intros Hp Ht H0 Hc. unfold budget in *. rewrite run_parsed by exact Hp.
  cbv zeta. simpl Timelimit.
  destruct (truthy timelimit) eqn:E.
  - destruct timelimit as [t|]; [|discriminate E].
    specialize (Ht t eq_refl). unfold callLater. simpl default.
    destruct (Z.ltb_spec t 0) as [?|_]; [lia|].
    eexists. split; [reflexivity|].
    unfold _makeRequests. simpl Stopped. cbv iota. simpl Agents.
    split; [|split; [rewrite for_agents_Requests; reflexivity | discriminate]].
    apply fan_out_orderly.
    + apply steady_fresh; try reflexivity; simpl; lia.
    + simpl. lia.
    + intros d df Hl. done.
  - eexists. split; [reflexivity|].
    unfold _makeRequests. simpl Stopped. cbv iota. simpl Agents.
    split; [|split; [rewrite for_agents_Requests; reflexivity |]].
    + apply fan_out_orderly.
      * apply steady_fresh; try reflexivity; simpl; lia.
      * simpl. lia.
      * intros d df Hl. done.
    + intros _. apply for_agents_StopCall_None. reflexivity.
Qed.

(** Drain before resolution.  When the pool is no larger than the budget,
    whatever stops the run (the budget or the timer), its deferred has its
    value exactly when the bench has stopped and no request is in flight. *)
Lemma resolved_only_when_drained
    (now requests concurrency : Z) (url : string) (timelimit : option Z) (auth : pystr)
    (es : list (Z * event)) (b b' : Bench) :
  (forall t, timelimit = Some t -> 0 <= t) ->
  0 < budget requests timelimit ->
  concurrency <= budget requests timelimit ->
  run now (Bench_init requests concurrency url timelimit auth) = Ok b ->
  fire_all es b = Some b' ->
  resolved b' = true <-> Stopped b' = true /\ occupied b' = [].
Proof.
  intros Ht H0 Hc Hrun Hes.
  destruct (run_orderly now requests concurrency url timelimit auth
              (run_Ok_parsed _ _ _ Hrun) Ht H0 Hc)
    as (b1 & Hrun1 & Ho & _).
  rewrite Hrun in Hrun1. injection Hrun1 as <-.
  apply orderly_resolved. eapply fire_all_orderly; eauto.
Qed.

(** The budget is met.  Without a time limit, when the pool is no larger
    than [requests], the bench stops exactly when it has sent [requests]
    requests, and when its deferred has its value it has sent [requests]
    requests, [Results] has [requests] entries and no request is in
    flight. *)
Lemma budget_met_when_resolved
    (now requests concurrency : Z) (url : string) (auth : pystr)
    (es : list (Z * event)) (b b' : Bench) :
  0 < requests ->
  concurrency <= requests ->
  run now (Bench_init requests concurrency url None auth) = Ok b ->
  fire_all es b = Some b' ->
  QueriesMade b' <= requests
  /\ (Stopped b' = true <-> QueriesMade b' = requests)
  /\ (resolved b' = true ->
        QueriesMade b' = requests
        /\ Z.of_nat (length (Sent b')) = requests
        /\ Z.of_nat (length (Results b')) = requests
        /\ occupied b' = []).
Proof.
  intros H0 Hc Hrun Hes.
  assert (Ht : forall t, @None Z = Some t -> 0 <= t) by (intros t E; discriminate E).
  destruct (run_orderly now requests concurrency url None auth
              (run_Ok_parsed _ _ _ Hrun) Ht H0 Hc)
    as (b1 & Hrun1 & Ho & HR & HN).
  rewrite Hrun in Hrun1. injection Hrun1 as <-.
  pose proof (fire_all_orderly es b b' Ho Hes) as Ho'.
  destruct (fire_all_budget es b b' Hes) as [HR' HN'].
  rewrite HR in HR'. unfold budget in HR'. simpl in HR'.
  specialize (HN' (HN eq_refl)).
  assert (Hreach : reachable b').
  { eapply fire_all_reachable; [|exact Hes].
    replace b with (state_of (run now (Bench_init requests concurrency url None auth)))
      by (rewrite Hrun; reflexivity).
    apply run_reachable. }
  destruct (in_step_reachable b' Hreach) as (HRS & _ & _).
  pose proof (counted_reachable b' Hreach) as HC. unfold counted in HC.
  assert (Hstop : Stopped b' = true <-> QueriesMade b' = requests).
  { destruct Ho' as [(_ & HS & _ & _ & HQ)|(HS & _ & _ & _ & HQ)].
    - rewrite HS. split; [discriminate | lia].
    - rewrite HS, <- HR'. split; auto. }
  split; [destruct Ho' as [(_ & _ & _ & _ & HQ)|(_ & _ & _ & HQ & _)]; lia|].
  split; [exact Hstop|].
  intros Hres. apply (orderly_resolved b' Ho') in Hres as [HS Hocc].
  apply Hstop in HS. repeat split; [exact HS | lia | lia | exact Hocc].
Qed.

(** The two lemmas at work: two requests on two agents, the second one
    answered first. *)
Example two_requests_on_two_agents :
  exists b b',
    run 0 (Bench_init 2 2 "http://localhost/" None (PyStr "")) = Ok b
    /\ fire_all [(1, Response 1 404); (2, Response 0 200)] b = Some b'
    /\ resolved b' = true
    /\ QueriesMade b' = 2
    /\ Z.of_nat (length (Results b')) = 2
    /\ occupied b' = [].
Proof.
  do 2 eexists.
  split; [reflexivity|]. split; [vm_compute; reflexivity|].
  match goal with |- resolved ?x = true /\ _ => set (b' := x) end.
  assert (Hres : resolved b' = true) by (vm_compute; reflexivity).
  split; [exact Hres|].
  assert (H0 : 0 < 2) by lia. assert (Hc : 2 <= 2) by lia.
  destruct (budget_met_when_resolved 0 2 2 "http://localhost/" (PyStr "")
              [(1, Response 1 404); (2, Response 0 200)]
              (state_of (run 0 (Bench_init 2 2 "http://localhost/" None (PyStr ""))))
              b' H0 Hc eq_refl) as (_ & _ & H).
  { vm_compute. reflexivity. }
  destruct (H Hres) as (HQ & _ & HR & Hocc). auto.
Qed.

(** A run under a time limit, stopped by the timer with one request in
    flight: its deferred waits for that request. *)
Example timer_stops_a_run :
  exists b b1 b2,
    run 0 (Bench_init 100 1 "http://localhost/" (Some 1) (PyStr "")) = Ok b
    /\ fire_all [(1, Response 0 200); (2, Timer)] b = Some b1
    /\ resolved b1 = false /\ occupied b1 = [1%nat]
    /\ fire 3 (Response 1 200) b1 = Some b2
    /\ resolved b2 = true /\ occupied b2 = [] /\ Stopped b2 = true.
Proof.
  do 3 eexists.
  split; [reflexivity|]. split; [vm_compute; reflexivity|].
  split; [vm_compute; reflexivity|]. split; [vm_compute; reflexivity|].
  split; [vm_compute; reflexivity|].
  match goal with |- resolved ?x = true /\ _ => set (b2 := x) end.
  assert (Hres : resolved b2 = true) by (vm_compute; reflexivity).
  split; [exact Hres|].
  assert (Ht : forall t, Some 1 = Some t -> 0 <= t) by (intros t [= <-]; lia).
  assert (H0 : 0 < budget 100 (Some 1)) by (vm_compute; reflexivity).
  assert (Hc : 1 <= budget 100 (Some 1)) by (vm_compute; discriminate).
  pose proof (resolved_only_when_drained 0 100 1 "http://localhost/" (Some 1) (PyStr "")
                [(1, Response 0 200); (2, Timer); (3, Response 1 200)]
                (state_of (run 0 (Bench_init 100 1 "http://localhost/" (Some 1) (PyStr ""))))
                b2 Ht H0 Hc eq_refl) as H.
  destruct H as [H _]; [vm_compute; reflexivity|].
  destruct (H Hres) as [HS Hocc]. auto.
Qed.

(** ** The time limit and the budget of 5000 *)













(** * Further properties *)

(** ** A stopped bench *)

Lemma run_stopped now b :
  Stopped b = true ->
  Stopped (state_of (run now b)) = true
  /\ Sent (state_of (run now b)) = Sent b
  /\ Results (state_of (run now b)) = Results b
  /\ QueriesMade (state_of (run now b)) = QueriesMade b.
Proof.
  intros HS. unfold run, _makeRequests.
  repeat case_match; simpl in *; try congruence; auto.
Qed.

Lemma makeRequests_stopped now agents b :
  Stopped b = true -> _makeRequests now agents b = b.
Proof. intros HS. unfold _makeRequests. rewrite HS. reflexivity. Qed.

Lemma after_stopped b b' :
  Stopped b = true -> after b b' ->
  Stopped b' = true /\ Sent b' = Sent b
  /\ length (Results b') = length (Results b) /\ QueriesMade b' = QueriesMade b.
Proof.
  intros HS. induction 1 as [|now b1 _ IH|b1 _ IH|now e b1 b2 _ IH Hf].
  - auto.
  - destruct IH as (H1 & <- & <- & <-).
    destruct (run_stopped now b1 H1) as (-> & -> & -> & ->). auto.
  - destruct IH as (H1 & <- & <- & <-).
    rewrite stop_Stopped, stop_Sent, stop_Results, stop_QueriesMade. auto.
  - destruct IH as (H1 & <- & <- & <-).
    exact (fire_stopped now e b1 b2 H1 Hf).
Qed.

(** X1. [Stopped] is one-way and ends all dispatch.  Whatever is done with
    a stopped bench afterwards (reactor turns, further calls of [stop], even
    a call of [run]), it stays stopped, sends no request, appends no
    [Result] and counts no query; [_makeRequests] is the identity on it. *)
Theorem stopped_bench_sends_nothing (b b' : Bench) :
  Stopped b = true -> after b b' ->
  Stopped b' = true
  /\ Sent b' = Sent b
  /\ length (Results b') = length (Results b)
  /\ QueriesMade b' = QueriesMade b
  /\ forall now agents, _makeRequests now agents b' = b'.
Proof.
  intros HS Ha. destruct (after_stopped b b' HS Ha) as (H1 & H2 & H3 & H4).
  repeat split; auto. intros now agents. apply makeRequests_stopped, H1.
Qed.

Lemma stopped_bench_sends_nothing_witness :
  Stopped (scenario 1 1 None) = true
  /\ after (scenario 1 1 None) (state_of (run 5 (stop (scenario 1 1 None))))
  /\ Sent (state_of (run 5 (stop (scenario 1 1 None)))) = Sent (scenario 1 1 None).
Proof.
  assert (HS : Stopped (scenario 1 1 None) = true) by (vm_compute; reflexivity).
  assert (Ha : after (scenario 1 1 None) (state_of (run 5 (stop (scenario 1 1 None)))))
    by (apply after_run, after_stop, after_refl).
  split; [exact HS|]. split; [exact Ha|].
  exact (proj1 (proj2 (stopped_bench_sends_nothing _ _ HS Ha))).
Defined.

(** ** What a completion writes *)

Lemma dispatch_Results now agent b :
  Results (dispatch now agent b) = Results b ++ [Result.start now Result.init].
Proof. unfold dispatch. case_match; rewrite ?stop_Results; apply issue_Results. Qed.

Lemma handler_Results code now result agent b :
  Results (handler code now result agent b) =
  alter (Result.done code false now) result (Results b)
  ++ (if Stopped b then [] else [Result.start now Result.init]).
Proof. unfold handler. rewrite makeRequests_one_Results. reflexivity. Qed.

Lemma handler_Deferreds code now result agent b :
  Deferreds (handler code now result agent b) =
  Deferreds b
  ++ (if Stopped b then [] else [mkDeferred (length (Results b)) agent false]).
Proof.
  unfold handler. rewrite makeRequests_one.
  change (Stopped (result_done code now result b)) with (Stopped b).
  destruct (Stopped b); [symmetry; apply app_nil_r|].
  rewrite dispatch_Deferreds. simpl. rewrite length_alter. reflexivity.
Qed.

(** A turn seen from [Results] and [Deferreds]. *)
Lemma fire_inv now e b b' :
  fire now e b = Some b' ->
  match completion e with
  | Some (d, code) =>
      exists df,
        Deferreds b !! d = Some df /\ dfCalled df = false
        /\ Results b' =
             alter (Result.done code false now) (dfResult df) (Results b)
             ++ (if Stopped b then [] else [Result.start now Result.init])
        /\ Deferreds b' =
             alter (λ df, mkDeferred (dfResult df) (dfAgent df) true) d (Deferreds b)
             ++ (if Stopped b then []
                 else [mkDeferred (length (Results b)) (dfAgent df) false])
  | None => Results b' = Results b /\ Deferreds b' = Deferreds b
  end.
Proof.
  intros Hf. destruct e as [d code|d reason|]; simpl in Hf; simpl completion.
  - destruct (Deferreds b !! d) as [df|] eqn:Hd; [|discriminate].
    destruct (dfCalled df) eqn:Hc; [discriminate|]. injection Hf as <-.
    exists df. split; [exact Hd|]. split; [exact Hc|].
    destruct (notify_frame d (_callback now code (dfResult df) (dfAgent df) (mark_called d b)))
      as (_ & _ & -> & _ & -> & _).
    rewrite callback_handler, handler_Results, handler_Deferreds. auto.
  - destruct (Deferreds b !! d) as [df|] eqn:Hd; [|discriminate].
    destruct (dfCalled df) eqn:Hc; [discriminate|]. injection Hf as <-.
    exists df. split; [exact Hd|]. split; [exact Hc|].
    destruct (notify_frame d (_errback now reason (dfResult df) (dfAgent df) (mark_called d b)))
      as (_ & _ & -> & _ & -> & _).
    rewrite errback_handler, handler_Results, handler_Deferreds. auto.
  - destruct (StopCall b) as [dc|]; [|discriminate].
    destruct (active dc); [|discriminate]. injection Hf as <-.
    rewrite stop_Results, stop_Deferreds. auto.
Qed.

(** X2. A completion writes the outcome into the [Result] of its own
    request and into no other.  In a reachable state, when request [d]
    completes with [code] at clock reading [now], entry [d] of [Results]
    becomes [done] with that code, [Finished = now] and
    [Elapsed = now - Started], its [Started] is kept, and every other entry
    stays as it is.  The timer changes no entry. *)
Theorem completion_writes_its_own_Result (now : Z) (e : event) (b b' : Bench) :
  reachable b -> fire now e b = Some b' ->
  match completion e with
  | Some (d, code) =>
      exists r,
        Results b !! d = Some r
        /\ Results b' !! d =
             Some (Result.mk (Result.Started r) now (now - Result.Started r) code false)
        /\ forall k r', k <> d -> Results b !! k = Some r' -> Results b' !! k = Some r'
  | None => Results b' = Results b
  end.
Proof.
  intros Hb Hf. pose proof (fire_inv now e b b' Hf) as H.
  destruct (completion e) as [[d code]|]; [|exact (proj1 H)].
  destruct H as (df & Hd & Hc & HR & _).
  destruct (in_step_reachable b Hb) as (HRS & HDS & Hk).
  rewrite (Hk d df Hd) in HR.
  assert (Hlt : (d < length (Results b))%nat).
  { rewrite HRS, <- HDS. apply lookup_lt_is_Some. eauto. }
  destruct (lookup_lt_is_Some_2 (Results b) d Hlt) as [r Hr].
  exists r. split; [exact Hr|]. split.
  - rewrite HR, lookup_app_l by (rewrite length_alter; exact Hlt).
    rewrite list_lookup_alter_eq, Hr. reflexivity.
  - intros k r' Hne Hk'. rewrite HR.
    rewrite lookup_app_l by (rewrite length_alter; apply lookup_lt_is_Some; eauto).
    rewrite list_lookup_alter_ne by (apply not_eq_sym, Hne). exact Hk'.
Qed.

Lemma completion_writes_its_own_Result_witness :
  reachable (scenario 2 2 None)
  /\ (exists b', fire 7 (Failed 1 "refused") (scenario 2 2 None) = Some b'
                 /\ Results b' !! 1%nat = Some (Result.mk 0 7 7 (CodeFailure "refused") false)
                 /\ Results b' !! 0%nat = Results (scenario 2 2 None) !! 0%nat).
Proof.
  split; [apply scenario_reachable|].
  destruct (fire 7 (Failed 1 "refused") (scenario 2 2 None)) as [b'|] eqn:Hf;
    [|vm_compute in Hf; discriminate Hf].
  exists b'. split; [reflexivity|].
  pose proof (completion_writes_its_own_Result 7 (Failed 1 "refused")
                (scenario 2 2 None) b' (scenario_reachable 2 2 None) Hf) as H.
  simpl completion in H. destruct H as (r & Hr & Hd & Hother).
  assert (E : r = Result.mk 0 0 0 (CodeInt 0) false).
  { vm_compute in Hr. injection Hr as <-. reflexivity. }
  subst r. split; [exact Hd|].
  assert (H0 : Results (scenario 2 2 None) !! 0%nat
               = Some (Result.mk 0 0 0 (CodeInt 0) false)) by (vm_compute; reflexivity).
  rewrite H0. apply Hother; [lia | exact H0].
Defined.

(** ** Completed requests *)

Lemma for_agents_appends now agents b :
  exists rs ds,
    Results (for_agents now agents b) = Results b ++ rs
    /\ Deferreds (for_agents now agents b) = Deferreds b ++ ds.
Proof.
  revert b. induction agents as [|a agents IH]; intros b.
  - exists [], []. rewrite !app_nil_r. auto.
  - rewrite for_agents_cons. destruct (IH (dispatch now a b)) as (rs & ds & -> & ->).
    rewrite dispatch_Results, dispatch_Deferreds, <- !app_assoc. eauto.
Qed.

Lemma run_appends now b :
  exists rs ds,
    Results (state_of (run now b)) = Results b ++ rs
    /\ Deferreds (state_of (run now b)) = Deferreds b ++ ds.
Proof.
  assert (H : forall agents b0, Results b0 = Results b -> Deferreds b0 = Deferreds b ->
            exists rs ds,
              Results (_makeRequests now agents b0) = Results b ++ rs
              /\ Deferreds (_makeRequests now agents b0) = Deferreds b ++ ds).
  { intros agents b0 <- <-. unfold _makeRequests. destruct (Stopped b0).
    - exists [], []. rewrite !app_nil_r. auto.
    - apply for_agents_appends. }
  unfold run. repeat case_match; simpl state_of;
    first [ apply H; reflexivity
          | exists [], []; rewrite !app_nil_r; split; reflexivity ].
Qed.

Lemma completed_with_appends k r b b' rs ds :
  (length (Results b) = length (Deferreds b)) ->
  Results b' = Results b ++ rs -> Deferreds b' = Deferreds b ++ ds ->
  completed_with k r b -> completed_with k r b'.
Proof.
  intros Hlen HR HD [Hf Hr]. unfold completed_with, in_flight in *.
  assert (Hlt : (k < length (Results b))%nat) by (apply lookup_lt_is_Some; eauto).
  rewrite HR, HD, !lookup_app_l by lia. auto.
Qed.

Lemma completed_with_fire k r now e b b' :
  reachable b -> fire now e b = Some b' ->
  completed_with k r b -> completed_with k r b'.
Proof.
  intros Hb Hf [Hk Hr]. pose proof (fire_inv now e b b' Hf) as H.
  destruct (in_step_reachable b Hb) as (HRS & HDS & Hres).
  assert (Hlt : (k < length (Results b))%nat) by (apply lookup_lt_is_Some; eauto).
  destruct (completion e) as [[d code]|].
  - destruct H as (df & Hd & Hc & HR & HD).
    assert (Hne : d <> k).
    { intros ->. unfold in_flight in Hk. rewrite Hd, Hc in Hk. discriminate. }
    rewrite (Hres d df Hd) in HR. unfold completed_with, in_flight.
    rewrite HR, HD, !lookup_app_l by (rewrite length_alter; lia).
    rewrite !list_lookup_alter_ne by exact Hne. auto.
  - destruct H as [HR HD]. unfold completed_with, in_flight. rewrite HR, HD. auto.
Qed.

Lemma completed_with_after k r b b' :
  reachable b -> after b b' -> completed_with k r b -> completed_with k r b'.
Proof.
  intros Hb Ha Hc. induction Ha as [|now b1 Ha IH|b1 Ha IH|now e b1 b2 Ha IH Hf].
  - exact Hc.
  - pose proof (after_reachable b b1 Hb Ha) as Hb1.
    destruct (in_step_reachable b1 Hb1) as (HRS & HDS & _).
    destruct (run_appends now b1) as (rs & ds & HR & HD).
    apply (completed_with_appends k r b1 _ rs ds); [lia | exact HR | exact HD | exact IH].
  - destruct IH as [Hk Hr]. unfold completed_with, in_flight.
    rewrite stop_Results, stop_Deferreds. split; [exact Hk | exact Hr].
  - apply (completed_with_fire k r now e b1 b2);
      [exact (after_reachable b b1 Hb Ha) | exact Hf | exact IH].
Qed.

(** X3. The [Result] of a completed request is final.  Once request [k]
    has completed, nothing that happens to the bench later (completions of
    other requests, dispatches, the timer, calls of [stop] or of [run])
    changes entry [k] of [Results], and the request cannot complete a
    second time. *)
Theorem completed_Result_is_final (k : nat) (r : Result.t) (b b' : Bench) :
  reachable b -> after b b' ->
  in_flight b k = false -> Results b !! k = Some r ->
  Results b' !! k = Some r
  /\ in_flight b' k = false
  /\ forall now code reason,
       fire now (Response k code) b' = None /\ fire now (Failed k reason) b' = None.
Proof.
  intros Hb Ha Hk Hr.
  destruct (completed_with_after k r b b' Hb Ha (conj Hk Hr)) as [Hk' Hr'].
  split; [exact Hr'|]. split; [exact Hk'|].
  intros now code reason. unfold in_flight in Hk'. simpl.
  destruct (Deferreds b' !! k) as [df|]; [|auto].
  destruct (dfCalled df); [auto | discriminate Hk'].
Qed.

Lemma completed_Result_is_final_witness :
  let b1 := default (scenario 3 2 None) (fire 3 (Response 0 200) (scenario 3 2 None)) in
  reachable b1
  /\ after b1 (stop b1)
  /\ Results (stop b1) !! 0%nat = Some (Result.mk 0 3 3 (CodeInt 200) false).
Proof.
  intros b1.
  assert (H1 : fire 3 (Response 0 200) (scenario 3 2 None) = Some b1).
  { subst b1. destruct (fire 3 (Response 0 200) (scenario 3 2 None)) eqn:E;
      [reflexivity | vm_compute in E; discriminate E]. }
  assert (Hb1 : reachable b1).
  { eapply after_reachable; [apply scenario_reachable|].
    eapply after_fire; [apply after_refl | exact H1]. }
  assert (Ha : after b1 (stop b1)) by apply after_stop, after_refl.
  assert (Hk : in_flight b1 0 = false) by (vm_compute; reflexivity).
  assert (Hr : Results b1 !! 0%nat = Some (Result.mk 0 3 3 (CodeInt 200) false))
    by (vm_compute; reflexivity).
  split; [exact Hb1|]. split; [exact Ha|].
  exact (proj1 (completed_Result_is_final 0 _ b1 (stop b1) Hb1 Ha Hk Hr)).
Defined.

(** ** Elapsed times *)

Lemma timed_weaken t t' b : t <= t' -> timed t b -> timed t' b.
Proof.
  unfold timed. intros Ht H. eapply Forall_impl; [exact H|].
  simpl. intros r [H1 H2]. split; lia.
Qed.

Lemma timed_dispatch t now agent b :
  t <= now -> timed t b -> timed now (dispatch now agent b).
Proof.
  intros Ht H. unfold timed. rewrite dispatch_Results. apply Forall_app. split.
  - exact (timed_weaken t now b Ht H).
  - repeat constructor; simpl; lia.
Qed.

Lemma timed_for_agents now agents b :
  timed now b -> timed now (for_agents now agents b).
Proof.
  revert b. induction agents as [|a agents IH]; intros b H; [exact H|].
  rewrite for_agents_cons. apply IH, (timed_dispatch now now); [lia | exact H].
Qed.

Lemma timed_makeRequests t now agents b :
  t <= now -> timed t b -> timed now (_makeRequests now agents b).
Proof.
  intros Ht H. unfold _makeRequests. destruct (Stopped b).
  - exact (timed_weaken t now b Ht H).
  - apply timed_for_agents, (timed_weaken t now b Ht H).
Qed.

Lemma timed_run t now b : t <= now -> timed t b -> timed now (state_of (run now b)).
Proof.
  intros Ht H. unfold run. repeat case_match; simpl state_of;
    first [ apply (timed_makeRequests t); [exact Ht | exact H]
          | exact (timed_weaken t now b Ht H) ].
Qed.

Lemma timed_fire t now e b b' :
  t <= now -> timed t b -> fire now e b = Some b' -> timed now b'.
Proof.
  intros Ht H Hf. pose proof (fire_inv now e b b' Hf) as Hi.
  pose proof (timed_weaken t now b Ht H) as Hnow.
  destruct (completion e) as [[d code]|].
  - destruct Hi as (df & _ & _ & HR & _). unfold timed in *. rewrite HR.
    apply Forall_app. split.
    + apply Forall_alter; [exact Hnow|]. simpl. intros r _ [H1 H2]. split; lia.
    + destruct (Stopped b); repeat constructor; simpl; lia.
  - destruct Hi as [HR _]. unfold timed in *. rewrite HR. exact Hnow.
Qed.

Lemma timed_fire_all es : forall t b b',
  monotone t es -> timed t b -> fire_all es b = Some b' ->
  timed (last_reading t es) b'.
Proof.
  induction es as [|[now e] es IH]; intros t b b' Hm H Hf; simpl in *.
  - injection Hf as <-. exact H.
  - destruct Hm as [Ht Hm].
    destruct (fire now e b) as [b1|] eqn:E; [|discriminate].
    eapply IH; [exact Hm | | exact Hf]. eapply timed_fire; eauto.
Qed.

(** X4. No negative elapsed time under a clock that does not go back.  If
    the readings of [time.time()] at [run] and at the reactor turns that
    follow never decrease, then every [Result] of the run, completed or
    not, has [Elapsed >= 0], and none was started after the last reading. *)
Theorem Elapsed_is_not_negative
    (now requests concurrency : Z) (url : string) (timelimit : option Z) (auth : pystr)
    (es : list (Z * event)) (b b' : Bench) :
  monotone now es ->
  run now (Bench_init requests concurrency url timelimit auth) = Ok b ->
  fire_all es b = Some b' ->
  Forall (fun r => Result.Started r <= last_reading now es /\ 0 <= Result.Elapsed r)
         (Results b').
Proof.
  intros Hm Hrun Hf.
  assert (H0 : timed now (Bench_init requests concurrency url timelimit auth))
    by constructor.
  pose proof (timed_run now now _ (Z.le_refl now) H0) as H1.
  rewrite Hrun in H1. simpl in H1.
  exact (timed_fire_all es now b b' Hm H1 Hf).
Qed.

Lemma Elapsed_is_not_negative_witness :
  exists b b',
    monotone 10 [(12, Response 1 200); (15, Failed 0 "reset")]
    /\ run 10 (Bench_init 2 2 "http://localhost/" None (PyStr "")) = Ok b
    /\ fire_all [(12, Response 1 200); (15, Failed 0 "reset")] b = Some b'
    /\ Forall (fun r => Result.Started r <= 15 /\ 0 <= Result.Elapsed r) (Results b').
Proof.
  assert (Hm : monotone 10 [(12, Response 1 200); (15, Failed 0 "reset")])
    by (simpl; lia).
  destruct (fire_all [(12, Response 1 200); (15, Failed 0 "reset")]
              (state_of (run 10 (Bench_init 2 2 "http://localhost/" None (PyStr "")))))
    as [b'|] eqn:Hf; [|vm_compute in Hf; discriminate Hf].
  assert (Hrun : run 10 (Bench_init 2 2 "http://localhost/" None (PyStr ""))
                 = Ok (state_of (run 10 (Bench_init 2 2 "http://localhost/" None (PyStr "")))))
    by (vm_compute; reflexivity).
  exists (state_of (run 10 (Bench_init 2 2 "http://localhost/" None (PyStr "")))), b'.
  split; [exact Hm|]. split; [exact Hrun|]. split; [exact Hf|].
  exact (Elapsed_is_not_negative 10 2 2 "http://localhost/" None (PyStr "")
           _ _ b' Hm Hrun Hf).
Defined.

(** ** The requests of [main] *)

Lemma after_trans b0 b1 b2 : after b0 b1 -> after b1 b2 -> after b0 b2.
Proof. intros H1 H2. induction H2; eauto using after. Qed.

Lemma sends_after u h b0 b : sends u h b0 -> after b0 b -> sends u h b.
Proof.
  apply (preserved_after (sends u h)); unfold sends; try done.
  intros now agent b1 (HU & HH & HF). simpl. split; [exact HU|]. split; [exact HH|].
  apply Forall_app. split; [exact HF|]. repeat constructor; assumption.
Qed.

Lemma args_url_prefix url : String.prefix "http://" (args_url url) = true.
Proof.
  unfold args_url. destruct (String.prefix "http://" url) eqn:E; [exact E|].
  clear E. destruct url; reflexivity.
Qed.

Lemma args_url_idempotent url : args_url (args_url url) = args_url url.
Proof. unfold args_url at 1. rewrite args_url_prefix. reflexivity. Qed.

(** X5. What [main] sends.  The url handed to [run_test] starts with
    [http://]: a url that does so is kept, any other one (an [https://] url
    too) gets [http://] put in front of it, and a second pass changes
    nothing.  Every request of the run is a [GET] of that url, without
    body, with the single header [Authorization] holding [args.A]. *)
Theorem requests_of_main
    (now n c : Z) (url : string) (t : option Z) (A : option string) (b : Bench) :
  after (state_of (main now n c url t A)) b ->
  Forall (fun rq => rqMethod rq = "GET"%string
                    /\ rqUrl rq = args_url url
                    /\ rqHeaders rq = [("Authorization"%string, [args_A A])]
                    /\ rqBody rq = None)
         (Sent b)
  /\ String.prefix "http://" (args_url url) = true
  /\ (String.prefix "http://" url = true -> args_url url = url)
  /\ (String.prefix "http://" url = false -> args_url url = ("http://" ++ url)%string)
  /\ args_url (args_url url) = args_url url.
Proof.
  intros Ha.
  assert (H0 : sends (args_url url) [("Authorization"%string, [args_A A])]
                 (Bench_init n c (args_url url) t (args_A A)))
    by (repeat split; constructor).
  assert (Hb : after (Bench_init n c (args_url url) t (args_A A)) b).
  { eapply after_trans; [|exact Ha]. apply after_run, after_refl. }
  destruct (sends_after _ _ _ b H0 Hb) as (_ & _ & HF).
  split; [exact HF|]. split; [apply args_url_prefix|].
  split; [|split; [|apply args_url_idempotent]]; intros E; unfold args_url; rewrite E;
    reflexivity.
Qed.

Lemma requests_of_main_witness :
  after (state_of (main 0 2 1 "https://example.org/" None (Some "token")))
        (state_of (main 0 2 1 "https://example.org/" None (Some "token")))
  /\ Forall (fun rq => rqMethod rq = "GET"%string
                       /\ rqUrl rq = args_url "https://example.org/"
                       /\ rqHeaders rq = [("Authorization"%string, [PyStr "token"])]
                       /\ rqBody rq = None)
            (Sent (state_of (main 0 2 1 "https://example.org/" None (Some "token")))).
Proof.
  split; [apply after_refl|].
  exact (proj1 (requests_of_main 0 2 1 "https://example.org/" None (Some "token") _
                  (after_refl _))).
Defined.

(** ** Requests in flight and the pool of agents *)

Lemma tracked_ext b b' :
  Deferreds b' = Deferreds b -> ActiveQueries b' = ActiveQueries b ->
  tracked b -> tracked b'.
Proof. unfold tracked. intros -> ->. auto. Qed.

Lemma pooled_ext c b b' : Deferreds b' = Deferreds b -> pooled c b -> pooled c b'.
Proof. unfold pooled. intros ->. auto. Qed.

Lemma busy_ext c b b' : Deferreds b' = Deferreds b -> busy c b -> busy c b'.
Proof. unfold busy. intros ->. auto. Qed.

Lemma pinned_ext c b b' :
  Deferreds b' = Deferreds b -> ActiveQueries b' = ActiveQueries b ->
  (Stopped b' = false -> Stopped b = false) -> pinned c b -> pinned c b'.
Proof.
  intros HD HA HS (Ht & Hp & Hb).
  split; [eapply tracked_ext; eauto|]. split; [eapply pooled_ext; eauto|].
  intros H. eapply busy_ext; eauto.
Qed.

Lemma pinned_stop c b : pinned c b -> pinned c (stop b).
Proof.
  apply pinned_ext; [apply stop_Deferreds | apply stop_ActiveQueries |].
  rewrite stop_Stopped. discriminate.
Qed.

Lemma tracked_dispatch now a b : tracked b -> idle a b -> tracked (dispatch now a b).
Proof.
  intros Ht Hi. pose proof (tracked_issue now a b Ht Hi) as H.
  unfold dispatch. case_match; [|exact H].
  eapply tracked_ext; [apply stop_Deferreds | apply stop_ActiveQueries | exact H].
Qed.

(** A dispatch on an idle agent of the pool, all the others being busy. *)
Lemma dispatch_pinned c now a b :
  tracked b -> pooled c b -> idle a b -> (a < c)%nat ->
  (forall a', (a' < c)%nat -> a' <> a ->
     exists d df, Deferreds b !! d = Some df /\ dfCalled df = false /\ dfAgent df = a') ->
  tracked (dispatch now a b) /\ pooled c (dispatch now a b) /\ busy c (dispatch now a b).
Proof.
  intros Ht Hp Hi Ha Hothers.
  split; [apply tracked_dispatch; assumption|]. split.
  - intros d df. rewrite dispatch_Deferreds. intros Hl.
    apply lookup_app_Some in Hl as [Hl|[_ Hl]]; [exact (Hp d df Hl)|].
    destruct (d - length (Deferreds b))%nat; simpl in Hl; [|done].
    injection Hl as <-. exact Ha.
  - intros a' Ha'. rewrite dispatch_Deferreds.
    destruct (decide (a' = a)) as [->|Hne].
    + exists (length (Deferreds b)), (mkDeferred (length (Results b)) a false).
      split; [apply list_lookup_middle; reflexivity|]. auto.
    + destruct (Hothers a' Ha' Hne) as (d & df & Hl & Hc & Hag).
      exists d, df. split; [apply lookup_app_l_Some, Hl|]. auto.
Qed.

(** The fan-out puts one request in flight on each agent in turn. *)
Lemma fan_out_pinned now m :
  forall k b,
    tracked b -> pooled k b -> busy k b ->
    tracked (for_agents now (seq k m) b)
    /\ pooled (k + m) (for_agents now (seq k m) b)
    /\ busy (k + m) (for_agents now (seq k m) b).
Proof.
  induction m as [|m IH]; intros k b Ht Hp Hb.
  - rewrite Nat.add_0_r. auto.
  - cbn [seq]. rewrite for_agents_cons.
    assert (Hi : idle k b) by (intros d df Hl _ E; specialize (Hp d df Hl); lia).
    assert (Hp' : pooled (S k) b) by (intros d df Hl; specialize (Hp d df Hl); lia).
    assert (Ho : forall a', (a' < S k)%nat -> a' <> k ->
              exists d df, Deferreds b !! d = Some df /\ dfCalled df = false
                           /\ dfAgent df = a')
      by (intros a' H1 H2; apply Hb; lia).
    destruct (dispatch_pinned (S k) now k b Ht Hp' Hi (Nat.lt_succ_diag_r k) Ho)
      as (Ht1 & Hp1 & Hb1).
    replace (k + S m)%nat with (S k + m)%nat by lia.
    apply IH; assumption.
Qed.

Lemma run_pinned now requests concurrency url timelimit auth b :
  run now (Bench_init requests concurrency url timelimit auth) = Ok b ->
  pinned (Z.to_nat concurrency) b.
Proof.
  assert (H : forall b0, Deferreds b0 = [] -> Stopped b0 = false ->
            pinned (Z.to_nat concurrency) (_makeRequests now (range concurrency) b0)).
  { intros b0 HD HS. unfold _makeRequests. rewrite HS. unfold range.
    destruct (fan_out_pinned now (Z.to_nat concurrency) 0 b0) as (Ht & Hp & Hb).
    - intros d df Hl. rewrite HD in Hl. done.
    - intros d df Hl. rewrite HD in Hl. done.
    - intros a Ha. lia.
    - repeat split; auto. }
  unfold run. simpl Timelimit. repeat case_match; intros E; try discriminate E;
    injection E as <-; apply H; reflexivity.
Qed.

Lemma pooled_mark_called c d b : pooled c b -> pooled c (mark_called d b).
Proof.
  intros Hp k df. simpl. destruct (decide (k = d)) as [->|Hne].
  - rewrite list_lookup_alter_eq. destruct (Deferreds b !! d) as [df0|] eqn:E; [|done].
    intros [= <-]. simpl. exact (Hp d df0 E).
  - rewrite list_lookup_alter_ne by done. apply Hp.
Qed.

(** A completion keeps the pool pinned: its agent takes the next request,
    unless the bench has stopped. *)
Lemma handler_pinned c code now d df b :
  pinned c b -> Deferreds b !! d = Some df -> dfCalled df = false ->
  pinned c (handler code now (dfResult df) (dfAgent df) (mark_called d b)).
Proof.
  intros (Ht & Hp & Hb) Hd Hc.
  pose proof (tracked_mark_called d b Ht) as Ht1.
  pose proof (pooled_mark_called c d b Hp) as Hp1.
  unfold handler. rewrite makeRequests_one.
  change (Stopped (result_done code now (dfResult df) (mark_called d b)))
    with (Stopped b).
  destruct (Stopped b) eqn:HS.
  - split; [exact Ht1|]. split; [exact Hp1|]. simpl. congruence.
  - set (b2 := result_done code now (dfResult df) (mark_called d b)).
    assert (Ht2 : tracked b2) by exact Ht1.
    assert (Hp2 : pooled c b2) by exact Hp1.
    assert (Hi2 : idle (dfAgent df) b2) by (eapply idle_mark_called; eauto).
    assert (Ho : forall a', (a' < c)%nat -> a' <> dfAgent df ->
              exists d' df', Deferreds b2 !! d' = Some df' /\ dfCalled df' = false
                             /\ dfAgent df' = a').
    { intros a' Ha' Hne. destruct (Hb eq_refl a' Ha') as (d' & df' & Hl & Hc' & Hag).
      exists d', df'. split; [|auto]. subst b2. simpl.
      rewrite list_lookup_alter_ne; [exact Hl|]. intros ->. congruence. }
    destruct (dispatch_pinned c now (dfAgent df) b2 Ht2 Hp2 Hi2 (Hp d df Hd) Ho)
      as (Ht3 & Hp3 & Hb3).
    repeat split; auto.
Qed.

Lemma fire_pinned c now e b b' : pinned c b -> fire now e b = Some b' -> pinned c b'.
Proof.
  intros Hpin Hf. destruct e as [d code|d reason|]; simpl in Hf.
  - destruct (Deferreds b !! d) as [df|] eqn:Hd; [|discriminate].
    destruct (dfCalled df) eqn:Hc; [discriminate|]. injection Hf as <-.
    rewrite callback_handler.
    destruct (notify_frame d (handler (CodeInt code) now (dfResult df) (dfAgent df)
                                (mark_called d b)))
      as (HS & _ & _ & _ & HD & HA & _).
    eapply pinned_ext; [exact HD | exact HA | rewrite HS; auto |].
    eapply handler_pinned; eauto.
  - destruct (Deferreds b !! d) as [df|] eqn:Hd; [|discriminate].
    destruct (dfCalled df) eqn:Hc; [discriminate|]. injection Hf as <-.
    rewrite errback_handler.
    destruct (notify_frame d (handler (CodeFailure reason) now (dfResult df) (dfAgent df)
                                (mark_called d b)))
      as (HS & _ & _ & _ & HD & HA & _).
    eapply pinned_ext; [exact HD | exact HA | rewrite HS; auto |].
    eapply handler_pinned; eauto.
  - destruct (StopCall b) as [dc|]; [|discriminate].
    destruct (active dc); [|discriminate]. injection Hf as <-.
    apply pinned_stop. exact Hpin.
Qed.

Lemma fire_all_pinned c es b b' :
  pinned c b -> fire_all es b = Some b' -> pinned c b'.
Proof.
  revert b. induction es as [|[now e] es IH]; intros b Hp Hf; simpl in Hf.
  - injection Hf as <-. exact Hp.
  - destruct (fire now e b) as [b1|] eqn:E; [|discriminate].
    eapply IH; [|exact Hf]. eapply fire_pinned; eauto.
Qed.

Lemma occupied_spec b d : d ∈ occupied b <-> in_flight b d = true.
Proof.
  unfold occupied. rewrite list_elem_of_filter, elem_of_seq. split; [tauto|].
  intros H. split; [exact H|].
  apply in_flight_spec in H as (df & Hl & _). apply lookup_lt_Some in Hl. lia.
Qed.

Lemma occupied_agent b d :
  d ∈ occupied b ->
  exists df, Deferreds b !! d = Some df /\ dfCalled df = false
             /\ default 0%nat (agent_of b d) = dfAgent df.
Proof.
  intros H. apply occupied_spec, in_flight_spec in H as (df & Hl & Hc).
  exists df. split; [exact Hl|]. split; [exact Hc|].
  unfold agent_of. rewrite Hl. reflexivity.
Qed.

(** No more requests in flight than agents. *)
Lemma occupied_le c b : tracked b -> pooled c b -> (length (occupied b) <= c)%nat.
Proof.
  intros Ht Hp.
  set (f := fun d => default 0%nat (agent_of b d)).
  assert (HN : NoDup (f <$> occupied b)).
  { apply NoDup_fmap_2_strong; [|apply NoDup_filter, NoDup_seq].
    intros x y Hx Hy E.
    apply occupied_agent in Hx as (dx & Hlx & Hcx & Hfx).
    apply occupied_agent in Hy as (dy & Hly & Hcy & Hfy).
    subst f. simpl in E. rewrite Hfx, Hfy in E.
    pose proof (Ht x dx Hlx Hcx) as E1. pose proof (Ht y dy Hly Hcy) as E2.
    rewrite E in E1. congruence. }
  assert (HS : forall a, a ∈ f <$> occupied b -> a ∈ seq 0 c).
  { intros a Ha. apply list_elem_of_fmap in Ha as (d & -> & Hd).
    apply occupied_agent in Hd as (df & Hl & _ & Hf). subst f. simpl. rewrite Hf.
    apply elem_of_seq. specialize (Hp d df Hl). lia. }
  pose proof (submseteq_length _ _ (NoDup_submseteq _ _ HN HS)) as H.
  rewrite length_fmap, length_seq in H. exact H.
Qed.

(** As many requests in flight as agents, when all are busy. *)
Lemma occupied_ge c b : busy c b -> (c <= length (occupied b))%nat.
Proof.
  intros Hb.
  set (f := fun d => default 0%nat (agent_of b d)).
  assert (HS : forall a, a ∈ seq 0 c -> a ∈ f <$> occupied b).
  { intros a Ha. apply elem_of_seq in Ha.
    destruct (Hb a) as (d & df & Hl & Hc & Hag); [lia|].
    apply list_elem_of_fmap. exists d. split.
    - subst f. simpl. unfold agent_of. rewrite Hl. simpl. congruence.
    - apply occupied_spec, in_flight_spec. eauto. }
  pose proof (submseteq_length _ _ (NoDup_submseteq _ _ (NoDup_seq 0 c) HS)) as H.
  rewrite length_fmap, length_seq in H. exact H.
Qed.

(** X6. Bounded concurrency.  At every turn of a run, whatever the budget
    and the time limit, an agent has at most one request in flight, so no
    more than [concurrency] requests are in flight, and none when
    [concurrency < 1]. *)
Theorem at_most_concurrency_in_flight
    (now requests concurrency : Z) (url : string) (timelimit : option Z) (auth : pystr)
    (es : list (Z * event)) (b b' : Bench) :
  run now (Bench_init requests concurrency url timelimit auth) = Ok b ->
  fire_all es b = Some b' ->
  (length (occupied b') <= Z.to_nat concurrency)%nat
  /\ forall d1 d2 df1 df2,
       Deferreds b' !! d1 = Some df1 -> dfCalled df1 = false ->
       Deferreds b' !! d2 = Some df2 -> dfCalled df2 = false ->
       dfAgent df1 = dfAgent df2 -> d1 = d2.
Proof.
  intros Hrun Hf.
  pose proof (run_pinned now requests concurrency url timelimit auth b Hrun) as Hp.
  destruct (fire_all_pinned _ es b b' Hp Hf) as (Ht & Hpool & _).
  split; [apply occupied_le; assumption|].
  intros d1 d2 df1 df2 H1 C1 H2 C2 E.
  pose proof (Ht d1 df1 H1 C1) as E1. pose proof (Ht d2 df2 H2 C2) as E2.
  rewrite E in E1. congruence.
Qed.

Lemma at_most_concurrency_in_flight_witness :
  exists b b',
    run 0 (Bench_init 10 3 "http://localhost/" None (PyStr "")) = Ok b
    /\ fire_all [(1, Response 2 200); (2, Failed 0 "reset"); (3, Response 3 404)] b = Some b'
    /\ (length (occupied b') <= Z.to_nat 3)%nat.
Proof.
  destruct (fire_all [(1, Response 2 200); (2, Failed 0 "reset"); (3, Response 3 404)]
              (state_of (run 0 (Bench_init 10 3 "http://localhost/" None (PyStr "")))))
    as [b'|] eqn:Hf; [|vm_compute in Hf; discriminate Hf].
  assert (Hrun : run 0 (Bench_init 10 3 "http://localhost/" None (PyStr ""))
                 = Ok (state_of (run 0 (Bench_init 10 3 "http://localhost/" None (PyStr "")))))
    by (vm_compute; reflexivity).
  exists (state_of (run 0 (Bench_init 10 3 "http://localhost/" None (PyStr "")))), b'.
  split; [exact Hrun|]. split; [exact Hf|].
  exact (proj1 (at_most_concurrency_in_flight 0 10 3 "http://localhost/" None (PyStr "")
                  _ _ b' Hrun Hf)).
Defined.

(** X7. The pool is full until the bench stops.  At every turn of a run at
    which the bench has not stopped, each of the [concurrency] agents has a
    request in flight: exactly [concurrency] requests are in flight. *)
Theorem pool_is_full_until_stop
    (now requests concurrency : Z) (url : string) (timelimit : option Z) (auth : pystr)
    (es : list (Z * event)) (b b' : Bench) :
  run now (Bench_init requests concurrency url timelimit auth) = Ok b ->
  fire_all es b = Some b' ->
  Stopped b' = false ->
  length (occupied b') = Z.to_nat concurrency
  /\ forall a, (a < Z.to_nat concurrency)%nat ->
       exists d df, Deferreds b' !! d = Some df /\ dfCalled df = false /\ dfAgent df = a.
Proof.
  intros Hrun Hf HS.
  pose proof (run_pinned now requests concurrency url timelimit auth b Hrun) as Hp.
  destruct (fire_all_pinned _ es b b' Hp Hf) as (Ht & Hpool & Hb).
  specialize (Hb HS). split; [|exact Hb].
  apply Nat.le_antisymm; [apply occupied_le; assumption | apply occupied_ge, Hb].
Qed.

Lemma pool_is_full_until_stop_witness :
  exists b b',
    run 0 (Bench_init 10 3 "http://localhost/" None (PyStr "")) = Ok b
    /\ fire_all [(1, Response 2 200); (2, Failed 0 "reset")] b = Some b'
    /\ Stopped b' = false
    /\ length (occupied b') = Z.to_nat 3.
Proof.
  destruct (fire_all [(1, Response 2 200); (2, Failed 0 "reset")]
              (state_of (run 0 (Bench_init 10 3 "http://localhost/" None (PyStr "")))))
    as [b'|] eqn:Hf; [|vm_compute in Hf; discriminate Hf].
  exists (state_of (run 0 (Bench_init 10 3 "http://localhost/" None (PyStr "")))), b'.
  assert (HS : Stopped b' = false).
  { assert (E : Stopped <$> Some b' = Some false) by (rewrite <- Hf; vm_compute; reflexivity).
    injection E as E. exact E. }
  assert (Hrun : run 0 (Bench_init 10 3 "http://localhost/" None (PyStr ""))
                 = Ok (state_of (run 0 (Bench_init 10 3 "http://localhost/" None (PyStr "")))))
    by (vm_compute; reflexivity).
  split; [exact Hrun|]. split; [exact Hf|]. split; [exact HS|].
  exact (proj1 (pool_is_full_until_stop 0 10 3 "http://localhost/" None (PyStr "")
                  _ _ b' Hrun Hf HS)).
Defined.

(** ** How many requests a run sends *)

Lemma for_agents_QueriesMade now agents b :
  QueriesMade (for_agents now agents b) = QueriesMade b + Z.of_nat (length agents).
Proof.
  revert b. induction agents as [|a agents IH]; intros b; [cbn [for_agents length]; lia|].
  rewrite for_agents_cons, IH, dispatch_QueriesMade. cbn [length]. lia.
Qed.

(** The loop stops the bench when it reaches the budget, at the latest at
    its last dispatch. *)
Lemma for_agents_Stopped now agents b :
  agents <> [] -> Requests b <= QueriesMade b + Z.of_nat (length agents) ->
  Stopped (for_agents now agents b) = true.
Proof.
  revert b. induction agents as [|a agents IH]; intros b Hne Hle; [done|].
  rewrite for_agents_cons. destruct agents as [|a' agents].
  - cbn [for_agents]. rewrite dispatch_Stopped. cbn [length] in Hle.
    destruct (Z.leb_spec (Requests b) (QueriesMade b + 1)); [apply orb_true_r | lia].
  - apply IH; [done|]. rewrite dispatch_Requests, dispatch_QueriesMade.
    cbn [length] in *. lia.
Qed.

(** What [run] does to a new bench, when it returns. *)
Lemma run_init_shape now requests concurrency url timelimit auth b :
  run now (Bench_init requests concurrency url timelimit auth) = Ok b ->
  (forall t, timelimit = Some t -> 0 <= t)
  /\ exists b0,
       b = for_agents now (range concurrency) b0
       /\ Requests b0 = budget requests timelimit
       /\ QueriesMade b0 = 0.
Proof.
  intros Hrun. run_returned Hrun. revert Hrun.
  unfold budget. simpl Timelimit. destruct (truthy timelimit) eqn:E.
  - destruct timelimit as [t|]; [|discriminate E].
    unfold callLater. simpl default. destruct (Z.ltb_spec t 0) as [Hlt|Hge].
    + discriminate.
    + intros [= <-]. split; [intros t' [= <-]; exact Hge|].
      eexists. split; [reflexivity|]. split; reflexivity.
  - intros [= <-]. split.
    + intros t ->. simpl in E. apply negb_false_iff, Z.eqb_eq in E. lia.
    + eexists. split; [reflexivity|]. split; reflexivity.
Qed.

Lemma sent_is_counted b : reachable b -> Z.of_nat (length (Sent b)) = QueriesMade b.
Proof.
  intros Hb. destruct (in_step_reachable b Hb) as (HR & _ & _).
  pose proof (counted_reachable b Hb) as HC. unfold counted in HC. lia.
Qed.

(** X8. The number of requests of a run.  A run with at least one agent
    never sends more than [max(budget, concurrency)] requests, where the
    budget is [requests], or 5000 under a time limit; [QueriesMade] is the
    number of requests sent.  Without a time limit the bench is stopped
    exactly when it has sent [max(requests, concurrency)] requests: the
    fan-out alone sends [concurrency] of them, whatever [requests] is. *)
Theorem requests_sent_by_a_run
    (now requests concurrency : Z) (url : string) (timelimit : option Z) (auth : pystr)
    (es : list (Z * event)) (b b' : Bench) :
  1 <= concurrency ->
  run now (Bench_init requests concurrency url timelimit auth) = Ok b ->
  fire_all es b = Some b' ->
  QueriesMade b' <= Z.max (budget requests timelimit) concurrency
  /\ Z.of_nat (length (Sent b')) = QueriesMade b'
  /\ (timelimit = None ->
        (Stopped b' = true <-> QueriesMade b' = Z.max requests concurrency)).
Proof.
  intros Hc Hrun Hf.
  destruct (run_init_shape _ _ _ _ _ _ _ Hrun) as (Ht & b0 & Hb & HR0 & HQ0).
  assert (Hreach : reachable b').
  { eapply fire_all_reachable; [|exact Hf].
    replace b with (state_of (run now (Bench_init requests concurrency url timelimit auth)))
      by (rewrite Hrun; reflexivity).
    apply run_reachable. }
  split; [|split; [apply sent_is_counted, Hreach|]].
  - destruct (Z.le_gt_cases concurrency (budget requests timelimit)) as [Hle|Hgt].
    + destruct (run_orderly now requests concurrency url timelimit auth
                  (run_Ok_parsed _ _ _ Hrun) Ht) as
        (b1 & Hrun1 & Ho & HR & _); [lia | exact Hle |].
      rewrite Hrun in Hrun1. injection Hrun1 as <-.
      pose proof (fire_all_orderly es b b' Ho Hf) as Ho'.
      destruct (fire_all_budget es b b' Hf) as [HR' _]. rewrite HR in HR'.
      destruct Ho' as [(_ & _ & _ & _ & HQ)|(_ & _ & _ & HQ & _)]; lia.
    + assert (HS : Stopped b = true).
      { rewrite Hb. apply for_agents_Stopped.
        - unfold range. destruct (Z.to_nat concurrency) eqn:E; [lia | discriminate].
        - rewrite HR0, HQ0, range_length. lia. }
      destruct (fire_all_stopped es b b' HS Hf) as (_ & _ & _ & ->).
      rewrite Hb, for_agents_QueriesMade, HQ0, range_length. lia.
  - intros ->. unfold budget in *. simpl in *.
    destruct (Z.le_gt_cases concurrency requests) as [Hle|Hgt].
    + destruct (budget_met_when_resolved now requests concurrency url auth es b b')
        as (_ & Hiff & _); [lia | exact Hle | exact Hrun | exact Hf |].
      rewrite Z.max_l by lia. exact Hiff.
    + assert (HS : Stopped b = true).
      { rewrite Hb. apply for_agents_Stopped.
        - unfold range. destruct (Z.to_nat concurrency) eqn:E; [lia | discriminate].
        - rewrite HR0, HQ0, range_length. lia. }
      destruct (fire_all_stopped es b b' HS Hf) as (HS' & _ & _ & HQ).
      rewrite HS', HQ, Hb, for_agents_QueriesMade, HQ0, range_length.
      split; [intros _; lia | reflexivity].
Qed.

Lemma requests_sent_by_a_run_witness :
  exists b b',
    1 <= 3
    /\ run 0 (Bench_init 2 3 "http://localhost/" None (PyStr "")) = Ok b
    /\ fire_all [(1, Response 0 200)] b = Some b'
    /\ QueriesMade b' <= Z.max (budget 2 None) 3.
Proof.
  destruct (fire_all [(1, Response 0 200)]
              (state_of (run 0 (Bench_init 2 3 "http://localhost/" None (PyStr "")))))
    as [b'|] eqn:Hf; [|vm_compute in Hf; discriminate Hf].
  assert (Hrun : run 0 (Bench_init 2 3 "http://localhost/" None (PyStr ""))
                 = Ok (state_of (run 0 (Bench_init 2 3 "http://localhost/" None (PyStr "")))))
    by (vm_compute; reflexivity).
  assert (Hc : 1 <= 3) by lia.
  exists (state_of (run 0 (Bench_init 2 3 "http://localhost/" None (PyStr "")))), b'.
  split; [exact Hc|]. split; [exact Hrun|]. split; [exact Hf|].
  exact (proj1 (requests_sent_by_a_run 0 2 3 "http://localhost/" None (PyStr "")
                  _ _ b' Hc Hrun Hf)).
Defined.

(** ** When the run deferred gets its value *)

Lemma resolved_ext b b' : RunDeferred b' = RunDeferred b -> resolved b' = resolved b.
Proof. unfold resolved. intros ->. reflexivity. Qed.

Lemma done_resolved b : RunDeferred b <> None -> resolved (_done b) = true.
Proof.
  intros H. unfold _done, resolved.
  destruct (RunDeferred b) as [[[]]|] eqn:E; simpl; rewrite ?E; done.
Qed.

Lemma done_RunDeferred_Some b : RunDeferred b <> None -> RunDeferred (_done b) <> None.
Proof.
  intros H. unfold _done.
  destruct (RunDeferred b) as [[[]]|] eqn:E; simpl; rewrite ?E; done.
Qed.

Lemma done_resolved_mono b : resolved b = true -> resolved (_done b) = true.
Proof.
  unfold _done, resolved.
  destruct (RunDeferred b) as [[[]]|] eqn:E; simpl; rewrite ?E; done.
Qed.

Lemma stop_resolved_mono b : resolved b = true -> resolved (stop b) = true.
Proof.
  intros H. unfold resolved. rewrite stop_RunDeferred.
  destruct (waiting b); [apply done_resolved_mono, H | exact H].
Qed.

Lemma stop_RunDeferred_Some b : RunDeferred b <> None -> RunDeferred (stop b) <> None.
Proof.
  intros H. rewrite stop_RunDeferred.
  destruct (waiting b); [apply done_RunDeferred_Some, H | exact H].
Qed.

Lemma waits_stop skip b : waits skip b -> waits skip (stop b).
Proof.
  intros (W1 & W2 & W3 & W4 & W5). unfold waits.
  rewrite stop_Stopped, stop_DrainLists.
  split; [apply stop_RunDeferred_Some, W1|].
  split; [discriminate|]. split; [intros _; destruct (DrainLists b); discriminate|].
  split.
  - intros dl d Hdl Hd. rewrite (in_flight_ext b (stop b)) by apply stop_Deferreds.
    apply elem_of_app in Hdl as [Hdl|Hdl]; [eauto|].
    apply list_elem_of_singleton in Hdl as ->. simpl in Hd.
    unfold waiting in Hd. apply list_elem_of_filter in Hd as [Hd _]. left. exact Hd.
  - intros dl Hdl Hnil. apply elem_of_app in Hdl as [Hdl|Hdl].
    + apply stop_resolved_mono. eauto.
    + apply list_elem_of_singleton in Hdl as ->. simpl in Hnil.
      unfold resolved. rewrite stop_RunDeferred, Hnil. apply done_resolved, W1.
Qed.

Lemma waits_issue skip now a b : waits skip b -> waits skip (issue now a b).
Proof.
  intros (W1 & W2 & W3 & W4 & W5). unfold waits.
  split; [exact W1|]. split; [exact W2|]. split; [exact W3|]. split; [|exact W5].
  intros dl d Hdl Hd. destruct (W4 dl d Hdl Hd) as [H|H]; [left | right; exact H].
  rewrite in_flight_issue_old; [exact H|].
  apply in_flight_spec in H as (df & Hl & _). apply lookup_lt_Some in Hl. exact Hl.
Qed.

Lemma waits_dispatch skip now a b : waits skip b -> waits skip (dispatch now a b).
Proof.
  intros H. unfold dispatch. case_match; [apply waits_stop|]; apply waits_issue, H.
Qed.

Lemma waits_for_agents skip now agents b :
  waits skip b -> waits skip (for_agents now agents b).
Proof.
  revert b. induction agents as [|a agents IH]; intros b H; [exact H|].
  rewrite for_agents_cons. apply IH, waits_dispatch, H.
Qed.

Lemma waits_makeRequests skip now agents b :
  waits skip b -> waits skip (_makeRequests now agents b).
Proof.
  intros H. unfold _makeRequests. destruct (Stopped b); [exact H|].
  apply waits_for_agents, H.
Qed.

Lemma waits_mark_called d b : waits None b -> waits (Some d) (mark_called d b).
Proof.
  intros (W1 & W2 & W3 & W4 & W5). unfold waits.
  split; [exact W1|]. split; [exact W2|]. split; [exact W3|]. split; [|exact W5].
  intros dl k Hdl Hk. destruct (W4 dl k Hdl Hk) as [H|H]; [|discriminate H].
  rewrite in_flight_mark_called, H. destruct (decide (k = d)) as [->|Hne].
  - right. reflexivity.
  - left. rewrite bool_decide_eq_false_2 by exact Hne. reflexivity.
Qed.

Lemma fire_lists_dls d dls b :
  (fire_lists d dls b).1 =
  (fun dl => mkDeferredList (filter (λ x, x ≠ d) (dlPending dl))) <$> dls.
Proof.
  revert b. induction dls as [|dl dls IH]; intros b; simpl; [reflexivity|].
  match goal with |- context [fire_lists d dls ?x] => specialize (IH x) end.
  destruct (fire_lists d dls _) as [dls' b']. simpl in *. rewrite IH. reflexivity.
Qed.

(** The run deferred through the callbacks of the drain lists. *)
Lemma fire_lists_resolved d dls b :
  RunDeferred b <> None ->
  RunDeferred (fire_lists d dls b).2 <> None
  /\ (resolved b = true -> resolved (fire_lists d dls b).2 = true)
  /\ (forall dl, dl ∈ dls -> d ∈ dlPending dl ->
        filter (λ x, x ≠ d) (dlPending dl) = [] ->
        resolved (fire_lists d dls b).2 = true).
Proof.
  revert b. induction dls as [|dl dls IH]; intros b HR; simpl.
  - split; [exact HR|]. split; [auto|]. intros dl Hdl. apply elem_of_nil in Hdl. done.
  - match goal with |- context [fire_lists d dls ?x] => set (b1 := x) end.
    assert (HR1 : RunDeferred b1 <> None)
      by (subst b1; case_match; [apply done_RunDeferred_Some, HR | exact HR]).
    assert (Hmono : resolved b = true -> resolved b1 = true)
      by (subst b1; case_match; [apply done_resolved_mono | auto]).
    destruct (IH b1 HR1) as (I1 & I2 & I3).
    destruct (fire_lists d dls b1) as [dls' b2]. simpl in *.
    split; [exact I1|]. split; [auto|].
    intros dl0 Hdl Hd Hnil. apply elem_of_cons in Hdl as [->|Hdl]; [|eauto].
    apply I2. subst b1.
    rewrite (bool_decide_eq_true_2 _ Hd), (bool_decide_eq_true_2 _ Hnil). simpl.
    apply done_resolved, HR.
Qed.

Lemma waits_notify d b : waits (Some d) b -> waits None (notify d b).
Proof.
  intros (W1 & W2 & W3 & W4 & W5).
  pose proof (fire_lists_dls d (DrainLists b) b) as Hdls.
  pose proof (fire_lists_frame d (DrainLists b) b) as Hfr.
  pose proof (fire_lists_resolved d (DrainLists b) b W1) as (R1 & R2 & R3).
  unfold notify. destruct (fire_lists d (DrainLists b) b) as [dls b1] eqn:E.
  simpl in *. destruct Hfr as (HS & _ & _ & _ & HD & _). subst dls.
  unfold waits. simpl. rewrite HS.
  split; [exact R1|]. split; [|split; [|split]].
  - intros H. destruct (W2 H) as [Hnil Hres]. rewrite Hnil in *. split; [reflexivity|].
    simpl in E. injection E as <-. exact Hres.
  - intros H. specialize (W3 H). destruct (DrainLists b); [done | discriminate].
  - intros dl k Hdl Hk. left.
    apply list_elem_of_fmap in Hdl as (dl0 & -> & Hdl0). simpl in Hk.
    apply list_elem_of_filter in Hk as [Hne Hk].
    rewrite (in_flight_ext b) by exact HD.
    destruct (W4 dl0 k Hdl0 Hk) as [H|H]; [exact H | congruence].
  - intros dl Hdl Hnil.
    apply list_elem_of_fmap in Hdl as (dl0 & -> & Hdl0). simpl in Hnil.
    destruct (decide (d ∈ dlPending dl0)) as [Hd|Hd].
    + exact (R3 dl0 Hdl0 Hd Hnil).
    + rewrite (filter_other d _ Hd) in Hnil. apply R2. eauto.
Qed.

Lemma waits_handler code now d df b :
  waits None b ->
  waits None (notify d (handler code now (dfResult df) (dfAgent df) (mark_called d b))).
Proof.
  intros H. apply waits_notify. unfold handler. apply waits_makeRequests.
  exact (waits_mark_called d b H).
Qed.

Lemma fire_waits now e b b' : waits None b -> fire now e b = Some b' -> waits None b'.
Proof.
  intros H Hf. destruct e as [d code|d reason|]; simpl in Hf.
  - destruct (Deferreds b !! d) as [df|]; [|discriminate].
    destruct (dfCalled df); [discriminate|]. injection Hf as <-.
    rewrite callback_handler. apply waits_handler, H.
  - destruct (Deferreds b !! d) as [df|]; [|discriminate].
    destruct (dfCalled df); [discriminate|]. injection Hf as <-.
    rewrite errback_handler. apply waits_handler, H.
  - destruct (StopCall b) as [dc|]; [|discriminate].
    destruct (active dc); [|discriminate]. injection Hf as <-.
    apply waits_stop. exact H.
Qed.

Lemma fire_all_waits es b b' : waits None b -> fire_all es b = Some b' -> waits None b'.
Proof.
  revert b. induction es as [|[now e] es IH]; intros b H Hf; simpl in Hf.
  - injection Hf as <-. exact H.
  - destruct (fire now e b) as [b1|] eqn:E; [|discriminate].
    eapply IH; [|exact Hf]. eapply fire_waits; eauto.
Qed.

Lemma run_waits now requests concurrency url timelimit auth b :
  run now (Bench_init requests concurrency url timelimit auth) = Ok b ->
  waits None b.
Proof.
  assert (H : forall agents b0,
            RunDeferred b0 = Some (mkRunDeferred false) -> Stopped b0 = false ->
            DrainLists b0 = [] -> waits None (_makeRequests now agents b0)).
  { intros agents b0 HR HS HD. apply waits_makeRequests. unfold waits, resolved.
    rewrite HR, HS, HD. split; [done|]. split; [done|]. split; [done|].
    split; [intros dl d Hdl | intros dl Hdl]; apply elem_of_nil in Hdl; done. }
  unfold run. simpl Timelimit. repeat case_match; intros E; try discriminate E;
    injection E as <-; apply H; reflexivity.
Qed.

(** X9. The run deferred and the drain, in every run.  Whatever the budget,
    the pool and the time limit, the deferred of a run never gets its value
    before the bench has stopped, and it has its value as soon as the bench
    has stopped and no request is in flight: a run whose requests all
    complete does end. *)
Theorem run_ends_when_drained
    (now requests concurrency : Z) (url : string) (timelimit : option Z) (auth : pystr)
    (es : list (Z * event)) (b b' : Bench) :
  run now (Bench_init requests concurrency url timelimit auth) = Ok b ->
  fire_all es b = Some b' ->
  (resolved b' = true -> Stopped b' = true)
  /\ (Stopped b' = true -> occupied b' = [] -> resolved b' = true).
Proof.
  intros Hrun Hf.
  pose proof (run_waits _ _ _ _ _ _ _ Hrun) as Hw.
  destruct (fire_all_waits es b b' Hw Hf) as (W1 & W2 & W3 & W4 & W5).
  split.
  - intros Hres. destruct (Stopped b') eqn:HS; [reflexivity|].
    destruct (W2 eq_refl) as [_ H]. congruence.
  - intros HS Hocc. specialize (W3 HS).
    destruct (DrainLists b') as [|dl dls] eqn:E; [done|].
    apply (W5 dl); [left|].
    destruct (dlPending dl) as [|d w] eqn:Ep; [reflexivity|].
    destruct (W4 dl d) as [H|H]; [left | rewrite Ep; left | | discriminate H].
    apply occupied_nil with (d := d) in Hocc. congruence.
Qed.

Lemma run_ends_when_drained_witness :
  exists b b',
    run 0 (Bench_init 1 2 "http://localhost/" None (PyStr "")) = Ok b
    /\ fire_all [(1, Response 1 200); (2, Response 0 200)] b = Some b'
    /\ (Stopped b' = true -> occupied b' = [] -> resolved b' = true).
Proof.
  destruct (fire_all [(1, Response 1 200); (2, Response 0 200)]
              (state_of (run 0 (Bench_init 1 2 "http://localhost/" None (PyStr "")))))
    as [b'|] eqn:Hf; [|vm_compute in Hf; discriminate Hf].
  assert (Hrun : run 0 (Bench_init 1 2 "http://localhost/" None (PyStr ""))
                 = Ok (state_of (run 0 (Bench_init 1 2 "http://localhost/" None (PyStr "")))))
    by (vm_compute; reflexivity).
  exists (state_of (run 0 (Bench_init 1 2 "http://localhost/" None (PyStr "")))), b'.
  split; [exact Hrun|]. split; [exact Hf|].
  exact (proj2 (run_ends_when_drained 0 1 2 "http://localhost/" None (PyStr "")
                  _ _ b' Hrun Hf)).
Defined.

(** ** The summary *)

Lemma foldl_min_spec (l : list Z) : forall x,
  foldl Z.min x l <= x
  /\ Forall (fun y => foldl Z.min x l <= y) l
  /\ foldl Z.min x l ∈ x :: l.
Proof.
  induction l as [|y l IH]; intros x; simpl.
  - split; [lia|]. split; [constructor | left].
  - destruct (IH (Z.min x y)) as (H1 & H2 & H3).
    split; [lia|]. split; [constructor; [lia | exact H2]|].
    apply elem_of_cons in H3 as [H3|H3]; [|right; right; exact H3].
    rewrite H3. destruct (Z.min_spec x y) as [[_ ->]|[_ ->]]; [left | right; left].
Qed.

Lemma foldl_max_spec (l : list Z) : forall x,
  x <= foldl Z.max x l
  /\ Forall (fun y => y <= foldl Z.max x l) l
  /\ foldl Z.max x l ∈ x :: l.
Proof.
  induction l as [|y l IH]; intros x; simpl.
  - split; [lia|]. split; [constructor | left].
  - destruct (IH (Z.max x y)) as (H1 & H2 & H3).
    split; [lia|]. split; [constructor; [lia | exact H2]|].
    apply elem_of_cons in H3 as [H3|H3]; [|right; right; exact H3].
    rewrite H3. destruct (Z.max_spec x y) as [[_ ->]|[_ ->]]; [right; left | left].
Qed.

Lemma py_min_spec (l : list Z) (m : Z) :
  py_min l = inr m -> Forall (fun y => m <= y) l /\ m ∈ l.
Proof.
  destruct l as [|x l]; [discriminate|]. intros [= <-].
  destruct (foldl_min_spec l x) as (H1 & H2 & H3). split; [constructor|]; assumption.
Qed.

Lemma py_max_spec (l : list Z) (m : Z) :
  py_max l = inr m -> Forall (fun y => y <= m) l /\ m ∈ l.
Proof.
  destruct l as [|x l]; [discriminate|]. intros [= <-].
  destruct (foldl_max_spec l x) as (H1 & H2 & H3). split; [constructor|]; assumption.
Qed.

(** [summary] on a list that is not empty. *)
Lemma summary_cons (r : Result.t) (rs : list Result.t) :
  exists start longest_ stop avg,
    py_min (Result.Started <$> r :: rs) = inr start
    /\ py_max (Result.Elapsed <$> r :: rs) = inr longest_
    /\ py_max (Result.Finished <$> r :: rs) = inr stop
    /\ summary (r :: rs) =
         match py_div (Z.of_nat (length (r :: rs))) (stop - start) with
         | inl e => inl e
         | inr per => inr (mkSummary start longest_ avg stop (stop - start) per
                             (count_errors (r :: rs) 0))
         end.
Proof.
  unfold summary. rewrite !fmap_cons. unfold py_min, py_max.
  assert (E : py_div (py_sum (Result.Elapsed r :: (Result.Elapsed <$> rs)))
                (Z.of_nat (length (r :: rs)))
              = inr (inject_Z (py_sum (Result.Elapsed r :: (Result.Elapsed <$> rs)))
                     / inject_Z (Z.of_nat (length (r :: rs))))%Q).
  { unfold py_div. destruct (Z.eqb_spec (Z.of_nat (length (r :: rs))) 0) as [H|_];
      [simpl in H; lia | reflexivity]. }
  rewrite E. do 4 eexists. repeat split; reflexivity.
Qed.

Lemma in_fmap_Forall {A} (f : A -> Z) (P : Z -> Prop) (l : list A) :
  Forall P (f <$> l) -> Forall (fun x => P (f x)) l.
Proof.
  induction l as [|x l IH]; intros H; [constructor|].
  rewrite fmap_cons in H. apply Forall_cons in H as [H1 H2]. constructor; auto.
Qed.

(** X10. When [summary] gets to [reactor.stop()].  On an empty list of
    results [summary] raises [ValueError] at its first statement; on a list
    whose latest [Finished] equals its earliest [Started] it raises
    [ZeroDivisionError] when it computes the requests per second.  In both
    cases [reactor.stop()] is not reached.  In every other case it gets
    there, with the earliest [Started], the longest [Elapsed] and the latest
    [Finished] of the list, each taken from one of its results. *)
Theorem summary_outcome (results : list Result.t) :
  (results = [] -> summary results = inl ValueError)
  /\ match summary results with
     | inl ValueError => results = []
     | inl ZeroDivisionError =>
         exists t, py_min (Result.Started <$> results) = inr t
                   /\ py_max (Result.Finished <$> results) = inr t
     | inr s =>
         Forall (fun r => start_time s <= Result.Started r
                          /\ Result.Elapsed r <= longest s
                          /\ Result.Finished r <= stop_time s) results
         /\ start_time s ∈ Result.Started <$> results
         /\ longest s ∈ Result.Elapsed <$> results
         /\ stop_time s ∈ Result.Finished <$> results
         /\ elapsed_time s = stop_time s - start_time s
         /\ elapsed_time s <> 0
     end.
Proof.
  split; [intros ->; reflexivity|].
  destruct results as [|r rs]; [reflexivity|].
  destruct (summary_cons r rs) as (start & lg & stop & avg & Hmin & Hlg & Hstop & ->).
  destruct (py_min_spec _ _ Hmin) as [Hmin1 Hmin2].
  destruct (py_max_spec _ _ Hlg) as [Hlg1 Hlg2].
  destruct (py_max_spec _ _ Hstop) as [Hstop1 Hstop2].
  unfold py_div. destruct (Z.eqb_spec (stop - start) 0) as [E|E].
  - exists start. split; [exact Hmin|]. rewrite Hstop. f_equal. lia.
  - simpl. split; [|auto].
    apply in_fmap_Forall in Hmin1, Hlg1, Hstop1.
    rewrite Forall_forall in *. intros x Hx. auto.
Qed.

Lemma not_200_spec (c : pycode) : not_200 c = true <-> c <> CodeInt 200.
Proof.
  destruct c as [code|reason]; simpl.
  - rewrite negb_true_iff, Z.eqb_neq. split; [congruence|]. intros H E. apply H.
    rewrite E. reflexivity.
  - split; [discriminate | reflexivity].
Qed.

Lemma count_errors_spec (results : list Result.t) : forall n,
  count_errors results n
  = n + Z.of_nat (length (filter (fun r => Result.Code r <> CodeInt 200) results)).
Proof.
  induction results as [|r rs IH]; intros n; simpl; [lia|].
  rewrite IH, filter_cons.
  destruct (decide (Result.Code r <> CodeInt 200)) as [H|H].
  - apply not_200_spec in H. rewrite H. simpl. lia.
  - destruct (not_200 (Result.Code r)) eqn:E; [|lia].
    apply not_200_spec in E. contradiction.
Qed.

(** X11. The errors of the summary.  The number that [summary] prints as
    total errors is the number of results whose [Code] is not the integer
    200: the failures, the other status codes, and the results of requests
    that never completed, whose [Code] is still 0.  With the results whose
    [Code] is 200 they make up the whole list. *)
Theorem summary_counts_errors (results : list Result.t) :
  count_errors results 0
  = Z.of_nat (length (filter (fun r => Result.Code r <> CodeInt 200) results))
  /\ count_errors results 0
     + Z.of_nat (length (filter (fun r => Result.Code r = CodeInt 200) results))
     = Z.of_nat (length results)
  /\ (forall now reason,
        count_errors (Result.done (CodeFailure reason) false now Result.init :: results) 0
        = count_errors results 0 + 1)
  /\ (forall now,
        count_errors (Result.start now Result.init :: results) 0
        = count_errors results 0 + 1)
  /\ match summary results with
     | inr s => errors s = count_errors results 0
     | inl _ => True
     end.
Proof.
  pose proof (count_errors_spec results 0) as H. simpl in H.
  split; [exact H|]. split; [|split; [|split]].
  - rewrite H. clear H. induction results as [|r rs IH]; [reflexivity|].
    rewrite !filter_cons.
    destruct (decide (Result.Code r <> CodeInt 200)) as [Hne|He];
      destruct (decide (Result.Code r = CodeInt 200)) as [He'|Hne'];
      simpl length; try lia; contradiction.
  - intros now reason. simpl. rewrite !count_errors_spec. lia.
  - intros now. simpl. rewrite !count_errors_spec. lia.
  - destruct results as [|r rs]; [exact I|].
    destruct (summary_cons r rs) as (start & lg & stop & avg & _ & _ & _ & ->).
    destruct (py_div _ _); [exact I | reflexivity].
Qed.

(** ** Runs that send nothing *)

(** X12. An empty pool under a time limit.  With [concurrency < 1], a
    time limit and a url that [urlparse] accepts, [run] sends nothing and
    arms the timer; when the timer comes due, [stop] finds no request to
    wait for, so the deferred of the run gets its value at once, which is
    the empty list of results, and [summary] raises [ValueError] on it
    before it gets to [reactor.stop()]. *)
Theorem empty_pool_under_a_time_limit
    (now requests concurrency : Z) (url : string) (t : Z) (auth : pystr) :
  parseURL url = None -> concurrency < 1 -> 0 < t ->
  exists b b',
    run now (Bench_init requests concurrency url (Some t) auth) = Ok b
    /\ Sent b = [] /\ resolved b = false
    /\ (forall now', fire now' Timer b = Some b')
    /\ resolved b' = true
    /\ Results b' = []
    /\ summary (Results b') = inl ValueError.
Proof.
  intros Hp Hc Ht.
  assert (En : range concurrency = []).
  { unfold range. replace (Z.to_nat concurrency) with 0%nat by lia. reflexivity. }
  set (b0 := set_StopCall (Some (mkDelayedCall t false false))
               (set_Requests 5000
                  (set_RunDeferred (Some (mkRunDeferred false))
                     (Bench_init requests concurrency url (Some t) auth)))).
  assert (Hrun : run now (Bench_init requests concurrency url (Some t) auth) = Ok b0).
  { rewrite run_parsed by exact Hp. cbv zeta.
    simpl Timelimit. unfold truthy, callLater. simpl default.
    destruct (Z.eqb_spec t 0) as [?|_]; [lia|]. simpl negb. cbv iota.
    destruct (Z.ltb_spec t 0) as [?|_]; [lia|].
    unfold _makeRequests. simpl Stopped. cbv iota. simpl Agents. rewrite En.
    reflexivity. }
  set (b1 := set_StopCall (Some (called (mkDelayedCall t false false))) b0).
  exists b0, (stop b1).
  split; [exact Hrun|]. split; [reflexivity|]. split; [reflexivity|].
  split; [intros now'; reflexivity|].
  assert (Hw : waiting b1 = []) by (apply waiting_empty; reflexivity).
  split; [|split].
  - unfold resolved. rewrite stop_RunDeferred, Hw. reflexivity.
  - rewrite stop_Results. reflexivity.
  - rewrite stop_Results. reflexivity.
Qed.

Lemma empty_pool_under_a_time_limit_witness :
  parseURL "http://localhost/" = None /\ 0 < 1 /\ 0 < 30
  /\ exists b b',
    run 0 (Bench_init 100 0 "http://localhost/" (Some 30) (PyStr "")) = Ok b
    /\ Sent b = [] /\ resolved b = false
    /\ (forall now', fire now' Timer b = Some b')
    /\ resolved b' = true
    /\ Results b' = []
    /\ summary (Results b') = inl ValueError.
Proof.
  assert (Hp : parseURL "http://localhost/" = None) by reflexivity.
  assert (H1 : 0 < 1) by lia. assert (H2 : 0 < 30) by lia.
  split; [exact Hp|]. split; [exact H1|]. split; [exact H2|].
  exact (empty_pool_under_a_time_limit 0 100 0 "http://localhost/" 30 (PyStr "")
           Hp H1 H2).
Defined.

(** No turn of the reactor can happen in a bench without request in flight
    and without pending timer. *)
Lemma fire_none now e b :
  occupied b = [] -> (forall dc, StopCall b = Some dc -> active dc = false) ->
  fire now e b = None.
Proof.
  intros Hocc HT. pose proof (proj1 (occupied_nil b) Hocc) as Hfl.
  destruct e as [d code|d reason|]; simpl.
  - specialize (Hfl d). unfold in_flight in Hfl.
    destruct (Deferreds b !! d) as [df|]; [|reflexivity].
    destruct (dfCalled df); [reflexivity | discriminate Hfl].
  - specialize (Hfl d). unfold in_flight in Hfl.
    destruct (Deferreds b !! d) as [df|]; [|reflexivity].
    destruct (dfCalled df); [reflexivity | discriminate Hfl].
  - destruct (StopCall b) as [dc|] eqn:E; [|reflexivity].
    rewrite (HT dc eq_refl). reflexivity.
Qed.

(** With no request in flight, [stop] has nothing to wait for. *)
Lemma waiting_idle b : occupied b = [] -> waiting b = [].
Proof.
  intros H. pose proof (proj1 (occupied_nil b) H) as Hfl. unfold waiting.
  induction ((map_to_list (ActiveQueries b)).*2) as [|d l IH]; [reflexivity|].
  rewrite filter_cons. destruct (decide (in_flight b d = true)) as [E|_]; [|exact IH].
  rewrite Hfl in E. discriminate E.
Qed.

(** X13. A bench is for one run.  On a bench that has stopped, with no
    request in flight, no pending timer, no time limit and a url that
    [urlparse] accepts, a further call of [run] returns a new deferred and
    sends nothing.  No turn of the reactor can happen afterwards, so
    nothing that the run itself does gives that deferred a value: it gets
    one only if [stop] is called again from outside, and then at once, with
    the results of the first run. *)
Theorem run_again_waits_for_stop (now : Z) (b : Bench) :
  parseURL (Url b) = None ->
  Stopped b = true -> occupied b = [] ->
  (forall dc, StopCall b = Some dc -> active dc = false) ->
  truthy (Timelimit b) = false ->
  exists b1,
    run now b = Ok b1
    /\ Sent b1 = Sent b /\ Results b1 = Results b
    /\ resolved b1 = false
    /\ (forall now' e, fire now' e b1 = None)
    /\ (forall es b2, fire_all es b1 = Some b2 -> b2 = b1)
    /\ resolved (stop b1) = true
    /\ Results (stop b1) = Results b
    /\ Sent (stop b1) = Sent b.
Proof.
  intros Hp HS Hocc HT Htl.
  set (b1 := set_RunDeferred (Some (mkRunDeferred false)) b).
  assert (Hrun : run now b = Ok b1).
  { rewrite run_parsed by exact Hp. cbv zeta.
    simpl Timelimit. rewrite Htl. unfold _makeRequests. simpl Stopped.
    rewrite HS. reflexivity. }
  assert (Hnone : forall now' e, fire now' e b1 = None).
  { intros now' e. apply fire_none; [exact Hocc | exact HT]. }
  exists b1. split; [exact Hrun|]. split; [reflexivity|]. split; [reflexivity|].
  split; [reflexivity|]. split; [exact Hnone|].
  split.
  { intros [|[now' e] es] b2; simpl; [congruence|]. rewrite Hnone. discriminate. }
  split; [|split; [rewrite stop_Results | rewrite stop_Sent]; reflexivity].
  assert (Hw : waiting b1 = []) by (apply (waiting_idle b1); exact Hocc).
  unfold resolved. rewrite stop_RunDeferred, Hw.
  rewrite (done_RunDeferred_fresh b1 eq_refl). reflexivity.
Qed.

Lemma run_again_waits_for_stop_witness :
  let b := default (scenario 1 1 None) (fire 1 (Response 0 200) (scenario 1 1 None)) in
  parseURL (Url b) = None
  /\ Stopped b = true /\ occupied b = [] /\ resolved b = true
  /\ exists b1, run 2 b = Ok b1 /\ resolved b1 = false
                /\ (forall es b2, fire_all es b1 = Some b2 -> b2 = b1)
                /\ resolved (stop b1) = true.
Proof.
  intros b.
  assert (Hp : parseURL (Url b) = None) by (vm_compute; reflexivity).
  assert (HS : Stopped b = true) by (vm_compute; reflexivity).
  assert (Hocc : occupied b = []) by (vm_compute; reflexivity).
  assert (HT : forall dc, StopCall b = Some dc -> active dc = false)
    by (intros dc H; vm_compute in H; discriminate H).
  assert (Htl : truthy (Timelimit b) = false) by (vm_compute; reflexivity).
  split; [exact Hp|].
  split; [exact HS|]. split; [exact Hocc|]. split; [vm_compute; reflexivity|].
  destruct (run_again_waits_for_stop 2 b Hp HS Hocc HT Htl)
    as (b1 & H1 & _ & _ & H2 & _ & H3 & H4 & _).
  exists b1. auto.
Defined.

(** ** Outcomes do not steer the run *)

Lemma Bench_ext (b1 b2 : Bench) :
  Requests b1 = Requests b2 -> Concurrency b1 = Concurrency b2 ->
  Timelimit b1 = Timelimit b2 -> Headers b1 = Headers b2 -> Url b1 = Url b2 ->
  Agents b1 = Agents b2 -> Results b1 = Results b2 ->
  ActiveQueries b1 = ActiveQueries b2 -> QueriesMade b1 = QueriesMade b2 ->
  StopCall b1 = StopCall b2 -> RunDeferred b1 = RunDeferred b2 ->
  Stopped b1 = Stopped b2 -> Sent b1 = Sent b2 -> Deferreds b1 = Deferreds b2 ->
  DrainLists b1 = DrainLists b2 -> Unhandled b1 = Unhandled b2 ->
  b1 = b2.
Proof. destruct b1, b2. simpl. intros. subst. reflexivity. Qed.

(** What two benches with the same schedule share. *)
Lemma same_schedule_fields b1 b2 :
  same_schedule b1 b2 ->
  Requests b1 = Requests b2 /\ Concurrency b1 = Concurrency b2
  /\ Timelimit b1 = Timelimit b2 /\ Headers b1 = Headers b2 /\ Url b1 = Url b2
  /\ Agents b1 = Agents b2
  /\ blank_code <$> Results b1 = blank_code <$> Results b2
  /\ ActiveQueries b1 = ActiveQueries b2 /\ QueriesMade b1 = QueriesMade b2
  /\ StopCall b1 = StopCall b2 /\ RunDeferred b1 = RunDeferred b2
  /\ Stopped b1 = Stopped b2 /\ Sent b1 = Sent b2 /\ Deferreds b1 = Deferreds b2
  /\ DrainLists b1 = DrainLists b2 /\ Unhandled b1 = Unhandled b2.
Proof.
  intros H. unfold same_schedule in H.
  repeat split;
    [ exact (f_equal Requests H) | exact (f_equal Concurrency H)
    | exact (f_equal Timelimit H) | exact (f_equal Headers H) | exact (f_equal Url H)
    | exact (f_equal Agents H) | exact (f_equal Results H)
    | exact (f_equal ActiveQueries H) | exact (f_equal QueriesMade H)
    | exact (f_equal StopCall H) | exact (f_equal RunDeferred H)
    | exact (f_equal Stopped H) | exact (f_equal Sent H) | exact (f_equal Deferreds H)
    | exact (f_equal DrainLists H) | exact (f_equal Unhandled H) ].
Qed.

Lemma same_schedule_intro b1 b2 :
  Requests b1 = Requests b2 -> Concurrency b1 = Concurrency b2 ->
  Timelimit b1 = Timelimit b2 -> Headers b1 = Headers b2 -> Url b1 = Url b2 ->
  Agents b1 = Agents b2 ->
  blank_code <$> Results b1 = blank_code <$> Results b2 ->
  ActiveQueries b1 = ActiveQueries b2 -> QueriesMade b1 = QueriesMade b2 ->
  StopCall b1 = StopCall b2 -> RunDeferred b1 = RunDeferred b2 ->
  Stopped b1 = Stopped b2 -> Sent b1 = Sent b2 -> Deferreds b1 = Deferreds b2 ->
  DrainLists b1 = DrainLists b2 -> Unhandled b1 = Unhandled b2 ->
  same_schedule b1 b2.
Proof. intros. apply Bench_ext; assumption. Qed.

Lemma same_schedule_length b1 b2 :
  same_schedule b1 b2 -> length (Results b1) = length (Results b2).
Proof.
  intros H. apply same_schedule_fields in H as (_ & _ & _ & _ & _ & _ & H & _).
  apply (f_equal length) in H. rewrite !length_fmap in H. exact H.
Qed.

Lemma blind_Results g b : blind g -> Results (g b) = Results b.
Proof.
  intros Hg. pose proof (Hg (Results b) b) as H.
  replace (set_Results (Results b) b) with b in H by (destruct b; reflexivity).
  rewrite H. reflexivity.
Qed.

Lemma blind_same_schedule g b1 b2 :
  blind g -> same_schedule b1 b2 -> same_schedule (g b1) (g b2).
Proof.
  intros Hg H. unfold same_schedule, blank in *.
  rewrite !(blind_Results g) by exact Hg. rewrite <- !Hg. rewrite H. reflexivity.
Qed.

Lemma blind_done : blind _done.
Proof.
  intros rs b. unfold _done. simpl RunDeferred.
  destruct (RunDeferred b) as [[[]]|]; reflexivity.
Qed.

Lemma blind_stop : blind stop.
Proof.
  intros rs b. unfold stop.
  change (waiting (set_Stopped true (set_Results rs b))) with (waiting b).
  change (waiting (set_Stopped true b)) with (waiting b).
  destruct (waiting b) as [|d w].
  - change (set_DrainLists (DrainLists (set_Stopped true (set_Results rs b)) ++ [mkDeferredList []])
              (set_Stopped true (set_Results rs b)))
      with (set_Results rs (set_DrainLists (DrainLists (set_Stopped true b) ++ [mkDeferredList []])
                              (set_Stopped true b))).
    rewrite blind_done.
    set (x := _done _). simpl StopCall.
    destruct (StopCall x) as [dc|]; [|reflexivity]. destruct (active dc); reflexivity.
  - simpl StopCall. destruct (StopCall b) as [dc|]; [|reflexivity].
    destruct (active dc); reflexivity.
Qed.

Lemma blind_mark_called d : blind (mark_called d).
Proof. intros rs b. reflexivity. Qed.

Lemma blind_set_StopCall v : blind (set_StopCall v).
Proof. intros rs b. reflexivity. Qed.

Lemma fire_lists_set_Results d dls rs b :
  fire_lists d dls (set_Results rs b)
  = ((fire_lists d dls b).1, set_Results rs (fire_lists d dls b).2).
Proof.
  revert b. induction dls as [|dl dls IH]; intros b; simpl; [reflexivity|].
  assert (E : (if bool_decide (d ∈ dlPending dl)
                  && bool_decide (filter (λ x, x ≠ d) (dlPending dl) = [])
               then _done (set_Results rs b) else set_Results rs b)
              = set_Results rs
                  (if bool_decide (d ∈ dlPending dl)
                      && bool_decide (filter (λ x, x ≠ d) (dlPending dl) = [])
                   then _done b else b)).
  { case_match; [apply blind_done | reflexivity]. }
  rewrite E, IH. destruct (fire_lists d dls _) as [dls' b']. reflexivity.
Qed.

Lemma blind_notify d : blind (notify d).
Proof.
  intros rs b. unfold notify. simpl DrainLists. rewrite fire_lists_set_Results.
  destruct (fire_lists d (DrainLists b) b) as [dls b']. reflexivity.
Qed.

Lemma blank_code_idem r : blank_code (blank_code r) = blank_code r.
Proof. reflexivity. Qed.

Lemma same_schedule_issue now a b1 b2 :
  same_schedule b1 b2 -> same_schedule (issue now a b1) (issue now a b2).
Proof.
  intros H. pose proof (same_schedule_length b1 b2 H) as Hlen.
  apply same_schedule_fields in H
    as (H1 & H2 & H3 & H4 & H5 & H6 & H7 & H8 & H9 & H10 & H11 & H12 & H13 & H14
        & H15 & H16).
  apply same_schedule_intro; simpl; try assumption; try congruence.
  rewrite !alter_last, !fmap_app, H7. reflexivity.
Qed.

Lemma same_schedule_dispatch now a b1 b2 :
  same_schedule b1 b2 -> same_schedule (dispatch now a b1) (dispatch now a b2).
Proof.
  intros H. pose proof (same_schedule_issue now a b1 b2 H) as Hi.
  unfold dispatch.
  destruct (same_schedule_fields _ _ Hi) as (HR & _ & _ & _ & _ & _ & _ & _ & HQ & _).
  rewrite HR, HQ. case_match; [|exact Hi].
  apply blind_same_schedule; [apply blind_stop | exact Hi].
Qed.

Lemma same_schedule_for_agents now agents b1 b2 :
  same_schedule b1 b2 ->
  same_schedule (for_agents now agents b1) (for_agents now agents b2).
Proof.
  revert b1 b2. induction agents as [|a agents IH]; intros b1 b2 H; [exact H|].
  rewrite !for_agents_cons. apply IH, same_schedule_dispatch, H.
Qed.

Lemma same_schedule_makeRequests now agents b1 b2 :
  same_schedule b1 b2 ->
  same_schedule (_makeRequests now agents b1) (_makeRequests now agents b2).
Proof.
  intros H. unfold _makeRequests.
  destruct (same_schedule_fields _ _ H)
    as (_ & _ & _ & _ & _ & _ & _ & _ & _ & _ & _ & HS & _).
  rewrite HS. destruct (Stopped b2); [exact H|]. apply same_schedule_for_agents, H.
Qed.

Lemma blank_alter_done code now (result : nat) (rs : list Result.t) :
  blank_code <$> alter (Result.done code false now) result rs
  = alter (Result.done (CodeInt 0) false now) result (blank_code <$> rs).
Proof.
  revert result. induction rs as [|r rs IH]; intros [|n]; simpl; try reflexivity.
  f_equal. apply IH.
Qed.

(** Completing a request with one outcome or with another. *)
Lemma same_schedule_result_done code1 code2 now result b1 b2 :
  same_schedule b1 b2 ->
  same_schedule (result_done code1 now result b1) (result_done code2 now result b2).
Proof.
  intros H.
  apply same_schedule_fields in H
    as (H1 & H2 & H3 & H4 & H5 & H6 & H7 & H8 & H9 & H10 & H11 & H12 & H13 & H14
        & H15 & H16).
  apply same_schedule_intro; simpl; try assumption.
  rewrite !blank_alter_done, H7. reflexivity.
Qed.

Lemma same_schedule_handler code1 code2 now d result agent b1 b2 :
  same_schedule b1 b2 ->
  same_schedule (notify d (handler code1 now result agent (mark_called d b1)))
                (notify d (handler code2 now result agent (mark_called d b2))).
Proof.
  intros H. apply blind_same_schedule; [apply blind_notify|].
  unfold handler. apply same_schedule_makeRequests, same_schedule_result_done.
  apply blind_same_schedule; [apply blind_mark_called | exact H].
Qed.

Lemma handler_fire now e d code df b :
  completion e = Some (d, code) ->
  Deferreds b !! d = Some df -> dfCalled df = false ->
  fire now e b
  = Some (notify d (handler code now (dfResult df) (dfAgent df) (mark_called d b))).
Proof.
  intros He Hd Hc. destruct e as [d' code'|d' reason|]; simpl in He; [| |discriminate];
    injection He as -> <-; simpl; rewrite Hd, Hc; reflexivity.
Qed.

Lemma same_schedule_fire now e1 e2 b1 b2 b1' :
  same_schedule b1 b2 ->
  fst <$> completion e1 = fst <$> completion e2 ->
  fire now e1 b1 = Some b1' ->
  exists b2', fire now e2 b2 = Some b2' /\ same_schedule b1' b2'.
Proof.
  intros H He Hf. pose proof (fire_handler now e1 b1 b1' Hf) as H1.
  destruct (same_schedule_fields _ _ H)
    as (_ & _ & _ & _ & _ & _ & _ & _ & _ & HT & _ & _ & _ & HD & _).
  destruct (completion e1) as [[d code1]|] eqn:E1.
  - destruct H1 as (df & Hd & Hc & ->).
    destruct (completion e2) as [[d2 code2]|] eqn:E2; [|discriminate He].
    simpl in He. injection He as <-.
    rewrite HD in Hd. rewrite (handler_fire now e2 d code2 df b2 E2 Hd Hc).
    eexists. split; [reflexivity|]. apply same_schedule_handler, H.
  - destruct H1 as (dc & Hs & Ha & ->).
    destruct e2 as [d2 c2|d2 r2|]; [discriminate He | discriminate He |].
    simpl. rewrite <- HT, Hs, Ha. eexists. split; [reflexivity|].
    apply blind_same_schedule; [apply blind_stop|].
    apply blind_same_schedule; [apply blind_set_StopCall | exact H].
Qed.

(** X14. Outcomes do not steer the run.  Take two sequences of turns that
    agree on the clock readings, on which request completes at each turn and
    on when the timer comes due, and differ in the outcomes only: success or
    failure, and the status codes.  From benches that differ in outcomes at
    most, if the first sequence can happen then so can the second, and they
    lead to benches that differ in outcomes at most: the same requests sent
    on the same agents, the same requests in flight, the same counters, the
    same drain lists and the same state of the run deferred. *)
Theorem outcomes_do_not_steer_the_run
    (es1 es2 : list (Z * event)) (b1 b2 b1' : Bench) :
  same_schedule b1 b2 ->
  Forall2 same_turn es1 es2 ->
  fire_all es1 b1 = Some b1' ->
  exists b2',
    fire_all es2 b2 = Some b2'
    /\ same_schedule b1' b2'
    /\ Sent b1' = Sent b2' /\ Deferreds b1' = Deferreds b2'
    /\ QueriesMade b1' = QueriesMade b2' /\ Stopped b1' = Stopped b2'
    /\ DrainLists b1' = DrainLists b2' /\ RunDeferred b1' = RunDeferred b2'
    /\ length (Results b1') = length (Results b2').
Proof.
  intros H Hes. revert b1 b2 H.
  induction Hes as [|[now1 e1] [now2 e2] es1 es2 [Hn He] Hes IH]; intros b1 b2 H Hf.
  - simpl in Hf. injection Hf as <-. exists b2. split; [reflexivity|].
    pose proof (same_schedule_length _ _ H) as Hlen.
    destruct (same_schedule_fields _ _ H)
      as (_ & _ & _ & _ & _ & _ & _ & _ & HQ & _ & HR & HS & HSe & HD & HL & _).
    auto 10.
  - simpl in Hn, He. subst now2. simpl in Hf.
    destruct (fire now1 e1 b1) as [b1m|] eqn:E; [|discriminate].
    destruct (same_schedule_fire now1 e1 e2 b1 b2 b1m H He E) as (b2m & E2 & Hm).
    simpl. rewrite E2. exact (IH b1m b2m Hm Hf).
Qed.

Lemma outcomes_do_not_steer_the_run_witness :
  let b := scenario 3 2 None in
  exists b1' b2',
    same_schedule b b
    /\ Forall2 same_turn [(1, Response 1 200); (2, Response 0 200)]
                         [(1, Failed 1 "reset"); (2, Response 0 503)]
    /\ fire_all [(1, Response 1 200); (2, Response 0 200)] b = Some b1'
    /\ fire_all [(1, Failed 1 "reset"); (2, Response 0 503)] b = Some b2'
    /\ Sent b1' = Sent b2'.
Proof.
  intros b.
  assert (H : same_schedule b b) by reflexivity.
  assert (Hes : Forall2 same_turn [(1, Response 1 200); (2, Response 0 200)]
                                  [(1, Failed 1 "reset"); (2, Response 0 503)])
    by (repeat constructor).
  destruct (fire_all [(1, Response 1 200); (2, Response 0 200)] b) as [b1'|] eqn:Hf;
    [|vm_compute in Hf; discriminate Hf].
  destruct (outcomes_do_not_steer_the_run _ _ b b b1' H Hes Hf)
    as (b2' & Hf2 & _ & HS & _).
  exists b1', b2'. auto.
Defined.

(** ** No exception is lost when the pool fits the budget *)

Lemma done_Unhandled_fresh b :
  RunDeferred b = Some (mkRunDeferred false) -> Unhandled (_done b) = Unhandled b.
Proof. intros H. unfold _done. rewrite H. reflexivity. Qed.

Lemma stop_Unhandled_fresh b :
  RunDeferred b = Some (mkRunDeferred false) -> Unhandled (stop b) = Unhandled b.
Proof.
  intros H. unfold stop. change (waiting (set_Stopped true b)) with (waiting b).
  destruct (waiting b) as [|d w].
  - match goal with |- Unhandled (match StopCall ?x with _ => _ end) = _ =>
      set (b1 := x) end.
    assert (E : Unhandled b1 = Unhandled b)
      by (subst b1; rewrite done_Unhandled_fresh; [reflexivity | exact H]).
    destruct (StopCall b1) as [dc|]; [|exact E]. destruct (active dc); exact E.
  - simpl StopCall. destruct (StopCall b) as [dc|]; [|reflexivity].
    destruct (active dc); reflexivity.
Qed.

Lemma dispatch_Unhandled_steady now a b :
  steady b -> Unhandled (dispatch now a b) = Unhandled b.
Proof.
  intros (_ & _ & _ & HR & _). unfold dispatch. case_match; [|reflexivity].
  rewrite stop_Unhandled_fresh; [reflexivity | exact HR].
Qed.

Lemma fan_out_calm now m :
  forall k b,
    steady b -> Unhandled b = [] -> QueriesMade b + Z.of_nat m <= Requests b ->
    (forall d df, Deferreds b !! d = Some df -> (dfAgent df < k)%nat) ->
    calm (for_agents now (seq k m) b).
Proof.
  induction m as [|m IH]; intros k b Hs Hu Hq Hk; [split; [left; exact Hs | exact Hu]|].
  cbn [seq]. rewrite for_agents_cons.
  assert (Hi : idle k b) by (intros d df Hl _ E; specialize (Hk d df Hl); lia).
  pose proof (dispatch_Unhandled_steady now k b Hs) as Hu'. rewrite Hu in Hu'.
  destruct (dispatch_orderly now k b Hs Hi) as [[Hlt Hs']|[Hle Hd]].
  - apply IH; [exact Hs' | exact Hu' | rewrite dispatch_QueriesMade, dispatch_Requests; lia |].
    intros d df. rewrite dispatch_Deferreds. intros Hl.
    apply lookup_app_Some in Hl as [Hl|[_ Hl]]; [specialize (Hk d df Hl); lia|].
    destruct (d - length (Deferreds b))%nat; simpl in Hl; [|done].
    injection Hl as <-. simpl. lia.
  - assert (m = 0%nat) as -> by lia. split; [right; exact Hd | exact Hu'].
Qed.

Lemma run_calm now requests concurrency url timelimit auth b :
  0 < budget requests timelimit ->
  concurrency <= budget requests timelimit ->
  run now (Bench_init requests concurrency url timelimit auth) = Ok b ->
  calm b.
Proof.
  intros H0 Hc Hrun.
  destruct (run_init_shape _ _ _ _ _ _ _ Hrun) as (Ht & _).
  run_returned Hrun. revert Hrun. unfold budget in *. simpl Timelimit.
  destruct (truthy timelimit) eqn:E.
  - destruct timelimit as [t|]; [|discriminate E].
    specialize (Ht t eq_refl). unfold callLater. simpl default.
    destruct (Z.ltb_spec t 0) as [?|_]; [lia|]. intros [= <-].
    unfold _makeRequests. simpl Stopped. cbv iota. simpl Agents.
    apply fan_out_calm.
    + apply steady_fresh; try reflexivity; simpl; lia.
    + reflexivity.
    + simpl. lia.
    + intros d df Hl. done.
  - intros [= <-]. unfold _makeRequests. simpl Stopped. cbv iota. simpl Agents.
    apply fan_out_calm.
    + apply steady_fresh; try reflexivity; simpl; lia.
    + reflexivity.
    + simpl. lia.
    + intros d df Hl. done.
Qed.

Lemma handler_steady_Unhandled code now d df b :
  steady b -> Deferreds b !! d = Some df -> dfCalled df = false ->
  Unhandled (notify d (handler code now (dfResult df) (dfAgent df) (mark_called d b)))
  = Unhandled b.
Proof.
  intros Hs Hd Hc.
  pose proof (steady_mark_called d b Hs) as Hs1.
  assert (Hi : idle (dfAgent df) (mark_called d b))
    by (destruct Hs as (Ht & _); eapply idle_mark_called; eauto).
  set (b2 := result_done code now (dfResult df) (mark_called d b)).
  assert (Hs2 : steady b2) by exact Hs1.
  assert (Hi2 : idle (dfAgent df) b2) by exact Hi.
  assert (Hlen : (d < length (Deferreds b2))%nat).
  { subst b2. simpl. rewrite length_alter. apply lookup_lt_is_Some. eauto. }
  assert (Hfl : in_flight (dispatch now (dfAgent df) b2) d = false).
  { unfold in_flight. rewrite dispatch_Deferreds, lookup_app_l by exact Hlen.
    subst b2. simpl. rewrite list_lookup_alter_eq, Hd. reflexivity. }
  pose proof (dispatch_Unhandled_steady now (dfAgent df) b2 Hs2) as Hu.
  unfold handler. fold b2. rewrite makeRequests_one.
  destruct Hs2 as (Ht2 & HS2 & HD2 & HR2 & HQ2). rewrite HS2.
  destruct (dispatch_orderly now (dfAgent df) b2
              (conj Ht2 (conj HS2 (conj HD2 (conj HR2 HQ2)))) Hi2)
    as [[_ Hs3]|[_ Hd3]].
  - rewrite notify_none; [exact Hu|].
    destruct Hs3 as (_ & _ & HD3 & _). rewrite HD3. intros dl Hdl.
    apply elem_of_nil in Hdl. done.
  - rewrite notify_none; [exact Hu|].
    destruct Hd3 as (_ & (w & HD3 & Hw & _) & _). rewrite HD3.
    intros dl Hdl. apply list_elem_of_singleton in Hdl as ->. simpl.
    rewrite Hw, Hfl. discriminate.
Qed.

Lemma handler_draining_Unhandled code now d df b :
  draining b -> Deferreds b !! d = Some df -> dfCalled df = false ->
  Unhandled (notify d (handler code now (dfResult df) (dfAgent df) (mark_called d b)))
  = Unhandled b.
Proof.
  intros (HS & (w & HD & Hw & HR) & _) Hd Hc.
  assert (Hdw : d ∈ w) by (apply Hw, in_flight_spec; eauto).
  assert (Hwne : bool_decide (w = []) = false).
  { apply bool_decide_eq_false_2. intros ->. apply elem_of_nil in Hdw. done. }
  rewrite Hwne in HR.
  set (b2 := handler code now (dfResult df) (dfAgent df) (mark_called d b)).
  assert (E2 : b2 = result_done code now (dfResult df) (mark_called d b)).
  { subst b2. unfold handler, _makeRequests. simpl Stopped. rewrite HS. reflexivity. }
  assert (HD2 : DrainLists b2 = [mkDeferredList w]) by (rewrite E2; exact HD).
  assert (HR2 : RunDeferred b2 = Some (mkRunDeferred false)) by (rewrite E2; exact HR).
  assert (HU2 : Unhandled b2 = Unhandled b) by (rewrite E2; reflexivity).
  rewrite (notify_single d w b2 HD2 Hdw). simpl.
  case_match; [rewrite done_Unhandled_fresh by exact HR2|]; exact HU2.
Qed.

Lemma fire_calm now e b b' : calm b -> fire now e b = Some b' -> calm b'.
Proof.
  intros [Ho Hu] Hf. split; [eapply fire_orderly; eauto|].
  destruct e as [d code|d reason|]; simpl in Hf.
  - destruct (Deferreds b !! d) as [df|] eqn:Hd; [|discriminate].
    destruct (dfCalled df) eqn:Hc; [discriminate|]. injection Hf as <-.
    rewrite callback_handler. destruct Ho as [Hs|Hdr].
    + rewrite handler_steady_Unhandled; auto.
    + rewrite handler_draining_Unhandled; auto.
  - destruct (Deferreds b !! d) as [df|] eqn:Hd; [|discriminate].
    destruct (dfCalled df) eqn:Hc; [discriminate|]. injection Hf as <-.
    rewrite errback_handler. destruct Ho as [Hs|Hdr].
    + rewrite handler_steady_Unhandled; auto.
    + rewrite handler_draining_Unhandled; auto.
  - destruct (StopCall b) as [dc|] eqn:HT; [|discriminate].
    destruct (active dc) eqn:Ha; [|discriminate]. injection Hf as <-.
    destruct Ho as [(_ & _ & _ & HR & _)|(_ & _ & Hin & _)].
    + rewrite stop_Unhandled_fresh; [exact Hu | exact HR].
    + rewrite (Hin dc HT) in Ha. discriminate.
Qed.

Lemma fire_all_calm es b b' : calm b -> fire_all es b = Some b' -> calm b'.
Proof.
  revert b. induction es as [|[now e] es IH]; intros b H Hf; simpl in Hf.
  - injection Hf as <-. exact H.
  - destruct (fire now e b) as [b1|] eqn:E; [|discriminate].
    eapply IH; [|exact Hf]. eapply fire_calm; eauto.
Qed.

(** X15. No exception is lost when the pool fits the budget.  In a run with
    [concurrency] no larger than its budget ([requests], or 5000 under a
    time limit), [stop] builds one drain list in all, [_done] runs on a
    deferred that has no value yet, and nothing is raised inside a drain
    list: no [AlreadyCalledError], no [AttributeError]. *)
Theorem no_exception_is_lost
    (now requests concurrency : Z) (url : string) (timelimit : option Z) (auth : pystr)
    (es : list (Z * event)) (b b' : Bench) :
  0 < budget requests timelimit ->
  concurrency <= budget requests timelimit ->
  run now (Bench_init requests concurrency url timelimit auth) = Ok b ->
  fire_all es b = Some b' ->
  Unhandled b' = []
  /\ (length (DrainLists b') <= 1)%nat
  /\ (Stopped b' = true -> length (DrainLists b') = 1%nat).
Proof.
  intros H0 Hc Hrun Hf.
  pose proof (run_calm _ _ _ _ _ _ _ H0 Hc Hrun) as Hcalm.
  destruct (fire_all_calm es b b' Hcalm Hf) as [Ho Hu].
  split; [exact Hu|].
  destruct Ho as [(_ & HS & HD & _)|(HS & (w & HD & _) & _)]; rewrite HD, HS; simpl.
  - split; [lia | discriminate].
  - split; [lia | reflexivity].
Qed.

Lemma no_exception_is_lost_witness :
  exists b b',
    0 < budget 2 None /\ 2 <= budget 2 None
    /\ run 0 (Bench_init 2 2 "http://localhost/" None (PyStr "")) = Ok b
    /\ fire_all [(1, Response 1 200); (2, Failed 0 "reset")] b = Some b'
    /\ Unhandled b' = [].
Proof.
  destruct (fire_all [(1, Response 1 200); (2, Failed 0 "reset")]
              (state_of (run 0 (Bench_init 2 2 "http://localhost/" None (PyStr "")))))
    as [b'|] eqn:Hf; [|vm_compute in Hf; discriminate Hf].
  assert (Hrun : run 0 (Bench_init 2 2 "http://localhost/" None (PyStr ""))
                 = Ok (state_of (run 0 (Bench_init 2 2 "http://localhost/" None (PyStr "")))))
    by (vm_compute; reflexivity).
  assert (H0 : 0 < budget 2 None) by (vm_compute; reflexivity).
  assert (Hc : 2 <= budget 2 None) by (vm_compute; discriminate).
  exists (state_of (run 0 (Bench_init 2 2 "http://localhost/" None (PyStr "")))), b'.
  split; [exact H0|]. split; [exact Hc|]. split; [exact Hrun|]. split; [exact Hf|].
  exact (proj1 (no_exception_is_lost 0 2 2 "http://localhost/" None (PyStr "")
                  _ _ b' H0 Hc Hrun Hf)).
Defined.
